(** * Reputation reprocessing (reputation/reprocess.go) and the sfstatus
      command: a shallow embedding and its properties.

    Go's [int] and [int64] are 64-bit two's-complement integers; they are
    modelled as [Z] with the wrap-around written out ([wrap64]).  A
    [map[int64]int64] is a [gmap Z Z] whose missing keys read as 0.  Calls to
    the platform (message history, reputation store, notifications, the
    caller's context) are modelled by a world that holds the scripted answers
    of the platform and the trace of the calls made so far.  Calls of the logger
    and the wording of the messages sent are left out. *)

From Stdlib Require Import ZArith Lia Ascii String List Bool.
From stdpp Require Import base option list gmap strings fin_maps.

Local Open Scope string_scope.
Local Open Scope Z_scope.

(** ** Machine integers *)

Definition wrap64 (z : Z) : Z := (z + 2 ^ 63) mod 2 ^ 64 - 2 ^ 63.

Definition in_int64 (z : Z) : Prop := - 2 ^ 63 <= z < 2 ^ 63.

(** ** Pattern Matcher

    [giveRepPattern = (?i)!giverep\s+<@!?(\d+)>] and
    [thanksPattern  = (?i)thanks\s+<@!?(\d+)>].  Both have the shape
    literal, [\s+], ["<@"], optional ["!"], [(\d+)], [">"]; no two adjacent
    pieces can consume the same byte, so the leftmost match is found by
    trying each start position in turn without backtracking. *)

Definition byte_of (c : ascii) : Z := Z.of_N (N_of_ascii c).

(** [\s] in Go's regexp is [\t\n\f\r ]. *)
Definition is_space (c : ascii) : bool :=
  let n := byte_of c in
  (n =? 9) || (n =? 10) || (n =? 12) || (n =? 13) || (n =? 32).

(** [\d] is [0-9]. *)
Definition is_digit (c : ascii) : bool :=
  let n := byte_of c in (48 <=? n) && (n <=? 57).

Definition to_lower (c : ascii) : ascii :=
  let n := byte_of c in
  if (65 <=? n) && (n <=? 90) then ascii_of_N (Z.to_N (n + 32)) else c.

(** One literal of a [(?i)] pattern, given in lower case.  Go folds case
    with unicode.SimpleFold, so [k] also matches U+212A (bytes E2 84 AA) and
    [s] also matches U+017F (bytes C5 BF). *)
Definition fold_char (p : ascii) (s : string) : option string :=
  match s with
  | EmptyString => None
  | String c s' =>
      if Ascii.eqb (to_lower c) p then Some s'
      else if Ascii.eqb p "k" then
        match s with
        | String c1 (String c2 (String c3 r)) =>
            if (byte_of c1 =? 226) && (byte_of c2 =? 132) && (byte_of c3 =? 170)
            then Some r else None
        | _ => None
        end
      else if Ascii.eqb p "s" then
        match s with
        | String c1 (String c2 r) =>
            if (byte_of c1 =? 197) && (byte_of c2 =? 191) then Some r else None
        | _ => None
        end
      else None
  end.

Fixpoint fold_literal (p : string) (s : string) : option string :=
  match p with
  | EmptyString => Some s
  | String a p' =>
      match fold_char a s with
      | Some s' => fold_literal p' s'
      | None => None
      end
  end.

Fixpoint skip_spaces (s : string) : string :=
  match s with
  | String c s' => if is_space c then skip_spaces s' else s
  | EmptyString => s
  end.

(** [\s+]: at least one space, then as many as there are. *)
Definition spaces1 (s : string) : option string :=
  match s with
  | String c s' => if is_space c then Some (skip_spaces s') else None
  | EmptyString => None
  end.

Fixpoint span_digits (s : string) : string * string :=
  match s with
  | String c s' =>
      if is_digit c then let '(d, r) := span_digits s' in (String c d, r)
      else (EmptyString, s)
  | EmptyString => (EmptyString, EmptyString)
  end.

(** The part [<@!?(\d+)>]; the result is capture group 1. *)
Definition mention (s : string) : option string :=
  match s with
  | String "<" (String "@" s1) =>
      let s2 := match s1 with String "!" r => r | _ => s1 end in
      match span_digits s2 with
      | (EmptyString, _) => None
      | (d, String ">" _) => Some d
      | _ => None
      end
  | _ => None
  end.

Definition match_here (lit : string) (s : string) : option string :=
  match fold_literal lit s with
  | Some s1 =>
      match spaces1 s1 with
      | Some s2 => mention s2
      | None => None
      end
  | None => None
  end.

(** [FindStringSubmatch]: [None] is Go's nil; [Some d] stands for the
    slice whose element 1 is [d]. *)
Fixpoint FindStringSubmatch (lit : string) (s : string) : option string :=
  match match_here lit s with
  | Some d => Some d
  | None =>
      match s with
      | EmptyString => None
      | String _ s' => FindStringSubmatch lit s'
      end
  end.

Definition giveRepPattern : string -> option string := FindStringSubmatch "!giverep".
Definition thanksPattern : string -> option string := FindStringSubmatch "thanks".

(** ** common.MustParseInt *)

Fixpoint digits_value (acc : Z) (s : string) : option Z :=
  match s with
  | EmptyString => Some acc
  | String c s' =>
      if is_digit c then digits_value (10 * acc + (byte_of c - 48)) s' else None
  end.

(** strconv.ParseInt(s, 10, 64): an optional sign, at least one digit, and
    a value that fits 64 bits. *)
Definition ParseInt (s : string) : option Z :=
  let '(neg, body) :=
    match s with
    | String "-" r => (true, r)
    | String "+" r => (false, r)
    | _ => (false, s)
    end in
  match body with
  | EmptyString => None
  | _ =>
      match digits_value 0 body with
      | Some v =>
          let v := if neg then - v else v in
          if (- 2 ^ 63 <=? v) && (v <? 2 ^ 63) then Some v else None
      | None => None
      end
  end.

(** Modelled from the spec: the body of common.MustParseInt is not among the
    sources.  The spec speaks of "the zero/unparseable value" and says that
    an unparseable identifier is ignored, so the helper is taken to yield 0
    where strconv.ParseInt fails. *)
Definition MustParseInt (s : string) : Z :=
  match ParseInt s with
  | Some v => v
  | None => 0
  end.

(** ** Data model *)

Inductive error : Type :=
  | ctxCanceled               (* context.Canceled *)
  | ctxDeadlineExceeded       (* context.DeadlineExceeded *)
  | errOther (msg : string).  (* any error of the platform *)

Record User := { User_ID : Z; Bot : bool }.

Record Message := {
  ID : Z;
  Author : User;
  Content : string;
  Timestamp : string
}.

Record ReputationConfig := { DisableThanksDetection : bool }.

Definition ChannelTypeGuildText : Z := 0.

Record ChannelState := { Channel_ID : Z; Channel_Type : Z }.

Record GuildSet := { Guild_ID : Z; Channels : list ChannelState }.

Record reprocessStats := {
  MessagesProcessed : Z;
  RepGiven : Z;
  UsersAffected : Z
}.

Definition Add (s : reprocessStats) (messages rep : Z) : reprocessStats :=
  {| MessagesProcessed := wrap64 (MessagesProcessed s + messages);
     RepGiven := wrap64 (RepGiven s + rep);
     UsersAffected := UsersAffected s |}.

Definition SetUsers (s : reprocessStats) (n : Z) : reprocessStats :=
  {| MessagesProcessed := MessagesProcessed s;
     RepGiven := RepGiven s;
     UsersAffected := n |}.

Definition Get (s : reprocessStats) : Z * Z * Z :=
  (MessagesProcessed s, RepGiven s, UsersAffected s).

(** ** The platform

    What the code takes from outside its own source: the timestamp parser of
    the message library (instants are nanoseconds as [Z], [None] is a parse
    error), the value of [time.Now().AddDate(-5, 0, 0)] at the start of a
    run, and the order in which [range] walks a map, which Go leaves open. *)

Record Platform := {
  Timestamp_Parse : string -> option Z;
  fiveYearsAgo : Z;
  map_range : gmap Z Z -> list (Z * Z)
}.

Definition map_range_ok (P : Platform) : Prop :=
  forall m : gmap Z Z, map_range P m ≡ₚ map_to_list m.

(** The text of a notification is rendered by fmt.Sprintf from these data. *)
Inductive Notification : Type :=
  | NChannelError (channel : Z) (e : error)
  | NUserError (user : Z) (e : error)
  | NSummary (channelErrors userErrors : Z).

Inductive Event : Type :=
  | EvWgAdd
  | EvGo
  | EvPoll
  | EvFetch (channel limit before : Z)
  | EvSleep (ms : Z)
  | EvSend (dest : Z) (n : Notification)
  | EvStatsAdd (messages rep : Z)
  | EvClose
  | EvWait
  | EvStore (guild user amount : Z) (err : option error)
  | EvSetUsers (n : Z).

(** One answer of [ChannelMessages]: a page or an error. *)
Definition FetchResult : Type := list Message + error.

(** [cancel = Some (n, e)]: the caller's context is done, with [ctx.Err() = e],
    from the [n]-th coming check on; a done context stays done.  [stores]
    are the coming answers of [insertUpdateUserRep]; past the end of the
    script the store succeeds.  [trace] lists the calls made, oldest first. *)
Record World := {
  cancel : option (nat * error);
  stores : list (option error);
  trace : list Event
}.

Definition emit (e : Event) (w : World) : World :=
  {| cancel := cancel w; stores := stores w; trace := trace w ++ [e] |}.

(** [select { case <-ctx.Done(): ... ctx.Err() default: }] *)
Definition ctx_poll (w : World) : option error * World :=
  match cancel w with
  | Some (O, e) => (Some e, emit EvPoll w)
  | Some (S n, e) =>
      (None, emit EvPoll {| cancel := Some (n, e); stores := stores w; trace := trace w |})
  | None => (None, emit EvPoll w)
  end.

Definition insertUpdateUserRep (guildID userID amount : Z) (w : World)
  : option error * World :=
  match stores w with
  | [] => (None, emit (EvStore guildID userID amount None) w)
  | r :: rest =>
      (r, emit (EvStore guildID userID amount r)
            {| cancel := cancel w; stores := rest; trace := trace w |})
  end.

Definition sendErrorMessage (channelID : Z) (n : Notification) (w : World) : World :=
  emit (EvSend channelID n) w.

(** ** Channel Scanner *)

Definition lookup0 (m : gmap Z Z) (k : Z) : Z := default 0 (m !! k).

(** [repChanges[userID]++] *)
Definition incr (m : gmap Z Z) (k : Z) : gmap Z Z :=
  <[k := wrap64 (lookup0 m k + 1)]> m.

(** The outcome of a loop body or of a loop: [Return] leaves the function,
    [Next] goes on. *)
Inductive flow (A : Type) : Type :=
  | Return (a : A)
  | Next (a : A).
Arguments Return {A} a.
Arguments Next {A} a.

(** The body of [for _, msg := range messages] in processChannel. *)
Definition scanMessage (P : Platform) (conf : ReputationConfig) (since : Z)
    (msg : Message) (processed : Z) (repChanges : gmap Z Z)
  : flow (Z * gmap Z Z) :=
  match Timestamp_Parse P (Timestamp msg) with
  | None => Next (processed, repChanges)
  | Some msgTime =>
      if msgTime <? since then Return (processed, repChanges)
      else
        let processed := wrap64 (processed + 1) in
        if Bot (Author msg) then Next (processed, repChanges)
        else
          match giveRepPattern (Content msg) with
          | Some m1 =>
              let userID := MustParseInt m1 in
              if negb (userID =? 0) && negb (userID =? User_ID (Author msg))
              then Next (processed, incr repChanges userID)
              else Next (processed, repChanges)
          | None =>
              if negb (DisableThanksDetection conf) then
                match thanksPattern (Content msg) with
                | Some m1 =>
                    let userID := MustParseInt m1 in
                    if negb (userID =? 0) && negb (userID =? User_ID (Author msg))
                    then Next (processed, incr repChanges userID)
                    else Next (processed, repChanges)
                | None => Next (processed, repChanges)
                end
              else Next (processed, repChanges)
          end
  end.

Fixpoint scanPage (P : Platform) (conf : ReputationConfig) (since : Z)
    (messages : list Message) (processed : Z) (repChanges : gmap Z Z)
  : flow (Z * gmap Z Z) :=
  match messages with
  | [] => Next (processed, repChanges)
  | msg :: rest =>
      match scanMessage P conf since msg processed repChanges with
      | Return r => Return r
      | Next (processed', repChanges') =>
          scanPage P conf since rest processed' repChanges'
      end
  end.

(** [messages[len(messages)-1].ID] *)
Definition lastID (messages : list Message) : Z :=
  match last messages with
  | Some m => ID m
  | None => 0
  end.

(** The [for] loop of processChannel.  [script] holds the coming answers of
    [ChannelMessages]; a channel's history is finite, so past the end of the
    script the platform answers with an empty page.  The result carries the
    rest of the script and the world. *)
Fixpoint processChannel_loop (P : Platform) (conf : ReputationConfig)
    (channelID since : Z) (script : list FetchResult) (w : World)
    (processed : Z) (repChanges : gmap Z Z) (beforeID : Z)
  : (Z * gmap Z Z * option error) * list FetchResult * World :=
  match ctx_poll w with
  | (Some e, w1) => ((processed, repChanges, Some e), script, w1)
  | (None, w1) =>
      let w2 := emit (EvFetch channelID 100 beforeID) w1 in
      match script with
      | [] => ((processed, repChanges, None), [], w2)
      | inr err :: script' => ((processed, repChanges, Some err), script', w2)
      | inl messages :: script' =>
          if (Z.of_nat (length messages) =? 0)
          then ((processed, repChanges, None), script', w2)
          else
            match scanPage P conf since messages processed repChanges with
            | Return (processed', repChanges') =>
                ((processed', repChanges', None), script', w2)
            | Next (processed', repChanges') =>
                processChannel_loop P conf channelID since script'
                  (emit (EvSleep 1000) w2) processed' repChanges' (lastID messages)
            end
      end
  end.

Definition processChannel (P : Platform) (conf : ReputationConfig)
    (channelID since : Z) (script : list FetchResult) (w : World)
  : (Z * gmap Z Z * option error) * list FetchResult * World :=
  processChannel_loop P conf channelID since script w 0 ∅ 0.

(** ** Reprocess Orchestrator *)

(** [for _, amount := range changes { repCount += int(amount) }] *)
Definition repCountOf (P : Platform) (changes : gmap Z Z) : Z :=
  fold_left (fun repCount kv => wrap64 (repCount + kv.2)) (map_range P changes) 0.

(** [for userID, amount := range changes { repChanges[userID] += amount }] *)
Definition aggregate (P : Platform) (repChanges changes : gmap Z Z) : gmap Z Z :=
  fold_left (fun m kv => <[kv.1 := wrap64 (lookup0 m kv.1 + kv.2)]> m)
    (map_range P changes) repChanges.

(** The loop over [gs.Channels]. *)
Fixpoint scanChannels (P : Platform) (conf : ReputationConfig) (channelID : Z)
    (channels : list ChannelState) (script : list FetchResult) (w : World)
    (stats : reprocessStats) (repChanges : gmap Z Z) (channelErrors : Z)
  : (reprocessStats * gmap Z Z * Z) * list FetchResult * World :=
  match channels with
  | [] => ((stats, repChanges, channelErrors), script, w)
  | channel :: rest =>
      if negb (Channel_Type channel =? ChannelTypeGuildText)
      then scanChannels P conf channelID rest script w stats repChanges channelErrors
      else
        match processChannel P conf (Channel_ID channel) (fiveYearsAgo P) script w with
        | ((_, _, Some err), script1, w1) =>
            scanChannels P conf channelID rest script1
              (sendErrorMessage channelID (NChannelError (Channel_ID channel) err) w1)
              stats repChanges (wrap64 (channelErrors + 1))
        | ((processed, changes, None), script1, w1) =>
            let repCount := repCountOf P changes in
            scanChannels P conf channelID rest script1
              (emit (EvSleep 1000) (emit (EvStatsAdd processed repCount) w1))
              (Add stats processed repCount)
              (aggregate P repChanges changes)
              channelErrors
        end
  end.

(** The loop over [repChanges] that writes to the reputation store. *)
Fixpoint applyChanges (guildID channelID : Z) (changes : list (Z * Z)) (w : World)
    (uniqueUsers userErrors : Z) : (Z * Z) * World :=
  match changes with
  | [] => ((uniqueUsers, userErrors), w)
  | (userID, amount) :: rest =>
      if amount =? 0 then applyChanges guildID channelID rest w uniqueUsers userErrors
      else
        let uniqueUsers := wrap64 (uniqueUsers + 1) in
        match insertUpdateUserRep guildID userID amount w with
        | (Some err, w1) =>
            applyChanges guildID channelID rest
              (sendErrorMessage channelID (NUserError userID err) w1)
              uniqueUsers (wrap64 (userErrors + 1))
        | (None, w1) =>
            applyChanges guildID channelID rest w1 uniqueUsers userErrors
        end
  end.

Definition stats0 : reprocessStats :=
  {| MessagesProcessed := 0; RepGiven := 0; UsersAffected := 0 |}.

(** The state of reprocessMessages when the scan loop is over and the
    reporter has not yet been told to stop. *)
Definition scanPhase (P : Platform) (gs : GuildSet) (conf : ReputationConfig)
    (channelID : Z) (script : list FetchResult) (w : World)
  : (reprocessStats * gmap Z Z * Z) * list FetchResult * World :=
  scanChannels P conf channelID (Channels gs) script (emit EvGo (emit EvWgAdd w))
    stats0 ∅ 0.

Definition reprocessMessages (P : Platform) (gs : GuildSet) (conf : ReputationConfig)
    (channelID : Z) (script : list FetchResult) (w : World)
  : (reprocessStats * option error) * list FetchResult * World :=
  let '((stats, repChanges, channelErrors), script1, w1) :=
    scanPhase P gs conf channelID script w in
  let w2 := emit EvWait (emit EvClose w1) in
  let '((uniqueUsers, userErrors), w3) :=
    applyChanges (Guild_ID gs) channelID (map_range P repChanges) w2 0 0 in
  let stats := SetUsers stats uniqueUsers in
  let w4 := emit (EvSetUsers uniqueUsers) w3 in
  let w5 :=
    if (channelErrors >? 0) || (userErrors >? 0)
    then sendErrorMessage channelID (NSummary channelErrors userErrors) w4
    else w4 in
  ((stats, None), script1, w5).

(** ** Progress Reporter *)

Record updateInterval := { duration : Z; count : Z }.

Definition Second : Z := 1000000000.
Definition Minute : Z := 60 * Second.
Definition Hour : Z := 60 * Minute.

Definition updateIntervals : list updateInterval :=
  [ {| duration := 10 * Second; count := 5 |};
    {| duration := 1 * Minute; count := 5 |};
    {| duration := 1 * Hour; count := 5 |};
    {| duration := 24 * Hour; count := -1 |} ].

(** The local state of sendPeriodicUpdates.  [ticker] is the period of the
    running ticker; [clock] is the simulated time since [startTime], which
    moves by one period of the ticker at each tick. *)
Record reporter := {
  currentIntervalIdx : Z;
  updatesAtCurrentInterval : Z;
  ticker : Z;
  clock : Z
}.

Record StatusUpdate := {
  elapsed : Z;
  su_messages : Z;
  su_rep : Z;
  su_users : Z
}.

Definition reporter0 : reporter :=
  {| currentIntervalIdx := 0;
     updatesAtCurrentInterval := 0;
     ticker := 10 * Second;
     clock := 0 |}.

(** [updateIntervals[i]]; [None] is Go's index-out-of-range panic. *)
Definition interval_at (i : Z) : option updateInterval :=
  if (0 <=? i) then updateIntervals !! Z.to_nat i else None.

(** The [case <-ticker.C] branch: the update posted and the next state. *)
Definition tick (stats : reprocessStats) (r : reporter)
  : option (StatusUpdate * reporter) :=
  let now := clock r + ticker r in
  let '(messages, rep, users) := Get stats in
  let post := {| elapsed := now; su_messages := messages;
                 su_rep := rep; su_users := users |} in
  let updates := wrap64 (updatesAtCurrentInterval r + 1) in
  match interval_at (currentIntervalIdx r) with
  | None => None
  | Some currentInterval =>
      if negb (count currentInterval =? -1) && (updates >=? count currentInterval)
      then
        if currentIntervalIdx r <? Z.of_nat (length updateIntervals) - 1
        then
          let idx := wrap64 (currentIntervalIdx r + 1) in
          match interval_at idx with
          | None => None
          | Some next =>
              Some (post, {| currentIntervalIdx := idx;
                             updatesAtCurrentInterval := 0;
                             ticker := duration next;
                             clock := now |})
          end
        else
          Some (post, {| currentIntervalIdx := currentIntervalIdx r;
                         updatesAtCurrentInterval := updates;
                         ticker := ticker r;
                         clock := now |})
      else
        Some (post, {| currentIntervalIdx := currentIntervalIdx r;
                       updatesAtCurrentInterval := updates;
                       ticker := ticker r;
                       clock := now |})
  end.

(** A reporter that is not stopped: the updates of [n] ticks in a row,
    oldest first, and the state after them.  [stats k] is what the shared
    statistics hold when tick number [k] reads them. *)
Fixpoint run_ticks (stats : nat -> reprocessStats) (k n : nat) (r : reporter)
  : option (list StatusUpdate * reporter) :=
  match n with
  | O => Some ([], r)
  | S n' =>
      match tick (stats k) r with
      | None => None
      | Some (post, r') =>
          match run_ticks stats (S k) n' r' with
          | None => None
          | Some (posts, r'') => Some (post :: posts, r'')
          end
      end
  end.

(** The spacing the schedule prescribes before the [k]-th tick, [k] from 0. *)
Definition schedule (k : nat) : Z :=
  if (k <? 5)%nat then 10 * Second
  else if (k <? 10)%nat then 1 * Minute
  else if (k <? 15)%nat then 1 * Hour
  else 24 * Hour.

(** The spacings of a list of updates: each elapsed time minus the one
    before, the first one counted from the start. *)
Fixpoint spacings (prev : Z) (posts : list StatusUpdate) : list Z :=
  match posts with
  | [] => []
  | p :: rest => (elapsed p - prev) :: spacings (elapsed p) rest
  end.

(** ** Orchestrator and Reporter side by side

    The two goroutines share the statistics (every access under the lock,
    hence atomic), the stop channel and the wait group.  The orchestrator
    performs the events of its trace in order; the reporter may tick whenever
    it runs, and may leave once the stop channel is closed (when both a tick
    and the stop signal are ready, [select] picks either). *)

Inductive reporterStatus : Type :=
  | NotStarted
  | Running (r : reporter)
  | Terminated.

Record system := {
  orch : list Event;
  rep : reporterStatus;
  shared : reprocessStats;
  stopChan : bool;
  wg : Z;
  posted : list StatusUpdate
}.

(** The effect of one orchestrator event on the shared state; [None] when
    the event cannot happen yet ([wg.Wait()] with a non-zero counter). *)
Definition orch_step (e : Event) (rest : list Event) (s : system) : option system :=
  match e with
  | EvWgAdd =>
      Some {| orch := rest; rep := rep s; shared := shared s;
              stopChan := stopChan s; wg := wg s + 1; posted := posted s |}
  | EvGo =>
      Some {| orch := rest; rep := Running reporter0; shared := shared s;
              stopChan := stopChan s; wg := wg s; posted := posted s |}
  | EvStatsAdd messages r =>
      Some {| orch := rest; rep := rep s; shared := Add (shared s) messages r;
              stopChan := stopChan s; wg := wg s; posted := posted s |}
  | EvClose =>
      Some {| orch := rest; rep := rep s; shared := shared s;
              stopChan := true; wg := wg s; posted := posted s |}
  | EvWait =>
      if wg s =? 0
      then Some {| orch := rest; rep := rep s; shared := shared s;
                   stopChan := stopChan s; wg := wg s; posted := posted s |}
      else None
  | EvSetUsers n =>
      Some {| orch := rest; rep := rep s; shared := SetUsers (shared s) n;
              stopChan := stopChan s; wg := wg s; posted := posted s |}
  | _ =>
      Some {| orch := rest; rep := rep s; shared := shared s;
              stopChan := stopChan s; wg := wg s; posted := posted s |}
  end.

Inductive step : system -> system -> Prop :=
  | step_orch s e rest s' :
      orch s = e :: rest ->
      orch_step e rest s = Some s' ->
      step s s'
  | step_tick s r post r' :
      rep s = Running r ->
      tick (shared s) r = Some (post, r') ->
      step s {| orch := orch s; rep := Running r'; shared := shared s;
                stopChan := stopChan s; wg := wg s;
                posted := posted s ++ [post] |}
  | step_stop s r :
      rep s = Running r ->
      stopChan s = true ->
      step s {| orch := orch s; rep := Terminated; shared := shared s;
                stopChan := stopChan s; wg := wg s - 1; posted := posted s |}.

Definition world0 (c : option (nat * error)) (st : list (option error)) : World :=
  {| cancel := c; stores := st; trace := [] |}.

(** The events of a whole run of reprocessMessages. *)
Definition run_events (P : Platform) (gs : GuildSet) (conf : ReputationConfig)
    (channelID : Z) (script : list FetchResult)
    (c : option (nat * error)) (st : list (option error)) : list Event :=
  trace (reprocessMessages P gs conf channelID script (world0 c st)).2.

Definition system0 (events : list Event) : system :=
  {| orch := events; rep := NotStarted; shared := stats0;
     stopChan := false; wg := 0; posted := [] |}.

(** ** The sfstatus command *)

Record GeneralMessage := { Subject : string; Body : string }.

Record SalesforceStatus := {
  Key : string;
  Location : string;
  Environment : string;
  ReleaseVersion : string;
  Status : string;
  IsActive : bool;
  GeneralMessages : list GeneralMessage
}.

Record MessageEmbedField := { Name : string; Value : string; Inline : bool }.

Record MessageEmbed := {
  Title : string;
  Color : Z;
  Fields : list MessageEmbedField;
  Footer : string
}.

(** The two local variables of RunFunc that the switch assigns. *)
Record statusVars := { statusColor : Z; statusEmoji : string }.

Definition set_statusColor (c : Z) (v : statusVars) : statusVars :=
  {| statusColor := c; statusEmoji := statusEmoji v |}.

Definition set_statusEmoji (e : string) (v : statusVars) : statusVars :=
  {| statusColor := statusColor v; statusEmoji := e |}.

(** [switch status.Status { ... }] run on the variables as they are. *)
Definition statusSwitch (status : string) (v : statusVars) : statusVars :=
  if String.eqb status "OK"
  then set_statusEmoji "✅" (set_statusColor 0x2ECC71 v)
  else if String.eqb status "MAJOR_INCIDENT_CORE" || String.eqb status "MAINTENANCE"
  then set_statusEmoji "🔴" (set_statusColor 0xE74C3C v)
  else if String.eqb status "MINOR_INCIDENT_CORE"
          || String.eqb status "PERFORMANCE_DEGRADATION"
  then set_statusEmoji "⚠️" (set_statusColor 0xF39C12 v)
  else set_statusEmoji "❓" (set_statusColor 0x95A5A6 v).

(** The code as written: the variables start green, then the switch runs. *)
Definition statusVars_source (status : string) : statusVars :=
  statusSwitch status {| statusColor := 0x2ECC71; statusEmoji := "✅" |}.

(** Colour and emoji computed from the status value alone. *)
Definition colorOf (status : string) : Z :=
  if String.eqb status "OK" then 0x2ECC71
  else if String.eqb status "MAJOR_INCIDENT_CORE" then 0xE74C3C
  else if String.eqb status "MAINTENANCE" then 0xE74C3C
  else if String.eqb status "MINOR_INCIDENT_CORE" then 0xF39C12
  else if String.eqb status "PERFORMANCE_DEGRADATION" then 0xF39C12
  else 0x95A5A6.

Definition emojiOf (status : string) : string :=
  if String.eqb status "OK" then "✅"
  else if String.eqb status "MAJOR_INCIDENT_CORE" then "🔴"
  else if String.eqb status "MAINTENANCE" then "🔴"
  else if String.eqb status "MINOR_INCIDENT_CORE" then "⚠️"
  else if String.eqb status "PERFORMANCE_DEGRADATION" then "⚠️"
  else "❓".

Definition statusVars_direct (status : string) : statusVars :=
  {| statusColor := colorOf status; statusEmoji := emojiOf status |}.

(** The embed up to the optional "Recent Messages" field, which reads
    neither variable. *)
Definition buildEmbed (v : statusVars) (status : SalesforceStatus) : MessageEmbed :=
  {| Title := statusEmoji v ++ " Salesforce Instance: " ++ Key status;
     Color := statusColor v;
     Fields :=
       [ {| Name := "Status"; Value := Status status; Inline := true |};
         {| Name := "Location"; Value := Location status; Inline := true |};
         {| Name := "Environment"; Value := Environment status; Inline := true |};
         {| Name := "Release Version"; Value := ReleaseVersion status;
            Inline := false |} ];
     Footer := "Active: " ++ (if IsActive status then "true" else "false") |}.

Definition embed_source (status : SalesforceStatus) : MessageEmbed :=
  buildEmbed (statusVars_source (Status status)) status.

Definition embed_direct (status : SalesforceStatus) : MessageEmbed :=
  buildEmbed (statusVars_direct (Status status)) status.

(** ** Sample data *)

(** A platform whose timestamps are written as decimal instants and whose
    [range] walks a map in the order of [map_to_list]. *)
Definition samplePlatform : Platform :=
  {| Timestamp_Parse := ParseInt; fiveYearsAgo := 100; map_range := map_to_list |}.

Definition confDefault : ReputationConfig := {| DisableThanksDetection := false |}.
Definition confNoThanks : ReputationConfig := {| DisableThanksDetection := true |}.

Definition mkMessage (id author : Z) (content ts : string) : Message :=
  {| ID := id; Author := {| User_ID := author; Bot := false |};
     Content := content; Timestamp := ts |}.

Definition flow_val {A : Type} (f : flow A) : A :=
  match f with
  | Return a => a
  | Next a => a
  end.

(** A message whose timestamp parses to an instant strictly before the
    cutoff, and a message that the scanner counts. *)
Definition is_old (P : Platform) (since : Z) (m : Message) : bool :=
  match Timestamp_Parse P (Timestamp m) with
  | Some t => t <? since
  | None => false
  end.

Definition is_counted (P : Platform) (since : Z) (m : Message) : bool :=
  match Timestamp_Parse P (Timestamp m) with
  | Some t => negb (t <? since)
  | None => false
  end.

Definition count_counted (P : Platform) (since : Z) (l : list Message) : Z :=
  Z.of_nat (length (filter (fun m => is_counted P since m = true) l)).

(** A page of three messages, the second one older than the cutoff 100. *)
Definition pageFresh : list Message := [ mkMessage 30 7 "!giverep <@42>" "200" ].
Definition msgOld : Message := mkMessage 20 7 "thanks <@42>" "50".
Definition pageBehind : list Message := [ mkMessage 10 7 "thanks <@43>" "40" ].

(** The state that sendPeriodicUpdates is in after [k] ticks, the clock and
    (in the daily phase) the tick counter apart. *)
Definition reporter_phase (k : nat) (r : reporter) : Prop :=
  ticker r = schedule k /\
  if (k <? 5)%nat then
    currentIntervalIdx r = 0 /\ updatesAtCurrentInterval r = Z.of_nat k
  else if (k <? 10)%nat then
    currentIntervalIdx r = 1 /\ updatesAtCurrentInterval r = Z.of_nat k - 5
  else if (k <? 15)%nat then
    currentIntervalIdx r = 2 /\ updatesAtCurrentInterval r = Z.of_nat k - 10
  else currentIntervalIdx r = 3.

(** The deltas of the channels that a run of [scanChannels] scans without
    error, in the order of the run. *)
Fixpoint channelDeltas (P : Platform) (conf : ReputationConfig) (channelID : Z)
    (channels : list ChannelState) (script : list FetchResult) (w : World)
  : list (gmap Z Z) :=
  match channels with
  | [] => []
  | channel :: rest =>
      if negb (Channel_Type channel =? ChannelTypeGuildText)
      then channelDeltas P conf channelID rest script w
      else
        match processChannel P conf (Channel_ID channel) (fiveYearsAgo P) script w with
        | ((_, _, Some err), script1, w1) =>
            channelDeltas P conf channelID rest script1
              (sendErrorMessage channelID (NChannelError (Channel_ID channel) err) w1)
        | ((processed, changes, None), script1, w1) =>
            changes ::
            channelDeltas P conf channelID rest script1
              (emit (EvSleep 1000) (emit (EvStatsAdd processed (repCountOf P changes)) w1))
        end
  end.

(** The sum of one user's deltas over a list of channel deltas. *)
Definition sum_delta (u : Z) (deltas : list (gmap Z Z)) : Z :=
  foldr (fun d acc => lookup0 d u + acc) 0 deltas.

Definition merge_step (m : gmap Z Z) (kv : Z * Z) : gmap Z Z :=
  <[kv.1 := wrap64 (lookup0 m kv.1 + kv.2)]> m.

(** The run-wide delta in the result of [scanChannels] and [scanPhase]. *)
Definition scan_delta (r : (reprocessStats * gmap Z Z * Z) * list FetchResult * World)
  : gmap Z Z := r.1.1.1.2.

Definition scan_errors (r : (reprocessStats * gmap Z Z * Z) * list FetchResult * World)
  : Z := r.1.1.2.

Definition scan_stats (r : (reprocessStats * gmap Z Z * Z) * list FetchResult * World)
  : reprocessStats := r.1.1.1.1.

(** A community with two text channels and a voice channel between them, and
    the history of the text channels: the scenario of the spec in channel 1,
    one more grant in channel 3. *)
Definition sampleGuild : GuildSet :=
  {| Guild_ID := 900;
     Channels := [ {| Channel_ID := 1; Channel_Type := 0 |};
                   {| Channel_ID := 2; Channel_Type := 2 |};
                   {| Channel_ID := 3; Channel_Type := 0 |} ] |}.

Definition pageA : list Message :=
  [ mkMessage 13 7 "!giverep <@42>" "300";
    mkMessage 12 7 "thanks <@42>" "200";
    mkMessage 11 42 "thanks <@42>" "150" ].

Definition pageB : list Message := [ mkMessage 23 8 "Thanks  <@!42> a lot" "250" ].

Definition sampleScript : list FetchResult := [ inl pageA; inl []; inl pageB; inl [] ].

(** ** Reading a trace *)

(** The events that the scan loop can emit, and those of the persistence
    loop. *)
Definition scan_event (e : Event) : bool :=
  match e with
  | EvPoll | EvFetch _ _ _ | EvSleep _ | EvSend _ _ | EvStatsAdd _ _ => true
  | _ => false
  end.

Definition persist_event (e : Event) : bool :=
  match e with
  | EvStore _ _ _ _ | EvSend _ _ => true
  | _ => false
  end.

(** The calls of [insertUpdateUserRep] in a trace:
    guild, user, amount and answer. *)
Fixpoint store_calls (tr : list Event) : list (Z * Z * Z * option error) :=
  match tr with
  | [] => []
  | EvStore g u a r :: rest => (g, u, a, r) :: store_calls rest
  | _ :: rest => store_calls rest
  end.

Definition call_entry (c : Z * Z * Z * option error) : Z * Z := (c.1.1.2, c.1.2).

Definition call_failed (c : Z * Z * Z * option error) : bool :=
  match c.2 with Some _ => true | None => false end.

(** The users whose reputation a trace has really changed: the calls that
    the store answered without error. *)
Definition updated_users (tr : list Event) : list Z :=
  (fun c => c.1.1.2) <$> filter (fun c => call_failed c = false) (store_calls tr).

Definition failed_calls (tr : list Event) : list (Z * Z * Z * option error) :=
  filter (fun c => call_failed c = true) (store_calls tr).

(** The entries of a delta that the persistence loop does not skip. *)
Definition nonzero (l : list (Z * Z)) : list (Z * Z) :=
  filter (fun kv => kv.2 ≠ 0) l.

(** The persistence loop of a run, started where the scan left off. *)
Definition persistPhase (P : Platform) (gs : GuildSet) (conf : ReputationConfig)
    (channelID : Z) (script : list FetchResult) (w : World) : (Z * Z) * World :=
  let r := scanPhase P gs conf channelID script w in
  applyChanges (Guild_ID gs) channelID (map_range P (scan_delta r))
    (emit EvWait (emit EvClose r.2)) 0 0.

Definition run_stats (r : (reprocessStats * option error) * list FetchResult * World)
  : reprocessStats := r.1.1.1.

Definition run_error (r : (reprocessStats * option error) * list FetchResult * World)
  : option error := r.1.1.2.

(** The number of text channels in a list of channels. *)
Definition count_text (channels : list ChannelState) : Z :=
  Z.of_nat (length (filter (fun c => Channel_Type c = ChannelTypeGuildText) channels)).

(** ** Schedules

    One move of either goroutine as a function, and a run of the system
    under a given list of moves. *)

Inductive move : Type :=
  | MoveOrch     (* the orchestrator performs its next event *)
  | MoveTick     (* the ticker fires and the reporter posts *)
  | MoveStop.    (* the reporter sees the closed stop channel and returns *)

Definition do_move (mv : move) (s : system) : option system :=
  match mv with
  | MoveOrch =>
      match orch s with
      | [] => None
      | e :: rest => orch_step e rest s
      end
  | MoveTick =>
      match rep s with
      | Running r =>
          match tick (shared s) r with
          | Some (post, r') =>
              Some {| orch := orch s; rep := Running r'; shared := shared s;
                      stopChan := stopChan s; wg := wg s;
                      posted := posted s ++ [post] |}
          | None => None
          end
      | _ => None
      end
  | MoveStop =>
      match rep s with
      | Running r =>
          if stopChan s
          then Some {| orch := orch s; rep := Terminated; shared := shared s;
                       stopChan := stopChan s; wg := wg s - 1; posted := posted s |}
          else None
      | _ => None
      end
  end.

Fixpoint run_moves (mvs : list move) (s : system) : option system :=
  match mvs with
  | [] => Some s
  | mv :: rest =>
      match do_move mv s with
      | Some s' => run_moves rest s'
      | None => None
      end
  end.

(** The states that a run passes through, by what the orchestrator still
    has to do. *)
Definition not_go (e : Event) : bool :=
  match e with
  | EvGo => false
  | _ => true
  end.

Definition users_zero (s : system) : Prop :=
  UsersAffected (shared s) = 0 /\ Forall (fun p => su_users p = 0) (posted s).

Inductive reporter_unseen : system -> Prop :=
  | phase_init s evs tail :
      orch s = EvWgAdd :: EvGo :: (evs ++ EvClose :: EvWait :: tail)%list ->
      Forall (fun e => scan_event e = true) evs ->
      Forall (fun e => not_go e = true) tail ->
      rep s = NotStarted -> wg s = 0 -> stopChan s = false ->
      users_zero s ->
      reporter_unseen s
  | phase_added s evs tail :
      orch s = EvGo :: (evs ++ EvClose :: EvWait :: tail)%list ->
      Forall (fun e => scan_event e = true) evs ->
      Forall (fun e => not_go e = true) tail ->
      rep s = NotStarted -> wg s = 1 -> stopChan s = false ->
      users_zero s ->
      reporter_unseen s
  | phase_scanning s evs tail r :
      orch s = (evs ++ EvClose :: EvWait :: tail)%list ->
      Forall (fun e => scan_event e = true) evs ->
      Forall (fun e => not_go e = true) tail ->
      rep s = Running r -> wg s = 1 -> stopChan s = false ->
      users_zero s ->
      reporter_unseen s
  | phase_waiting s tail :
      orch s = EvWait :: tail ->
      Forall (fun e => not_go e = true) tail ->
      ((exists r, rep s = Running r) /\ wg s = 1 \/ rep s = Terminated /\ wg s = 0) ->
      stopChan s = true ->
      users_zero s ->
      reporter_unseen s
  | phase_persisting s :
      Forall (fun e => not_go e = true) (orch s) ->
      rep s = Terminated ->
      Forall (fun p => su_users p = 0) (posted s) ->
      reporter_unseen s.

(** A run of the sample community next to its reporter: the reporter ticks
    before the scan, after the first channel and once more after the stop
    channel is closed, then returns; the orchestrator goes on to the end. *)
Definition sampleEvents : list Event :=
  run_events samplePlatform sampleGuild confDefault 77 sampleScript None [].

Definition sampleMoves : list move :=
  [MoveOrch; MoveOrch; MoveTick]
  ++ replicate 6 MoveOrch ++ [MoveTick]
  ++ replicate 9 MoveOrch ++ [MoveTick; MoveStop]
  ++ replicate 3 MoveOrch.

Definition sampleFinal : system :=
  default (system0 []) (run_moves sampleMoves (system0 sampleEvents)).

(** What a piece of code adds to the trace: [w'] extends [w] by events that
    all satisfy [ok]. *)
Definition extends_by (ok : Event -> bool) (w w' : World) : Prop :=
  exists evs : list Event,
    trace w' = (trace w ++ evs)%list /\ Forall (fun e => ok e = true) evs.

(** ** Texts *)

Fixpoint all_digits (s : string) : bool :=
  match s with
  | EmptyString => true
  | String c s' => is_digit c && all_digits s'
  end.

Fixpoint lower_string (s : string) : string :=
  match s with
  | EmptyString => EmptyString
  | String c s' => String (to_lower c) (lower_string s')
  end.

(** [%d] of fmt.Sprintf for a 64-bit integer: at most 19 digits after the
    sign, so 20 rounds of the loop are enough. *)
Definition digit_char (d : Z) : ascii := ascii_of_N (Z.to_N (48 + d)).

Fixpoint digits_fuel (fuel : nat) (n : Z) (acc : string) : string :=
  match fuel with
  | O => acc
  | S fuel' =>
      let acc' := String (digit_char (n mod 10)) acc in
      if n <? 10 then acc' else digits_fuel fuel' (n / 10) acc'
  end.

Definition Sprintf_d (n : Z) : string :=
  if n <? 0 then String "-" (digits_fuel 20 (- n) EmptyString)
  else digits_fuel 20 n EmptyString.

(** The two halves of [mention] after ["<@"]: the optional ["!"], and the
    digits with the closing [">"]. *)
Definition strip_bang (s : string) : string :=
  match s with
  | String "!" r => r
  | _ => s
  end.

Definition digits_then_close (s : string) : option string :=
  match span_digits s with
  | (EmptyString, _) => None
  | (d, String ">" _) => Some d
  | _ => None
  end.

(** The user, if any, to whom a counted message gives one point: what the
    part of the loop body after [processed++] does to the delta. *)
Definition guard_user (userID author : Z) : option Z :=
  if negb (userID =? 0) && negb (userID =? author) then Some userID else None.

Definition recipient (conf : ReputationConfig) (msg : Message) : option Z :=
  if Bot (Author msg) then None
  else
    match giveRepPattern (Content msg) with
    | Some m1 => guard_user (MustParseInt m1) (User_ID (Author msg))
    | None =>
        if negb (DisableThanksDetection conf) then
          match thanksPattern (Content msg) with
          | Some m1 => guard_user (MustParseInt m1) (User_ID (Author msg))
          | None => None
          end
        else None
    end.

(** The messages of a list that are counted and give their point to [u]. *)
Definition grants_to (P : Platform) (conf : ReputationConfig) (since u : Z)
    (l : list Message) : list Message :=
  filter (fun m => is_counted P since m = true /\ recipient conf m = Some u) l.

Definition parses (P : Platform) (m : Message) : Prop :=
  is_Some (Timestamp_Parse P (Timestamp m)).

(** Every user with an entry in a delta has a positive identifier. *)
Definition keys_positive (rc : gmap Z Z) : Prop :=
  forall k, is_Some (rc !! k) -> 0 < k.

Definition call_user (c : Z * Z * Z * option error) : Z := c.1.1.2.
Definition call_amount (c : Z * Z * Z * option error) : Z := c.1.2.

Definition is_text (c : ChannelState) : Prop := Channel_Type c = ChannelTypeGuildText.

Definition sumZ (l : list Z) : Z := foldr Z.add 0 l.

(** The counts and deltas of the channels that a run of [scanChannels] scans
    without error, in the order of the run. *)
Fixpoint channelScans (P : Platform) (conf : ReputationConfig) (channelID : Z)
    (channels : list ChannelState) (script : list FetchResult) (w : World)
  : list (Z * gmap Z Z) :=
  match channels with
  | [] => []
  | channel :: rest =>
      if negb (Channel_Type channel =? ChannelTypeGuildText)
      then channelScans P conf channelID rest script w
      else
        match processChannel P conf (Channel_ID channel) (fiveYearsAgo P) script w with
        | ((_, _, Some err), script1, w1) =>
            channelScans P conf channelID rest script1
              (sendErrorMessage channelID (NChannelError (Channel_ID channel) err) w1)
        | ((processed, changes, None), script1, w1) =>
            (processed, changes) ::
            channelScans P conf channelID rest script1
              (emit (EvSleep 1000) (emit (EvStatsAdd processed (repCountOf P changes)) w1))
        end
  end.

(** The sum of the entries of a delta. *)
Definition delta_total (d : gmap Z Z) : Z := sumZ (map_to_list d).*2.

(** ** Shapes of traces *)

(** An answer of the history that is a page, not an error. *)
Definition is_page (f : FetchResult) : Prop :=
  match f with
  | inl _ => True
  | inr _ => False
  end.

Definition silent_event (e : Event) : bool :=
  match e with
  | EvSend _ _ => false
  | _ => true
  end.

(** The trace of the scan of one channel: rounds of check, fetch and a
    one-second sleep, ended by a check alone or by a check and a fetch. *)
Fixpoint well_paced (channelID : Z) (evs : list Event) : bool :=
  match evs with
  | EvPoll :: rest =>
      match rest with
      | [] => true
      | EvFetch c l _ :: rest1 =>
          (c =? channelID) && (l =? 100) &&
          match rest1 with
          | [] => true
          | EvSleep ms :: rest2 => (ms =? 1000) && well_paced channelID rest2
          | _ => false
          end
      | _ => false
      end
  | _ => false
  end.

(** The cursors of the fetches in a trace, in order. *)
Fixpoint cursors (evs : list Event) : list Z :=
  match evs with
  | [] => []
  | EvFetch _ _ before :: rest => before :: cursors rest
  | _ :: rest => cursors rest
  end.

(** The events of a run after [wg.Wait()]. *)
Definition late_event (e : Event) : bool :=
  match e with
  | EvStore _ _ _ _ | EvSend _ _ | EvSetUsers _ => true
  | _ => false
  end.

(** Where a run and its reporter stand, by what the orchestrator still has
    to do; [tail] is what the run does after [wg.Wait()]. *)
Inductive run_state (tail : list Event) : system -> Prop :=
  | rs_init s evs :
      orch s = EvWgAdd :: EvGo :: (evs ++ EvClose :: EvWait :: tail)%list ->
      Forall (fun e => scan_event e = true) evs ->
      rep s = NotStarted -> wg s = 0 -> stopChan s = false ->
      run_state tail s
  | rs_added s evs :
      orch s = EvGo :: (evs ++ EvClose :: EvWait :: tail)%list ->
      Forall (fun e => scan_event e = true) evs ->
      rep s = NotStarted -> wg s = 1 -> stopChan s = false ->
      run_state tail s
  | rs_scanning s evs r :
      orch s = (evs ++ EvClose :: EvWait :: tail)%list ->
      Forall (fun e => scan_event e = true) evs ->
      rep s = Running r -> wg s = 1 -> stopChan s = false ->
      run_state tail s
  | rs_waiting s :
      orch s = EvWait :: tail ->
      ((exists r, rep s = Running r) /\ wg s = 1 \/ rep s = Terminated /\ wg s = 0) ->
      stopChan s = true ->
      run_state tail s
  | rs_persisting s :
      (exists pre : list Event, tail = (pre ++ orch s)%list) ->
      rep s = Terminated -> wg s = 0 ->
      run_state tail s.

(** Two states on the way of the sample run: the reporter has ticked once
    and runs; the reporter has just returned. *)
Definition sampleMid : system :=
  default (system0 []) (run_moves [MoveOrch; MoveOrch; MoveTick] (system0 sampleEvents)).

Definition sampleMovesToStop : list move :=
  [MoveOrch; MoveOrch; MoveTick]
  ++ replicate 6 MoveOrch ++ [MoveTick]
  ++ replicate 9 MoveOrch ++ [MoveTick; MoveStop].

Definition sampleStopped : system :=
  default (system0 []) (run_moves sampleMovesToStop (system0 sampleEvents)).

(** ** formatDuration

    [Round] stands for [time.Duration.Round] of the standard library, which
    the function calls first; durations are 64-bit counts of nanoseconds and
    [/] on them truncates ([Z.quot]). *)

Definition durationParts (d : Z) : Z * Z * Z :=
  let h := Z.quot d Hour in
  let d := wrap64 (d - wrap64 (h * Hour)) in
  let m := Z.quot d Minute in
  let d := wrap64 (d - wrap64 (m * Minute)) in
  let s := Z.quot d Second in
  (h, m, s).

Definition formatDuration (Round : Z -> Z -> Z) (d : Z) : string :=
  let d := Round d Second in
  let '(h, m, s) := durationParts d in
  if h >? 0 then
    (Sprintf_d h ++ "h " ++ Sprintf_d m ++ "m " ++ Sprintf_d s ++ "s")%string
  else if m >? 0 then
    (Sprintf_d m ++ "m " ++ Sprintf_d s ++ "s")%string
  else (Sprintf_d s ++ "s")%string.

(** A rounding to whole seconds, half up, for non-negative durations. *)
Definition roundHalfUp (d m : Z) : Z := (d + m / 2) / m * m.

(** When the update number [k] of a run is posted, counted from 1, as time
    elapsed since the start; [timetable 0] is the start. *)
Definition timetable (k : nat) : Z :=
  let n := Z.of_nat k in
  if n <=? 5 then 10 * n * Second
  else if n <=? 10 then (50 + 60 * (n - 5)) * Second
  else if n <=? 15 then (350 + 3600 * (n - 10)) * Second
  else (18350 + 86400 * (n - 15)) * Second.

(** ** The sfstatus command: messages *)

(** [s[:n]] for [0 <= n <= len(s)]: the first [n] bytes. *)
Fixpoint take_bytes (n : nat) (s : string) : string :=
  match n, s with
  | S n', String c s' => String c (take_bytes n' s')
  | _, _ => EmptyString
  end.

(** [None] is the run-time panic of [s[:maxLen]] for a negative [maxLen]. *)
Definition truncateString (s : string) (maxLen : Z) : option string :=
  if Z.of_nat (String.length s) <=? maxLen then Some s
  else if maxLen <? 0 then None
  else Some (take_bytes (Z.to_nat maxLen) s ++ "...")%string.

Definition nl : string := String (ascii_of_nat 10) EmptyString.

(** The loop that renders [status.GeneralMessages]; [total] is the length of
    the whole list and [i] the index of the head of [msgs] in it. *)
Fixpoint messagesText_loop (total i : Z) (msgs : list GeneralMessage)
    (messagesText : string) : option string :=
  match msgs with
  | [] => Some messagesText
  | msg :: rest =>
      if i >=? 3 then
        Some (messagesText ++ nl ++ "...and " ++ Sprintf_d (total - 3)
              ++ " more messages")%string
      else
        match truncateString (Body msg) 200 with
        | None => None
        | Some body =>
            messagesText_loop total (i + 1) rest
              (messagesText ++ "**" ++ Subject msg ++ "**" ++ nl ++ body
               ++ nl ++ nl)%string
        end
  end.

(** The embed that RunFunc returns for a parsed status. *)
Definition statusEmbed (status : SalesforceStatus) : option MessageEmbed :=
  let embed := embed_source status in
  let total := Z.of_nat (length (GeneralMessages status)) in
  if total >? 0 then
    match messagesText_loop total 0 (GeneralMessages status) EmptyString with
    | None => None
    | Some messagesText =>
        Some {| Title := Title embed;
                Color := Color embed;
                Fields := (Fields embed
                           ++ [ {| Name := "Recent Messages";
                                   Value := messagesText;
                                   Inline := false |} ])%list;
                Footer := Footer embed |}
    end
  else Some embed.

(** One rendered message, and the notice that stands for the others. *)
Definition messageEntry (msg : GeneralMessage) : string :=
  ("**" ++ Subject msg ++ "**" ++ nl
   ++ default (Body msg) (truncateString (Body msg) 200) ++ nl ++ nl)%string.

Definition moreNotice (total : Z) : string :=
  (nl ++ "...and " ++ Sprintf_d (total - 3) ++ " more messages")%string.

Fixpoint concat_strings (l : list string) : string :=
  match l with
  | [] => EmptyString
  | s :: rest => (s ++ concat_strings rest)%string
  end.

(** A state of the sample run in which the stop channel is closed, the
    reporter still runs and the orchestrator is about to wait for it. *)
Definition sampleMovesToWait : list move :=
  [MoveOrch; MoveOrch; MoveTick]
  ++ replicate 6 MoveOrch ++ [MoveTick]
  ++ replicate 9 MoveOrch.

Definition sampleWaiting : system :=
  default (system0 []) (run_moves sampleMovesToWait (system0 sampleEvents)).

(** * Properties *)

Local Open Scope list_scope.

(** ** Machine integers *)

Lemma wrap64_id (z : Z) : in_int64 z -> wrap64 z = z.
Proof.
  unfold in_int64, wrap64. intros H.
  rewrite Z.mod_small; lia.
Qed.

Lemma wrap64_range (z : Z) : in_int64 (wrap64 z).
Proof.
  unfold in_int64, wrap64.
  pose proof (Z.mod_pos_bound (z + 2 ^ 63) (2 ^ 64)). lia.
Qed.

Lemma wrap64_add_l (a b : Z) : wrap64 (wrap64 a + b) = wrap64 (a + b).
Proof.
  unfold wrap64. f_equal.
  replace ((a + 2 ^ 63) mod 2 ^ 64 - 2 ^ 63 + b + 2 ^ 63)
    with ((a + 2 ^ 63) mod 2 ^ 64 + b) by lia.
  rewrite Z.add_mod_idemp_l by lia. f_equal. lia.
Qed.

Lemma wrap64_add_r (a b : Z) : wrap64 (a + wrap64 b) = wrap64 (a + b).
Proof. rewrite (Z.add_comm a), wrap64_add_l. f_equal. lia. Qed.

(** ** Channel Scanner: one message *)

Lemma lookup0_incr_eq (m : gmap Z Z) (k : Z) :
  lookup0 (incr m k) k = wrap64 (lookup0 m k + 1).
Proof. unfold incr, lookup0. by rewrite lookup_insert_eq. Qed.

Lemma lookup0_incr_ne (m : gmap Z Z) (k j : Z) :
  k ≠ j -> lookup0 (incr m k) j = lookup0 m j.
Proof. intros H. unfold incr, lookup0. by rewrite lookup_insert_ne. Qed.

(** A message with an explicit grant is handled without a look at the
    thanks pattern or at the configuration. *)
Lemma scanMessage_giveRep P conf since msg processed rc t m1 :
  Timestamp_Parse P (Timestamp msg) = Some t ->
  since <= t ->
  Bot (Author msg) = false ->
  giveRepPattern (Content msg) = Some m1 ->
  scanMessage P conf since msg processed rc =
    Next (wrap64 (processed + 1),
          if negb (MustParseInt m1 =? 0)
             && negb (MustParseInt m1 =? User_ID (Author msg))
          then incr rc (MustParseInt m1) else rc).
Proof.
  intros Ht Hs Hb Hg. unfold scanMessage. rewrite Ht, Hb, Hg.
  destruct (Z.ltb_spec t since) as [Hlt | _]; [lia |].
  by destruct (negb _ && negb _).
Qed.

Lemma scanMessage_thanks P conf since msg processed rc t m1 :
  Timestamp_Parse P (Timestamp msg) = Some t ->
  since <= t ->
  Bot (Author msg) = false ->
  giveRepPattern (Content msg) = None ->
  DisableThanksDetection conf = false ->
  thanksPattern (Content msg) = Some m1 ->
  scanMessage P conf since msg processed rc =
    Next (wrap64 (processed + 1),
          if negb (MustParseInt m1 =? 0)
             && negb (MustParseInt m1 =? User_ID (Author msg))
          then incr rc (MustParseInt m1) else rc).
Proof.
  intros Ht Hs Hb Hg Hd Hth. unfold scanMessage. rewrite Ht, Hb, Hg, Hd, Hth.
  destruct (Z.ltb_spec t since) as [Hlt | _]; [lia |].
  by destruct (negb _ && negb _).
Qed.

(** Whatever the message, a grant that the guard refuses leaves the delta
    as it was. *)
Lemma scanMessage_refused_giveRep P conf since msg processed rc m1 :
  giveRepPattern (Content msg) = Some m1 ->
  negb (MustParseInt m1 =? 0) && negb (MustParseInt m1 =? User_ID (Author msg)) = false ->
  (flow_val (scanMessage P conf since msg processed rc)).2 = rc.
Proof.
  intros Hg Hr. unfold scanMessage. rewrite Hg, Hr.
  destruct (Timestamp_Parse P (Timestamp msg)) as [t |]; [| done].
  destruct (t <? since); [done |].
  by destruct (Bot (Author msg)).
Qed.

Lemma scanMessage_refused_thanks P conf since msg processed rc m1 :
  giveRepPattern (Content msg) = None ->
  thanksPattern (Content msg) = Some m1 ->
  negb (MustParseInt m1 =? 0) && negb (MustParseInt m1 =? User_ID (Author msg)) = false ->
  (flow_val (scanMessage P conf since msg processed rc)).2 = rc.
Proof.
  intros Hg Hth Hr. unfold scanMessage. rewrite Hg, Hth, Hr.
  destruct (Timestamp_Parse P (Timestamp msg)) as [t |]; [| done].
  destruct (t <? since); [done |].
  destruct (Bot (Author msg)); [done |].
  by destruct (negb (DisableThanksDetection conf)).
Qed.

Lemma MustParseInt_unparseable (s : string) :
  ParseInt s = None \/ ParseInt s = Some 0 -> MustParseInt s = 0.
Proof. unfold MustParseInt. by intros [-> | ->]. Qed.

(** The guard of both branches, as a proposition. *)
Lemma guard_false (u a : Z) :
  u = 0 \/ u = a -> negb (u =? 0) && negb (u =? a) = false.
Proof.
  intros [-> | ->].
  - reflexivity.
  - rewrite Z.eqb_refl. apply andb_false_r.
Qed.

Lemma guard_true (u a : Z) :
  u ≠ 0 -> u ≠ a -> negb (u =? 0) && negb (u =? a) = true.
Proof.
  intros H0 Ha.
  destruct (Z.eqb_spec u 0); [done |]. by destruct (Z.eqb_spec u a).
Qed.

(** C5.  A message matches a pattern that the scanner applies to it (the
    explicit grant, or else the thanks phrase when thanks detection is on), and
    the captured mention is 0 or not parseable as an integer.  Then the delta is
    left exactly as it was, no entry created or changed, and when the message is
    one that is counted (timestamp parsed, not before the cutoff) the scan goes
    on to the next message with the count raised by one. *)
Theorem C5_zero_or_unparseable_mention_ignored
    P conf since msg processed (rc : gmap Z Z) m1 :
  (giveRepPattern (Content msg) = Some m1 \/
   (giveRepPattern (Content msg) = None /\
    DisableThanksDetection conf = false /\
    thanksPattern (Content msg) = Some m1)) ->
  (ParseInt m1 = None \/ ParseInt m1 = Some 0) ->
  (flow_val (scanMessage P conf since msg processed rc)).2 = rc /\
  (forall t, Timestamp_Parse P (Timestamp msg) = Some t -> since <= t ->
     scanMessage P conf since msg processed rc = Next (wrap64 (processed + 1), rc)).
Proof.
  intros Hm Hbad.
  assert (Hg : negb (MustParseInt m1 =? 0)
               && negb (MustParseInt m1 =? User_ID (Author msg)) = false).
  { apply guard_false. left. by apply MustParseInt_unparseable. }
  split.
  - destruct Hm as [Hm | (Hn & _ & Hm)].
    + by eapply scanMessage_refused_giveRep.
    + by eapply scanMessage_refused_thanks.
  - intros t Ht Hs.
    destruct (Bot (Author msg)) eqn:Hb.
    + unfold scanMessage. rewrite Ht, Hb.
      destruct (Z.ltb_spec t since); [lia | done].
    + destruct Hm as [Hm | (Hn & Hd & Hm)].
      * rewrite (scanMessage_giveRep P conf since msg processed rc t m1) by done.
        by rewrite Hg.
      * rewrite (scanMessage_thanks P conf since msg processed rc t m1) by done.
        by rewrite Hg.
Qed.

Lemma C5_witness :
  let msg := mkMessage 1 7 "thanks <@99999999999999999999>" "200" in
  (giveRepPattern (Content msg) = Some "99999999999999999999" \/
   (giveRepPattern (Content msg) = None /\
    DisableThanksDetection confDefault = false /\
    thanksPattern (Content msg) = Some "99999999999999999999")) /\
  (ParseInt "99999999999999999999" = None \/
   ParseInt "99999999999999999999" = Some 0) /\
  (flow_val (scanMessage samplePlatform confDefault 100 msg 3 ∅)).2 = ∅.
Proof.
  intros msg.
  assert (H1 : giveRepPattern (Content msg) = Some "99999999999999999999" \/
     (giveRepPattern (Content msg) = None /\
      DisableThanksDetection confDefault = false /\
      thanksPattern (Content msg) = Some "99999999999999999999")).
  { right. repeat split; reflexivity. }
  assert (H2 : ParseInt "99999999999999999999" = None \/
               ParseInt "99999999999999999999" = Some 0).
  { left. reflexivity. }
  split; [exact H1 |]. split; [exact H2 |].
  exact (proj1 (C5_zero_or_unparseable_mention_ignored
                  samplePlatform confDefault 100 msg 3 ∅ _ H1 H2)).
Defined.

(** C6.  The author of a message mentions themselves: the mention captured by
    the pattern that the scanner applies equals the author's identifier.  Then
    no delta changes, for the explicit grant pattern and for the thanks pattern
    alike. *)
Theorem C6_self_grant_changes_no_delta
    P conf since msg processed (rc : gmap Z Z) m1 :
  MustParseInt m1 = User_ID (Author msg) ->
  (giveRepPattern (Content msg) = Some m1 ->
   (flow_val (scanMessage P conf since msg processed rc)).2 = rc) /\
  (giveRepPattern (Content msg) = None ->
   thanksPattern (Content msg) = Some m1 ->
   (flow_val (scanMessage P conf since msg processed rc)).2 = rc).
Proof.
  intros Hself.
  assert (Hg : negb (MustParseInt m1 =? 0)
               && negb (MustParseInt m1 =? User_ID (Author msg)) = false).
  { apply guard_false. by right. }
  split.
  - intros Hm. by eapply scanMessage_refused_giveRep.
  - intros Hn Hm. by eapply scanMessage_refused_thanks.
Qed.

Lemma C6_witness :
  let msg := mkMessage 1 42 "Thanks <@!42> for nothing" "200" in
  MustParseInt "42" = User_ID (Author msg) /\
  giveRepPattern (Content msg) = None /\
  thanksPattern (Content msg) = Some "42" /\
  (flow_val (scanMessage samplePlatform confDefault 100 msg 0 {[ 42 := 5 ]})).2
    = {[ 42 := 5 ]}.
Proof.
  intros msg.
  assert (H0 : MustParseInt "42" = User_ID (Author msg)) by reflexivity.
  assert (H1 : giveRepPattern (Content msg) = None) by reflexivity.
  assert (H2 : thanksPattern (Content msg) = Some "42") by reflexivity.
  repeat (split; [assumption |]).
  exact (proj2 (C6_self_grant_changes_no_delta
                  samplePlatform confDefault 100 msg 0 {[ 42 := 5 ]} "42" H0) H1 H2).
Defined.

(** C9 (as amended).  A message matches both patterns.  Then the thanks
    pattern is not looked at: the scan does with the message exactly what it
    does with thanks detection off, whatever the configuration.  Only the user
    named by the explicit grant can gain.  That user's delta goes up by one
    step, not two (by exactly 1 unless the 64-bit counter is at its top), when
    the message is counted, its author is not a bot and the user is neither 0
    nor the author; in every other case no delta changes.  No other user's delta
    changes in any case, whoever the thanks phrase names. *)
Theorem C9_explicit_grant_skips_thanks
    P conf since msg processed (rc : gmap Z Z) g th :
  giveRepPattern (Content msg) = Some g ->
  thanksPattern (Content msg) = Some th ->
  let u := MustParseInt g in
  let eligible :=
    is_counted P since msg && negb (Bot (Author msg))
    && negb (u =? 0) && negb (u =? User_ID (Author msg)) in
  let rc' := (flow_val (scanMessage P conf since msg processed rc)).2 in
  scanMessage P conf since msg processed rc
    = scanMessage P {| DisableThanksDetection := true |} since msg processed rc /\
  rc' = (if eligible then incr rc u else rc) /\
  lookup0 rc' u = (if eligible then wrap64 (lookup0 rc u + 1) else lookup0 rc u) /\
  (eligible = true -> in_int64 (lookup0 rc u + 1) -> lookup0 rc' u = lookup0 rc u + 1) /\
  (forall v, v ≠ u -> rc' !! v = rc !! v).
Proof.
  intros Hg Hth u eligible rc'.
  assert (Hskip : forall c,
            scanMessage P c since msg processed rc
            = scanMessage P {| DisableThanksDetection := true |} since msg processed rc).
  { intros c. unfold scanMessage. by rewrite Hg. }
  assert (Hrc : rc' = if eligible then incr rc u else rc).
  { subst rc' eligible u. unfold scanMessage, is_counted. rewrite Hg.
    destruct (Timestamp_Parse P (Timestamp msg)) as [t |]; [| done].
    destruct (t <? since); [done |].
    destruct (Bot (Author msg)); [done |]. simpl.
    by destruct (negb (MustParseInt g =? 0)
                 && negb (MustParseInt g =? User_ID (Author msg))). }
  split; [apply Hskip |]. split; [exact Hrc |].
  rewrite Hrc. destruct eligible.
  - split; [apply lookup0_incr_eq |]. split.
    + intros _ Hr. rewrite lookup0_incr_eq. by apply wrap64_id.
    + intros v Hv. unfold incr. by rewrite lookup_insert_ne.
  - by repeat split.
Qed.

Lemma C9_witness :
  let msg := mkMessage 1 7 "!giverep <@42> thanks <@42>" "200" in
  giveRepPattern (Content msg) = Some "42" /\
  thanksPattern (Content msg) = Some "42" /\
  (flow_val (scanMessage samplePlatform confDefault 100 msg 0 {[ 42 := 5 ]})).2
    = incr {[ 42 := 5 ]} 42 /\
  lookup0 (incr {[ 42 := 5 ]} 42) 42 = 6.
Proof.
  intros msg.
  assert (H1 : giveRepPattern (Content msg) = Some "42") by reflexivity.
  assert (H2 : thanksPattern (Content msg) = Some "42") by reflexivity.
  split; [exact H1 |]. split; [exact H2 |].
  split; [| reflexivity].
  exact (proj1 (proj2 (C9_explicit_grant_skips_thanks
                         samplePlatform confDefault 100 msg 0 {[ 42 := 5 ]} "42" "42"
                         H1 H2))).
Defined.

(** The claim C9 as it was stated fails.  User 7 writes an explicit grant to
    themselves and thanks user 42 in the same message, thanks detection being
    on.  The message matches both patterns and is counted, and nobody's delta
    goes up: the grant is refused as a self-grant and the thanks is not looked
    at. *)
Lemma C9_counterexample :
  let msg := mkMessage 1 7 "!giverep <@7> thanks <@42>" "200" in
  giveRepPattern (Content msg) = Some "7" /\
  thanksPattern (Content msg) = Some "42" /\
  DisableThanksDetection confDefault = false /\
  scanMessage samplePlatform confDefault 100 msg 0 ∅ = Next (1, ∅) /\
  lookup0 (flow_val (scanMessage samplePlatform confDefault 100 msg 0 ∅)).2 7 ≠ 1 /\
  lookup0 (flow_val (scanMessage samplePlatform confDefault 100 msg 0 ∅)).2 42 ≠ 1.
Proof. vm_compute. repeat split; congruence. Qed.

(** ** Channel Scanner: pages *)

Lemma scanMessage_old P conf since msg processed rc :
  is_old P since msg = true ->
  scanMessage P conf since msg processed rc = Return (processed, rc).
Proof.
  unfold is_old, scanMessage.
  destruct (Timestamp_Parse P (Timestamp msg)) as [t |]; [| done].
  by intros ->.
Qed.

Lemma scanMessage_not_old P conf since msg processed rc :
  is_old P since msg = false ->
  exists rc',
    scanMessage P conf since msg processed rc
    = Next (if is_counted P since msg then wrap64 (processed + 1) else processed, rc').
Proof.
  unfold is_old, is_counted, scanMessage.
  destruct (Timestamp_Parse P (Timestamp msg)) as [t |]; [| by eexists].
  intros ->. simpl.
  destruct (Bot (Author msg)); [by eexists |].
  destruct (giveRepPattern (Content msg)).
  { destruct (negb _ && negb _); by eexists. }
  destruct (negb (DisableThanksDetection conf)); [| by eexists].
  destruct (thanksPattern (Content msg)); [| by eexists].
  destruct (negb _ && negb _); by eexists.
Qed.

Lemma scanPage_app P conf since pre rest processed rc :
  scanPage P conf since (pre ++ rest)%list processed rc =
  match scanPage P conf since pre processed rc with
  | Return r => Return r
  | Next (processed', rc') => scanPage P conf since rest processed' rc'
  end.
Proof.
  revert processed rc. induction pre as [| m pre IH]; intros processed rc; simpl.
  - done.
  - destruct (scanMessage P conf since m processed rc) as [r | [p' rc']]; [done |].
    apply IH.
Qed.

Lemma count_counted_cons P since m l :
  count_counted P since (m :: l)
  = (if is_counted P since m then 1 else 0) + count_counted P since l.
Proof.
  unfold count_counted. rewrite filter_cons.
  destruct (is_counted P since m) eqn:E.
  - rewrite decide_True by done. simpl length. lia.
  - rewrite decide_False by congruence. lia.
Qed.

(** A page without old messages is scanned to its end, and the count grows
    by the number of its messages whose timestamp parses. *)
Lemma scanPage_no_old P conf since pre processed rc :
  in_int64 processed ->
  Forall (fun m => is_old P since m = false) pre ->
  exists rc',
    scanPage P conf since pre processed rc
    = Next (wrap64 (processed + count_counted P since pre), rc').
Proof.
  intros Hp Hpre. revert processed rc Hp.
  induction Hpre as [| m pre Hm _ IH]; intros processed rc Hp.
  - exists rc. simpl. unfold count_counted. simpl.
    rewrite Z.add_0_r, wrap64_id; done.
  - simpl. destruct (scanMessage_not_old P conf since m processed rc Hm) as [rc1 ->].
    rewrite count_counted_cons.
    destruct (is_counted P since m).
    + destruct (IH (wrap64 (processed + 1)) rc1 (wrap64_range _)) as [rc' ->].
      exists rc'. by rewrite wrap64_add_l, Z.add_assoc.
    + destruct (IH processed rc1 Hp) as [rc' ->]. by exists rc'.
Qed.

(** C3.  A page holds a message whose parsed timestamp is strictly before the
    cutoff, and no message ahead of it in the page is such a message.  Then the
    scan of the channel ends at that message: the result is the count and the
    delta accumulated over the messages ahead of it, with no error; the old
    message is not counted (the count has grown only by the messages ahead of it
    whose timestamp parses); the messages behind it and the rest of the history
    play no part, and no further page is fetched.  On the old message itself the
    loop body returns at once with count and delta untouched. *)
Theorem C3_scan_stops_at_first_old_message
    P conf channelID since script' w w1 processed (rc : gmap Z Z) beforeID
    pre m post :
  in_int64 processed ->
  ctx_poll w = (None, w1) ->
  Forall (fun x => is_old P since x = false) pre ->
  is_old P since m = true ->
  exists rc',
    scanPage P conf since pre processed rc
      = Next (wrap64 (processed + count_counted P since pre), rc') /\
    processChannel_loop P conf channelID since
      (inl (pre ++ m :: post)%list :: script') w processed rc beforeID
    = ((wrap64 (processed + count_counted P since pre), rc', None),
       script', emit (EvFetch channelID 100 beforeID) w1) /\
    (forall p (d : gmap Z Z), scanMessage P conf since m p d = Return (p, d)).
Proof.
  intros Hp Hpoll Hpre Hold.
  destruct (scanPage_no_old P conf since pre processed rc Hp Hpre) as [rc' Hscan].
  exists rc'. split; [exact Hscan |].
  split; [| intros p d; by apply scanMessage_old].
  cbn [processChannel_loop]. rewrite Hpoll.
  assert (Hlen : (Z.of_nat (length (pre ++ m :: post)%list) =? 0) = false).
  { apply Z.eqb_neq. rewrite length_app. simpl length. lia. }
  rewrite Hlen.
  rewrite scanPage_app, Hscan. simpl.
  by rewrite (scanMessage_old P conf since m _ rc' Hold).
Qed.

Lemma C3_witness :
  in_int64 0 /\
  ctx_poll (world0 None []) = (None, emit EvPoll (world0 None [])) /\
  Forall (fun x => is_old samplePlatform 100 x = false) pageFresh /\
  is_old samplePlatform 100 msgOld = true /\
  exists rc',
    scanPage samplePlatform confDefault 100 pageFresh 0 ∅
      = Next (wrap64 (0 + count_counted samplePlatform 100 pageFresh), rc') /\
    processChannel_loop samplePlatform confDefault 5 100
      (inl (pageFresh ++ msgOld :: pageBehind)%list :: [inl pageBehind])
      (world0 None []) 0 ∅ 0
    = ((wrap64 (0 + count_counted samplePlatform 100 pageFresh), rc', None),
       [inl pageBehind], emit (EvFetch 5 100 0) (emit EvPoll (world0 None []))) /\
    (forall p (d : gmap Z Z),
       scanMessage samplePlatform confDefault 100 msgOld p d = Return (p, d)).
Proof.
  assert (H1 : in_int64 0) by (unfold in_int64; lia).
  assert (H2 : ctx_poll (world0 None []) = (None, emit EvPoll (world0 None [])))
    by reflexivity.
  assert (H3 : Forall (fun x => is_old samplePlatform 100 x = false) pageFresh)
    by (repeat constructor).
  assert (H4 : is_old samplePlatform 100 msgOld = true) by reflexivity.
  repeat (split; [assumption |]).
  exact (C3_scan_stops_at_first_old_message samplePlatform confDefault 5 100
           [inl pageBehind] _ _ 0 ∅ 0 pageFresh msgOld pageBehind H1 H2 H3 H4).
Defined.

(** ** Progress Reporter *)

Lemma schedule_daily (k : nat) : (15 <= k)%nat -> schedule k = 24 * Hour.
Proof.
  intros H. unfold schedule.
  destruct (Nat.ltb_spec k 5); [lia |].
  destruct (Nat.ltb_spec k 10); [lia |].
  destruct (Nat.ltb_spec k 15); [lia | done].
Qed.

Lemma schedule_monotone (j k : nat) : (j <= k)%nat -> schedule j <= schedule k.
Proof.
  intros H. unfold schedule.
  repeat match goal with
         | |- context [(?a <? ?b)%nat] => destruct (Nat.ltb_spec a b)
         end; try lia; vm_compute; congruence.
Qed.

(** One tick taken in the state of the [k]-th tick posts an update one
    scheduled spacing after the previous one and leaves the state of the
    next tick. *)
Lemma tick_phase stats k r :
  reporter_phase k r ->
  exists post r',
    tick stats r = Some (post, r') /\
    elapsed post = clock r + schedule k /\
    su_users post = UsersAffected stats /\
    clock r' = elapsed post /\
    reporter_phase (S k) r'.
Proof.
  destruct r as [idx upd tk clk]. unfold reporter_phase.
  cbn [ticker currentIntervalIdx updatesAtCurrentInterval clock].
  intros [-> Hk].
  destruct (Nat.ltb_spec k 15) as [Hlt | Hge].
  - do 15 (destruct k as [| k];
      [ simpl in Hk; destruct Hk as [-> ->];
        eexists _, _; repeat split; reflexivity |]).
    lia.
  - assert (H5 : (k <? 5)%nat = false) by (apply Nat.ltb_ge; lia).
    assert (H10 : (k <? 10)%nat = false) by (apply Nat.ltb_ge; lia).
    assert (H15 : (k <? 15)%nat = false) by (apply Nat.ltb_ge; lia).
    rewrite H5, H10 in Hk. try rewrite H15 in Hk. subst idx.
    eexists _, _. split; [reflexivity |]. simpl.
    split; [reflexivity |]. split; [reflexivity |]. split; [reflexivity |].
    assert (H5' : (S k <? 5)%nat = false) by (apply Nat.ltb_ge; lia).
    assert (H10' : (S k <? 10)%nat = false) by (apply Nat.ltb_ge; lia).
    assert (H15' : (S k <? 15)%nat = false) by (apply Nat.ltb_ge; lia).
    split; [by rewrite !schedule_daily by lia |].
    by rewrite H5', H10', H15'.
Qed.

Lemma run_ticks_phase stats n :
  forall k r,
    reporter_phase k r ->
    exists posts r',
      run_ticks stats k n r = Some (posts, r') /\
      length posts = n /\
      spacings (clock r) posts = map schedule (seq k n) /\
      reporter_phase (k + n) r'.
Proof.
  induction n as [| n IH]; intros k r Hph.
  - exists [], r. rewrite Nat.add_0_r. by split; [| split; [| split]].
  - destruct (tick_phase (stats k) k r Hph) as (post & r1 & Ht & He & _ & Hc & Hph1).
    destruct (IH (S k) r1 Hph1) as (posts & r2 & Hr & Hl & Hs & Hph2).
    exists (post :: posts), r2. simpl. rewrite Ht, Hr.
    split; [done |]. split; [by rewrite Hl |]. split.
    + rewrite He. f_equal; [lia |]. by rewrite <- He, <- Hc.
    + by replace (k + S n)%nat with (S k + n)%nat by lia.
Qed.

Lemma reporter0_phase : reporter_phase 0 reporter0.
Proof. by repeat split. Qed.

(** C7.  A reporter that is not stopped ticks for ever ([n] ticks are taken
    for every [n], whatever the statistics hold), and the spacings of its
    updates are exactly the schedule: 10 seconds before each of the first 5
    ticks, 1 minute before each of the next 5, 1 hour before each of the next
    5, and 24 hours before every later one; the ticker then runs at the period
    of the next tick; and the spacing never becomes shorter. *)
Theorem C7_reporter_follows_schedule (stats : nat -> reprocessStats) (n : nat) :
  (exists posts r,
     run_ticks stats 0 n reporter0 = Some (posts, r) /\
     length posts = n /\
     spacings 0 posts = map schedule (seq 0 n) /\
     ticker r = schedule n) /\
  (forall k, schedule k =
     if (k <? 5)%nat then 10 * Second
     else if (k <? 10)%nat then 1 * Minute
     else if (k <? 15)%nat then 1 * Hour
     else 24 * Hour) /\
  (forall j k, (j <= k)%nat -> schedule j <= schedule k).
Proof.
  split; [| split; [done | apply schedule_monotone]].
  destruct (run_ticks_phase stats n 0%nat reporter0 reporter0_phase)
    as (posts & r & Hr & Hl & Hs & Hph).
  exists posts, r. split; [done |]. split; [done |]. split; [done |].
  by destruct Hph as [-> _].
Qed.

Example reporter_first_17_spacings :
  match run_ticks (fun _ => stats0) 0 17 reporter0 with
  | Some (posts, _) => spacings 0 posts
  | None => []
  end
  = [10 * Second; 10 * Second; 10 * Second; 10 * Second; 10 * Second;
     Minute; Minute; Minute; Minute; Minute;
     Hour; Hour; Hour; Hour; Hour; 24 * Hour; 24 * Hour].
Proof. vm_compute. reflexivity. Qed.

(** ** The sfstatus command *)

(** C8.  The green colour and the check mark that the variables hold before
    the switch never reach the embed: for every status string the switch
    assigns both variables, so its result does not depend on what they held,
    and the colour, the emoji and the embed are those computed from the status
    value alone. *)
Theorem C8_initial_green_is_dead (status : SalesforceStatus) :
  (forall v, statusSwitch (Status status) v = statusVars_direct (Status status)) /\
  statusVars_source (Status status) = statusVars_direct (Status status) /\
  embed_source status = embed_direct status.
Proof.
  assert (H : forall v, statusSwitch (Status status) v = statusVars_direct (Status status)).
  { intros v. unfold statusSwitch, statusVars_direct, colorOf, emojiOf.
    destruct (String.eqb (Status status) "OK"); [done |].
    destruct (String.eqb (Status status) "MAJOR_INCIDENT_CORE"); [done |].
    destruct (String.eqb (Status status) "MAINTENANCE"); [done |].
    destruct (String.eqb (Status status) "MINOR_INCIDENT_CORE"); [done |].
    by destruct (String.eqb (Status status) "PERFORMANCE_DEGRADATION"). }
  split; [exact H |]. split; [apply H |].
  unfold embed_source, embed_direct, statusVars_source. by rewrite H.
Qed.

Example sfstatus_unknown_is_gray :
  statusVars_source "SOMETHING_ELSE" = {| statusColor := 0x95A5A6; statusEmoji := "❓" |}.
Proof. reflexivity. Qed.

Lemma C7_witness :
  (3 <= 12)%nat /\ schedule 3 <= schedule 12.
Proof.
  assert (H : (3 <= 12)%nat) by lia.
  split; [exact H |].
  exact (proj2 (proj2 (C7_reporter_follows_schedule (fun _ => stats0) 0)) 3%nat 12%nat H).
Defined.

(** ** Merging channel deltas *)

Lemma aggregate_fold P rc changes :
  aggregate P rc changes = fold_left merge_step (map_range P changes) rc.
Proof. reflexivity. Qed.

Lemma merge_fold_notin (u : Z) (l : list (Z * Z)) :
  forall m, u ∉ l.*1 -> lookup0 (fold_left merge_step l m) u = lookup0 m u.
Proof.
  induction l as [| [k v] l IH]; intros m Hu; simpl; [done |].
  rewrite fmap_cons, not_elem_of_cons in Hu. destruct Hu as [Hne Hu].
  rewrite IH by done. unfold merge_step, lookup0; simpl.
  by rewrite lookup_insert_ne.
Qed.

Lemma merge_fold_in (u v : Z) (l : list (Z * Z)) :
  forall m, NoDup l.*1 -> (u, v) ∈ l ->
    lookup0 (fold_left merge_step l m) u = wrap64 (lookup0 m u + v).
Proof.
  induction l as [| [k x] l IH]; intros m Hnd Hin; simpl.
  - by apply elem_of_nil in Hin.
  - rewrite fmap_cons in Hnd. apply NoDup_cons in Hnd as [Hk Hnd].
    apply elem_of_cons in Hin as [Heq | Hin].
    + injection Heq as <- <-.
      rewrite merge_fold_notin by done.
      unfold merge_step, lookup0; simpl. by rewrite lookup_insert_eq.
    + rewrite IH by done.
      assert (k ≠ u).
      { intros ->. apply Hk. apply list_elem_of_fmap. by exists (u, v). }
      unfold merge_step at 1. unfold lookup0 at 1. simpl.
      by rewrite lookup_insert_ne.
Qed.

Lemma merge_fold_range (l : list (Z * Z)) :
  forall m, (forall u, in_int64 (lookup0 m u)) ->
    forall u, in_int64 (lookup0 (fold_left merge_step l m) u).
Proof.
  induction l as [| [k x] l IH]; intros m Hm u; simpl; [apply Hm |].
  apply IH. intros j. unfold merge_step, lookup0; simpl.
  destruct (decide (k = j)) as [-> | Hne].
  - rewrite lookup_insert_eq. apply wrap64_range.
  - rewrite lookup_insert_ne by done. apply Hm.
Qed.

(** Merging one channel's delta into the run-wide delta adds pointwise. *)
Lemma aggregate_lookup P (rc changes : gmap Z Z) (u : Z) :
  map_range_ok P ->
  in_int64 (lookup0 rc u) ->
  lookup0 (aggregate P rc changes) u = wrap64 (lookup0 rc u + lookup0 changes u).
Proof.
  intros Hok Hr. rewrite aggregate_fold.
  assert (Hnd : NoDup (map_range P changes).*1).
  { rewrite (Hok changes). apply NoDup_fst_map_to_list. }
  destruct (changes !! u) as [v |] eqn:E.
  - rewrite (merge_fold_in u v) by
      (try done; rewrite (Hok changes); by apply elem_of_map_to_list).
    unfold lookup0 at 3. by rewrite E.
  - rewrite merge_fold_notin.
    + unfold lookup0 at 3. rewrite E. simpl. by rewrite Z.add_0_r, wrap64_id.
    + rewrite (Hok changes). intros Hin.
      apply list_elem_of_fmap in Hin as ([k v] & -> & Hin).
      apply elem_of_map_to_list in Hin. simpl in E. congruence.
Qed.

Lemma aggregate_range P (rc changes : gmap Z Z) :
  (forall u, in_int64 (lookup0 rc u)) ->
  forall u, in_int64 (lookup0 (aggregate P rc changes) u).
Proof. intros H. rewrite aggregate_fold. by apply merge_fold_range. Qed.

Lemma sum_delta_cons (u : Z) (d : gmap Z Z) (ds : list (gmap Z Z)) :
  sum_delta u (d :: ds) = lookup0 d u + sum_delta u ds.
Proof. reflexivity. Qed.

Lemma scanChannels_delta P conf channelID channels (u : Z) :
  map_range_ok P ->
  forall script w stats (rc : gmap Z Z) ce,
    (forall v, in_int64 (lookup0 rc v)) ->
    lookup0 (scan_delta (scanChannels P conf channelID channels script w stats rc ce)) u
    = wrap64 (lookup0 rc u
              + sum_delta u (channelDeltas P conf channelID channels script w)).
Proof.
  intros Hok. induction channels as [| c rest IH]; intros script w stats rc ce Hrc.
  - simpl. unfold scan_delta, sum_delta. simpl. by rewrite Z.add_0_r, wrap64_id.
  - simpl. destruct (negb (Channel_Type c =? ChannelTypeGuildText)); [by apply IH |].
    destruct (processChannel P conf (Channel_ID c) (fiveYearsAgo P) script w)
      as [[[[processed changes] [err |]] script1] w1].
    + by apply IH.
    + rewrite IH by (by apply aggregate_range).
      rewrite aggregate_lookup by done.
      rewrite sum_delta_cons, wrap64_add_l. f_equal. lia.
Qed.

Lemma lookup0_empty (u : Z) : lookup0 ∅ u = 0.
Proof. unfold lookup0. by rewrite lookup_empty. Qed.

(** C4.  In every run, over any channels and any history, the run-wide delta
    of each user is the sum of that user's deltas over the channels scanned
    without error; the sum is taken in 64-bit arithmetic, so it is the plain
    sum whenever that fits 64 bits.  Each merge adds pointwise, user by user. *)
Theorem C4_aggregate_is_sum_of_channel_deltas
    P gs conf channelID script w (u : Z) :
  map_range_ok P ->
  let agg := scan_delta (scanPhase P gs conf channelID script w) in
  let deltas :=
    channelDeltas P conf channelID (Channels gs) script (emit EvGo (emit EvWgAdd w)) in
  lookup0 agg u = wrap64 (sum_delta u deltas) /\
  (in_int64 (sum_delta u deltas) -> lookup0 agg u = sum_delta u deltas) /\
  (forall rc changes : gmap Z Z,
     in_int64 (lookup0 rc u) ->
     lookup0 (aggregate P rc changes) u = wrap64 (lookup0 rc u + lookup0 changes u)).
Proof.
  intros Hok agg deltas.
  assert (H : lookup0 agg u = wrap64 (sum_delta u deltas)).
  { subst agg deltas. unfold scanPhase.
    rewrite (scanChannels_delta P conf channelID (Channels gs) u Hok).
    - by rewrite lookup0_empty.
    - intros v. rewrite lookup0_empty. unfold in_int64. lia. }
  split; [exact H |]. split.
  - intros Hr. rewrite H. by apply wrap64_id.
  - intros rc changes Hr. by apply aggregate_lookup.
Qed.

Lemma samplePlatform_ok : map_range_ok samplePlatform.
Proof. intros m. reflexivity. Qed.

Lemma C4_witness :
  map_range_ok samplePlatform /\
  lookup0 (scan_delta (scanPhase samplePlatform sampleGuild confDefault 77
                         sampleScript (world0 None []))) 42
  = wrap64 (sum_delta 42
      (channelDeltas samplePlatform confDefault 77 (Channels sampleGuild) sampleScript
         (emit EvGo (emit EvWgAdd (world0 None []))))).
Proof.
  split; [exact samplePlatform_ok |].
  exact (proj1 (C4_aggregate_is_sum_of_channel_deltas samplePlatform sampleGuild
                  confDefault 77 sampleScript (world0 None []) 42 samplePlatform_ok)).
Defined.

Example sample_run_delta :
  map_to_list (scan_delta (scanPhase samplePlatform sampleGuild confDefault 77
                             sampleScript (world0 None [])))
  = [(42, 3)].
Proof. vm_compute. reflexivity. Qed.

Example sample_channel_deltas :
  map_to_list <$>
    channelDeltas samplePlatform confDefault 77 (Channels sampleGuild) sampleScript
      (emit EvGo (emit EvWgAdd (world0 None [])))
  = [[(42, 2)]; [(42, 1)]].
Proof. vm_compute. reflexivity. Qed.

Example sample_no_thanks_delta :
  map_to_list (scan_delta (scanPhase samplePlatform sampleGuild confNoThanks 77
                             sampleScript (world0 None [])))
  = [(42, 1)].
Proof. vm_compute. reflexivity. Qed.

(** ** Traces *)

Lemma trace_emit e w : trace (emit e w) = trace w ++ [e].
Proof. reflexivity. Qed.

Lemma stores_emit e w : stores (emit e w) = stores w.
Proof. reflexivity. Qed.

Lemma ctx_poll_trace w :
  trace (ctx_poll w).2 = trace w ++ [EvPoll] /\ stores (ctx_poll w).2 = stores w.
Proof.
  unfold ctx_poll. destruct (cancel w) as [[[| n] e] |]; by split.
Qed.

Lemma extends_refl ok w : extends_by ok w w.
Proof. exists []. split; [by rewrite app_nil_r | constructor]. Qed.

Lemma extends_trans ok w1 w2 w3 :
  extends_by ok w1 w2 -> extends_by ok w2 w3 -> extends_by ok w1 w3.
Proof.
  intros (e1 & H1 & F1) (e2 & H2 & F2). exists (e1 ++ e2). split.
  - by rewrite H2, H1, app_assoc.
  - by apply Forall_app.
Qed.

Lemma extends_emit ok e w :
  ok e = true -> extends_by ok w (emit e w).
Proof. intros H. exists [e]. split; [done | by constructor]. Qed.

Lemma extends_poll w : extends_by scan_event w (ctx_poll w).2.
Proof.
  exists [EvPoll]. split; [apply ctx_poll_trace | by constructor].
Qed.

Lemma processChannel_loop_extends P conf channelID since script :
  forall w processed rc beforeID,
    let r := processChannel_loop P conf channelID since script w processed rc beforeID in
    extends_by scan_event w r.2 /\ stores r.2 = stores w.
Proof.
  induction script as [| f script IH]; intros w processed rc beforeID; simpl.
  - pose proof (extends_poll w) as Hp. pose proof (proj2 (ctx_poll_trace w)) as Hs.
    destruct (ctx_poll w) as [[e |] w1]; simpl in *; [done |].
    split; [| done].
    eapply extends_trans; [exact Hp | by apply extends_emit].
  - pose proof (extends_poll w) as Hp. pose proof (proj2 (ctx_poll_trace w)) as Hs.
    destruct (ctx_poll w) as [[e |] w1]; simpl in *; [done |].
    assert (H2 : extends_by scan_event w (emit (EvFetch channelID 100 beforeID) w1)).
    { eapply extends_trans; [exact Hp | by apply extends_emit]. }
    destruct f as [messages | err]; [| done].
    destruct (Z.of_nat (length messages) =? 0); [done |].
    destruct (scanPage P conf since messages processed rc) as [[p' rc'] | [p' rc']];
      [done |].
    destruct (IH (emit (EvSleep 1000) (emit (EvFetch channelID 100 beforeID) w1))
                p' rc' (lastID messages)) as [He Hst].
    split.
    + eapply extends_trans; [| exact He].
      eapply extends_trans; [exact H2 | by apply extends_emit].
    + by rewrite Hst.
Qed.

Lemma scanChannels_extends P conf channelID channels :
  forall script w stats rc ce,
    let r := scanChannels P conf channelID channels script w stats rc ce in
    extends_by scan_event w r.2 /\ stores r.2 = stores w.
Proof.
  induction channels as [| c rest IH]; intros script w stats rc ce; simpl.
  - split; [apply extends_refl | done].
  - destruct (negb (Channel_Type c =? ChannelTypeGuildText)); [apply IH |].
    pose proof (processChannel_loop_extends P conf (Channel_ID c) (fiveYearsAgo P)
                  script w 0 ∅ 0) as [He Hs].
    unfold processChannel.
    destruct (processChannel_loop P conf (Channel_ID c) (fiveYearsAgo P) script w 0 ∅ 0)
      as [[[[processed changes] [err |]] script1] w1]; simpl in He, Hs.
    + match goal with
      | |- context [scanChannels _ _ _ _ ?s ?w' ?st ?r ?c'] =>
          destruct (IH s w' st r c') as [He' Hs']
      end.
      split.
      * eapply extends_trans; [| exact He'].
        eapply extends_trans; [exact He | by apply extends_emit].
      * by rewrite Hs'.
    + match goal with
      | |- context [scanChannels _ _ _ _ ?s ?w' ?st ?r ?c'] =>
          destruct (IH s w' st r c') as [He' Hs']
      end.
      split.
      * eapply extends_trans; [| exact He'].
        eapply extends_trans; [exact He |].
        eapply extends_trans; by apply extends_emit.
      * by rewrite Hs'.
Qed.

Lemma store_calls_app (a b : list Event) :
  store_calls (a ++ b) = store_calls a ++ store_calls b.
Proof.
  induction a as [| e a IH]; simpl; [done |].
  destruct e; simpl; by rewrite ?IH.
Qed.

Lemma store_calls_scan (evs : list Event) :
  Forall (fun e => scan_event e = true) evs -> store_calls evs = [].
Proof.
  induction 1 as [| e evs He _ IH]; simpl; [done |].
  by destruct e.
Qed.

Lemma nonzero_cons_zero (u : Z) (l : list (Z * Z)) :
  nonzero ((u, 0) :: l) = nonzero l.
Proof. unfold nonzero. rewrite filter_cons. by rewrite decide_False by (simpl; lia). Qed.

Lemma nonzero_cons_nz (u a : Z) (l : list (Z * Z)) :
  a ≠ 0 -> nonzero ((u, a) :: l) = (u, a) :: nonzero l.
Proof. intros H. unfold nonzero. rewrite filter_cons. by rewrite decide_True. Qed.

Lemma insertUpdateUserRep_trace g u a w :
  exists r,
    (insertUpdateUserRep g u a w).1 = r /\
    trace (insertUpdateUserRep g u a w).2 = trace w ++ [EvStore g u a r].
Proof.
  unfold insertUpdateUserRep. destruct (stores w) as [| r rest]; by eexists.
Qed.

(** The persistence loop calls the store once for each entry it does not
    skip, in order, whatever the store answers; it counts every such entry
    and, apart, the answers that are errors. *)
Lemma applyChanges_calls (g channelID : Z) (l : list (Z * Z)) :
  forall w uu ue,
    in_int64 uu -> in_int64 ue ->
    let r := applyChanges g channelID l w uu ue in
    exists evs,
      trace r.2 = trace w ++ evs /\
      Forall (fun e => persist_event e = true) evs /\
      call_entry <$> store_calls evs = nonzero l /\
      Forall (fun c => c.1.1.1 = g) (store_calls evs) /\
      r.1.1 = wrap64 (uu + Z.of_nat (length (nonzero l))) /\
      r.1.2 = wrap64 (ue + Z.of_nat (length (filter (fun c => call_failed c = true)
                                               (store_calls evs)))).
Proof.
  induction l as [| [u a] l IH]; intros w uu ue Huu Hue; simpl.
  - exists []. rewrite app_nil_r. simpl.
    rewrite !Z.add_0_r, !wrap64_id by done.
    repeat split; constructor.
  - destruct (Z.eqb_spec a 0) as [-> | Hnz].
    + rewrite nonzero_cons_zero. by apply IH.
    + rewrite nonzero_cons_nz by done.
      destruct (insertUpdateUserRep_trace g u a w) as (r & Hr & Ht).
      destruct (insertUpdateUserRep g u a w) as [r0 w1]. simpl in Hr, Ht. subst r0.
      destruct r as [err |].
      * destruct (IH (sendErrorMessage channelID (NUserError u err) w1)
                    (wrap64 (uu + 1)) (wrap64 (ue + 1))
                    (wrap64_range _) (wrap64_range _))
          as (evs & Htr & Hp & Hc & Hg & Huu' & Hue').
        exists (EvStore g u a (Some err) :: EvSend channelID (NUserError u err) :: evs).
        split.
        { rewrite Htr. unfold sendErrorMessage. rewrite trace_emit, Ht.
          by rewrite <- !app_assoc. }
        split; [by repeat constructor |].
        split; [cbn [store_calls]; by rewrite fmap_cons, Hc |].
        split; [cbn [store_calls]; by constructor |].
        split.
        { rewrite Huu', wrap64_add_l. f_equal. simpl length. lia. }
        { rewrite Hue', wrap64_add_l. f_equal. cbn [store_calls].
          rewrite filter_cons, decide_True by done. simpl length. lia. }
      * destruct (IH w1 (wrap64 (uu + 1)) ue (wrap64_range _) Hue)
          as (evs & Htr & Hp & Hc & Hg & Huu' & Hue').
        exists (EvStore g u a None :: evs).
        split.
        { rewrite Htr, Ht. by rewrite <- !app_assoc. }
        split; [by repeat constructor |].
        split; [cbn [store_calls]; by rewrite fmap_cons, Hc |].
        split; [cbn [store_calls]; by constructor |].
        split.
        { rewrite Huu', wrap64_add_l. f_equal. simpl length. lia. }
        { rewrite Hue'. cbn [store_calls].
          by rewrite filter_cons, decide_False by done. }
Qed.

(** ** The run as a whole *)

(** reprocessMessages in terms of its two phases. *)
Lemma reprocessMessages_phases P gs conf channelID script w :
  let sp := scanPhase P gs conf channelID script w in
  let pp := persistPhase P gs conf channelID script w in
  let r := reprocessMessages P gs conf channelID script w in
  run_stats r = SetUsers (scan_stats sp) pp.1.1 /\
  run_error r = None /\
  trace r.2 =
    trace pp.2 ++ EvSetUsers pp.1.1 ::
    (if (scan_errors sp >? 0) || (pp.1.2 >? 0)
     then [EvSend channelID (NSummary (scan_errors sp) pp.1.2)] else []).
Proof.
  unfold reprocessMessages, persistPhase, run_stats, run_error,
    scan_stats, scan_errors, scan_delta.
  destruct (scanPhase P gs conf channelID script w)
    as [[[[stats rc] ce] script1] w1]. simpl.
  destruct (applyChanges (Guild_ID gs) channelID (map_range P rc)
              (emit EvWait (emit EvClose w1)) 0 0) as [[uu ue] w3]. simpl.
  split; [done |]. split; [done |].
  destruct ((ce >? 0) || (ue >? 0)); simpl; by rewrite <- ?app_assoc.
Qed.

Lemma scanPhase_extends P gs conf channelID script w :
  exists evs,
    trace (scanPhase P gs conf channelID script w).2
      = trace w ++ EvWgAdd :: EvGo :: evs /\
    Forall (fun e => scan_event e = true) evs /\
    stores (scanPhase P gs conf channelID script w).2 = stores w.
Proof.
  unfold scanPhase.
  destruct (scanChannels_extends P conf channelID (Channels gs) script
              (emit EvGo (emit EvWgAdd w)) stats0 ∅ 0) as [(evs & Ht & Hf) Hs].
  exists evs. split; [| split; [done |]].
  - rewrite Ht, !trace_emit. by rewrite <- !app_assoc.
  - by rewrite Hs.
Qed.

Lemma in_int64_0 : in_int64 0.
Proof. unfold in_int64. lia. Qed.

(** The shape of the trace of a run: the reporter is started, the channels
    are scanned, the reporter is stopped and awaited, the store is written,
    the user count is set, and a summary may follow. *)
Lemma run_trace_shape P gs conf channelID script c st :
  let sp := scanPhase P gs conf channelID script (world0 c st) in
  let pp := persistPhase P gs conf channelID script (world0 c st) in
  exists evs1 evs2 tail,
    run_events P gs conf channelID script c st
      = EvWgAdd :: EvGo :: evs1 ++ EvClose :: EvWait :: evs2
        ++ EvSetUsers pp.1.1 :: tail /\
    Forall (fun e => scan_event e = true) evs1 /\
    Forall (fun e => persist_event e = true) evs2 /\
    Forall (fun e => persist_event e = true) tail /\
    store_calls tail = [] /\
    call_entry <$> store_calls evs2 = nonzero (map_range P (scan_delta sp)) /\
    Forall (fun x => x.1.1.1 = Guild_ID gs) (store_calls evs2) /\
    pp.1.1 = wrap64 (Z.of_nat (length (nonzero (map_range P (scan_delta sp))))) /\
    pp.1.2 = wrap64 (Z.of_nat (length (filter (fun x => call_failed x = true)
                                         (store_calls evs2)))).
Proof.
  intros sp pp.
  destruct (reprocessMessages_phases P gs conf channelID script (world0 c st))
    as (_ & _ & Htr).
  destruct (scanPhase_extends P gs conf channelID script (world0 c st))
    as (evs1 & Ht1 & Hf1 & _).
  destruct (applyChanges_calls (Guild_ID gs) channelID (map_range P (scan_delta sp))
              (emit EvWait (emit EvClose sp.2)) 0 0 in_int64_0 in_int64_0)
    as (evs2 & Ht2 & Hf2 & Hc & Hg & Huu & Hue).
  cbv zeta in Htr. subst pp. unfold persistPhase in *. fold sp in Htr, Ht1 |- *.
  eexists evs1, evs2, _. split.
  { unfold run_events. rewrite Htr, Ht2, !trace_emit, Ht1.
    simpl. rewrite <- !app_assoc. simpl. reflexivity. }
  split; [done |]. split; [done |].
  split; [destruct (_ || _); by repeat constructor |].
  split; [by destruct (_ || _) |].
  by repeat split.
Qed.

Lemma run_store_calls P gs conf channelID script c st :
  exists evs2,
    store_calls (run_events P gs conf channelID script c st) = store_calls evs2 /\
    call_entry <$> store_calls evs2
      = nonzero (map_range P
                   (scan_delta (scanPhase P gs conf channelID script (world0 c st)))) /\
    Forall (fun x => x.1.1.1 = Guild_ID gs) (store_calls evs2) /\
    (persistPhase P gs conf channelID script (world0 c st)).1.2
      = wrap64 (Z.of_nat (length (filter (fun x => call_failed x = true)
                                    (store_calls evs2)))).
Proof.
  destruct (run_trace_shape P gs conf channelID script c st)
    as (evs1 & evs2 & tail & Hev & Hf1 & _ & _ & Htail & Hc & Hg & _ & Hue).
  exists evs2. split; [| done].
  rewrite Hev.
  change (EvWgAdd :: EvGo :: evs1 ++ EvClose :: EvWait :: evs2
          ++ EvSetUsers (persistPhase P gs conf channelID script (world0 c st)).1.1 :: tail)
    with ([EvWgAdd; EvGo] ++ evs1 ++ [EvClose; EvWait] ++ evs2
          ++ [EvSetUsers (persistPhase P gs conf channelID script (world0 c st)).1.1]
          ++ tail).
  rewrite !store_calls_app, Htail, (store_calls_scan evs1 Hf1). simpl.
  by rewrite app_nil_r.
Qed.

Lemma length_split_failed (l : list (Z * Z * Z * option error)) :
  length l = (length (filter (fun x => call_failed x = false) l)
              + length (filter (fun x => call_failed x = true) l))%nat.
Proof.
  induction l as [| x l IH]; [done |].
  rewrite !filter_cons. destruct (call_failed x) eqn:E.
  - rewrite decide_False, decide_True by done. simpl. lia.
  - rewrite decide_True, decide_False by done. simpl. lia.
Qed.

Lemma nonzero_NoDup (l : list (Z * Z)) : NoDup l.*1 -> NoDup (nonzero l).*1.
Proof.
  intros H. eapply sublist_NoDup; [exact H |].
  apply fmap_sublist. apply sublist_filter.
Qed.

(** C2 (as amended).  After the scan, the store is called once, with the
    community's identifier, for each user whose aggregated delta is not zero
    and for no one else, whatever the store answers to the other calls; the
    users-affected counter is the number of these calls (in 64-bit arithmetic),
    failed ones included; it is the number of users really updated plus the
    number of failed calls, and the failed calls are what the user-error counter
    counts. *)
Theorem C2_counter_counts_attempted_updates P gs conf channelID script c st :
  map_range_ok P ->
  let r := reprocessMessages P gs conf channelID script (world0 c st) in
  let agg := scan_delta (scanPhase P gs conf channelID script (world0 c st)) in
  let calls := store_calls (trace r.2) in
  call_entry <$> calls ≡ₚ nonzero (map_to_list agg) /\
  NoDup (call_entry <$> calls).*1 /\
  Forall (fun x => x.1.1.1 = Guild_ID gs) calls /\
  UsersAffected (run_stats r) = wrap64 (Z.of_nat (length calls)) /\
  length calls
    = (length (updated_users (trace r.2)) + length (failed_calls (trace r.2)))%nat /\
  (persistPhase P gs conf channelID script (world0 c st)).1.2
    = wrap64 (Z.of_nat (length (failed_calls (trace r.2)))).
Proof.
  intros Hok r agg calls.
  destruct (run_store_calls P gs conf channelID script c st)
    as (evs2 & Hcalls & Hc & Hg & Hue).
  fold agg in Hc.
  assert (Ecalls : calls = store_calls evs2) by exact Hcalls.
  destruct (run_trace_shape P gs conf channelID script c st)
    as (_ & evs2' & _ & _ & _ & _ & _ & _ & Hc' & _ & Huu & _).
  destruct (reprocessMessages_phases P gs conf channelID script (world0 c st))
    as (Hst & _ & _).
  fold r in Hst.
  split; [| split; [| split; [| split; [| split]]]].
  - rewrite Ecalls, Hc. unfold nonzero. by rewrite (Hok agg).
  - rewrite Ecalls, Hc. apply nonzero_NoDup. rewrite (Hok agg).
    apply NoDup_fst_map_to_list.
  - by rewrite Ecalls.
  - rewrite Hst. simpl. rewrite Huu. fold agg.
    by rewrite Ecalls, <- (length_fmap call_entry), Hc.
  - unfold updated_users, failed_calls. fold calls.
    rewrite length_fmap. apply length_split_failed.
  - unfold failed_calls. fold calls. by rewrite Ecalls.
Qed.

Lemma C2_witness :
  map_range_ok samplePlatform /\
  UsersAffected
    (run_stats (reprocessMessages samplePlatform sampleGuild confDefault 77
                  sampleScript (world0 None [Some (errOther "store down")])))
  = wrap64 (Z.of_nat (length (store_calls (trace
      (reprocessMessages samplePlatform sampleGuild confDefault 77
         sampleScript (world0 None [Some (errOther "store down")])).2)))).
Proof.
  split; [exact samplePlatform_ok |].
  exact (proj1 (proj2 (proj2 (proj2
    (C2_counter_counts_attempted_updates samplePlatform sampleGuild confDefault 77
       sampleScript None [Some (errOther "store down")] samplePlatform_ok))))).
Defined.

(** The claim C2 as it was stated fails: with one user to update and a store
    that refuses the call, the counter is 1 and no user has been updated. *)
Lemma C2_counterexample :
  let r := reprocessMessages samplePlatform sampleGuild confDefault 77
             sampleScript (world0 None [Some (errOther "store down")]) in
  UsersAffected (run_stats r) = 1 /\
  updated_users (trace r.2) = [] /\
  UsersAffected (run_stats r) ≠ Z.of_nat (length (updated_users (trace r.2))).
Proof. vm_compute. repeat split; congruence. Qed.

(** ** Cancellation *)

Lemma ctx_poll_done w e :
  cancel w = Some (0%nat, e) -> ctx_poll w = (Some e, emit EvPoll w).
Proof. unfold ctx_poll. by intros ->. Qed.

(** A scan whose context is done stops at its next check, before any fetch,
    with what it has and the error of the context. *)
Lemma processChannel_loop_done P conf cid since script w processed rc beforeID e :
  cancel w = Some (0%nat, e) ->
  processChannel_loop P conf cid since script w processed rc beforeID
  = ((processed, rc, Some e), script, emit EvPoll w).
Proof.
  intros Hc. destruct script; simpl; by rewrite (ctx_poll_done w e Hc).
Qed.

Lemma count_text_cons c channels :
  count_text (c :: channels)
  = (if Channel_Type c =? ChannelTypeGuildText then 1 else 0) + count_text channels.
Proof.
  unfold count_text. rewrite filter_cons.
  destruct (Z.eqb_spec (Channel_Type c) ChannelTypeGuildText) as [E | E].
  - rewrite decide_True by done. simpl length. lia.
  - rewrite decide_False by done. lia.
Qed.

(** Once the context is done the orchestrator still visits every channel
    left: each text channel is checked once, reported and counted as a
    channel error; statistics and deltas stay as they are. *)
Lemma scanChannels_done P conf channelID channels e :
  forall script w stats rc ce,
    cancel w = Some (0%nat, e) ->
    in_int64 ce ->
    exists w',
      scanChannels P conf channelID channels script w stats rc ce
      = ((stats, rc, wrap64 (ce + count_text channels)), script, w') /\
      cancel w' = Some (0%nat, e) /\
      trace w' = trace w ++
        flat_map (fun c => [EvPoll; EvSend channelID (NChannelError (Channel_ID c) e)])
          (filter (fun c => Channel_Type c = ChannelTypeGuildText) channels).
Proof.
  induction channels as [| c rest IH]; intros script w stats rc ce Hc Hce.
  - exists w. simpl. unfold count_text. simpl.
    by rewrite Z.add_0_r, wrap64_id, app_nil_r.
  - simpl. rewrite count_text_cons, filter_cons.
    destruct (Z.eqb_spec (Channel_Type c) ChannelTypeGuildText) as [E | E]; simpl.
    + rewrite decide_True by done.
      unfold processChannel. rewrite (processChannel_loop_done _ _ _ _ _ _ _ _ _ e Hc).
      destruct (IH script
                  (sendErrorMessage channelID (NChannelError (Channel_ID c) e)
                     (emit EvPoll w))
                  stats rc (wrap64 (ce + 1)) Hc (wrap64_range _))
        as (w' & -> & Hc' & Ht).
      exists w'. split; [| split; [done |]].
      * by rewrite wrap64_add_l, Z.add_assoc.
      * rewrite Ht. unfold sendErrorMessage. rewrite !trace_emit. simpl.
        by rewrite <- !app_assoc.
    + rewrite decide_False by done.
      destruct (IH script w stats rc ce Hc Hce) as (w' & -> & Hc' & Ht).
      exists w'. by rewrite Z.add_0_l.
Qed.

Lemma reprocessMessages_no_error P gs conf channelID script w :
  run_error (reprocessMessages P gs conf channelID script w) = None.
Proof.
  by destruct (reprocessMessages_phases P gs conf channelID script w) as (_ & H & _).
Qed.

(** C1 (as amended).  When the caller's context is done at one of the
    scanner's checks, the scan of the current channel stops there, before any
    fetch, and returns its count and delta so far with the error of the context.
    The orchestrator handles that like any other channel error: it goes on to
    every channel that is left, and each text channel among them is checked,
    reported to the destination and counted as one more channel error, without a
    change to the statistics or to the run-wide delta.  A run never returns an
    error: whatever happened during the scan, cancellation included, the run
    then stops the reporter (closes the stop channel and waits), calls the store
    for exactly the non-zero entries of the delta aggregated from the channels
    scanned without error, sets the user count and returns the statistics of the
    scan with that count. *)
Theorem C1_cancellation_is_a_channel_error
    P conf channelID script w (e : error) :
  cancel w = Some (0%nat, e) ->
  (forall cid since processed (rc : gmap Z Z) beforeID,
     processChannel_loop P conf cid since script w processed rc beforeID
     = ((processed, rc, Some e), script, emit EvPoll w)) /\
  (forall channels stats (rc : gmap Z Z) ce,
     in_int64 ce ->
     exists w',
       scanChannels P conf channelID channels script w stats rc ce
       = ((stats, rc, wrap64 (ce + count_text channels)), script, w') /\
       trace w' = trace w ++
         flat_map (fun c => [EvPoll; EvSend channelID (NChannelError (Channel_ID c) e)])
           (filter (fun c => Channel_Type c = ChannelTypeGuildText) channels)) /\
  (forall gs script0 w0,
     run_error (reprocessMessages P gs conf channelID script0 w0) = None) /\
  (forall gs script0 c st,
     let r := reprocessMessages P gs conf channelID script0 (world0 c st) in
     let sp := scanPhase P gs conf channelID script0 (world0 c st) in
     run_error r = None /\
     run_stats r = SetUsers (scan_stats sp) (UsersAffected (run_stats r)) /\
     (exists evs1 evs2 tail,
        trace r.2 = EvWgAdd :: EvGo :: evs1 ++ EvClose :: EvWait :: evs2
                    ++ EvSetUsers (UsersAffected (run_stats r)) :: tail /\
        Forall (fun ev => scan_event ev = true) evs1 /\
        store_calls tail = [] /\
        call_entry <$> store_calls evs2 = nonzero (map_range P (scan_delta sp)) /\
        Forall (fun x => x.1.1.1 = Guild_ID gs) (store_calls evs2)) /\
     (map_range_ok P ->
      forall u,
        lookup0 (scan_delta sp) u
        = wrap64 (sum_delta u
                    (channelDeltas P conf channelID (Channels gs) script0
                       (emit EvGo (emit EvWgAdd (world0 c st))))))).
Proof.
  intros Hc. split; [| split; [| split]].
  - intros. by apply processChannel_loop_done.
  - intros channels stats rc ce Hce.
    destruct (scanChannels_done P conf channelID channels e script w stats rc ce Hc Hce)
      as (w' & H1 & _ & H2).
    by exists w'.
  - intros. apply reprocessMessages_no_error.
  - intros gs script0 c st r sp.
    destruct (reprocessMessages_phases P gs conf channelID script0 (world0 c st))
      as (Hst & Herr & _).
    fold r in Hst, Herr. fold sp in Hst.
    assert (Hu : UsersAffected (run_stats r)
                 = (persistPhase P gs conf channelID script0 (world0 c st)).1.1)
      by (by rewrite Hst).
    split; [exact Herr |]. split; [by rewrite Hu |]. split.
    + destruct (run_trace_shape P gs conf channelID script0 c st)
        as (evs1 & evs2 & tail & Hev & Hf1 & _ & _ & Htail & Hcalls & Hg & _).
      exists evs1, evs2, tail. rewrite Hu.
      split; [exact Hev |]. split; [exact Hf1 |]. split; [exact Htail |].
      split; [exact Hcalls | exact Hg].
    + intros Hok u. subst sp. unfold scanPhase.
      rewrite (scanChannels_delta P conf channelID (Channels gs) u Hok).
      * by rewrite lookup0_empty.
      * intros v. rewrite lookup0_empty. apply in_int64_0.
Qed.

Lemma C1_witness :
  cancel (world0 (Some (0%nat, ctxCanceled)) []) = Some (0%nat, ctxCanceled) /\
  processChannel_loop samplePlatform confDefault 1 100 sampleScript
    (world0 (Some (0%nat, ctxCanceled)) []) 3 {[ 42 := 2 ]} 11
  = ((3, {[ 42 := 2 ]}, Some ctxCanceled), sampleScript,
     emit EvPoll (world0 (Some (0%nat, ctxCanceled)) [])).
Proof.
  assert (H : cancel (world0 (Some (0%nat, ctxCanceled)) [])
              = Some (0%nat, ctxCanceled)) by reflexivity.
  split; [exact H |].
  exact (proj1 (C1_cancellation_is_a_channel_error samplePlatform confDefault 77
                  sampleScript _ ctxCanceled H) 1 100 3 {[ 42 := 2 ]} 11).
Defined.

(** The claim C1 as it was stated fails.  The context is cancelled while
    channel 1 is scanned (its second check finds it done).  The run then still
    checks channel 3, reports both channels as channel errors, stops the
    reporter, sets the user count, posts the summary and returns no error. *)
Lemma C1_counterexample :
  let r := reprocessMessages samplePlatform sampleGuild confDefault 77
             sampleScript (world0 (Some (1%nat, ctxCanceled)) []) in
  run_error r = None /\
  trace r.2 =
    [ EvWgAdd; EvGo;
      EvPoll; EvFetch 1 100 0; EvSleep 1000; EvPoll;
      EvSend 77 (NChannelError 1 ctxCanceled);
      EvPoll; EvSend 77 (NChannelError 3 ctxCanceled);
      EvClose; EvWait; EvSetUsers 0; EvSend 77 (NSummary 2 0) ].
Proof. vm_compute. split; reflexivity. Qed.

(** ** Orchestrator and Reporter side by side *)

Lemma tick_users stats r post r' :
  tick stats r = Some (post, r') -> su_users post = UsersAffected stats.
Proof.
  unfold tick. simpl.
  destruct (interval_at (currentIntervalIdx r)) as [ci |]; [| done].
  destruct (negb (count ci =? -1) && _).
  - destruct (currentIntervalIdx r <? _).
    + destruct (interval_at _); [| done]. by intros [= <- _].
    + by intros [= <- _].
  - by intros [= <- _].
Qed.

Lemma do_move_step mv s s' : do_move mv s = Some s' -> step s s'.
Proof.
  destruct mv; simpl.
  - destruct (orch s) as [| e rest] eqn:E; [done |]. intros H.
    by eapply step_orch.
  - destruct (rep s) as [| r |] eqn:E; try done.
    destruct (tick (shared s) r) as [[post r'] |] eqn:Et; [| done].
    intros [= <-]. by eapply step_tick.
  - destruct (rep s) as [| r |] eqn:E; try done.
    destruct (stopChan s) eqn:Es; [| done].
    intros [= <-]. rewrite <- Es at 1. by eapply step_stop.
Qed.

Lemma run_moves_reachable mvs :
  forall s s', run_moves mvs s = Some s' -> rtc step s s'.
Proof.
  induction mvs as [| mv mvs IH]; intros s s'; simpl.
  - intros [= <-]. apply rtc_refl.
  - destruct (do_move mv s) as [s1 |] eqn:E; [| done].
    intros H. eapply rtc_l; [by eapply do_move_step | by apply IH].
Qed.

(** An event of the scan changes neither the reporter nor the user count. *)
Lemma orch_step_scan e rest s s' :
  scan_event e = true ->
  orch_step e rest s = Some s' ->
  orch s' = rest /\ rep s' = rep s /\ wg s' = wg s /\ stopChan s' = stopChan s /\
  posted s' = posted s /\ UsersAffected (shared s') = UsersAffected (shared s).
Proof.
  destruct e; simpl; try done; by intros _ [= <-].
Qed.

Lemma orch_step_not_go e rest s s' :
  not_go e = true ->
  orch_step e rest s = Some s' ->
  orch s' = rest /\ rep s' = rep s /\ posted s' = posted s.
Proof.
  destruct e; simpl; try done; try (by intros _ [= <-]).
  destruct (wg s =? 0); [| done]. by intros _ [= <-].
Qed.

Lemma reporter_unseen_step s s' :
  reporter_unseen s -> step s s' -> reporter_unseen s'.
Proof.
  intros Hinv Hstep.
  destruct Hinv as
    [ s evs tail Ho Hevs Htail Hrep Hwg Hstop [Hu Hp]
    | s evs tail Ho Hevs Htail Hrep Hwg Hstop [Hu Hp]
    | s evs tail r Ho Hevs Htail Hrep Hwg Hstop [Hu Hp]
    | s tail Ho Htail Hrw Hstop [Hu Hp]
    | s Ho Hrep Hp ].
  - (* before wg.Add *)
    destruct Hstep as [s e rest s' He Hs | s r0 post r' Hr _ | s r0 Hr _];
      try congruence.
    rewrite Ho in He. injection He as <- <-. simpl in Hs. injection Hs as <-.
    eapply phase_added; simpl; try done. lia.
  - (* before go *)
    destruct Hstep as [s e rest s' He Hs | s r0 post r' Hr _ | s r0 Hr _];
      try congruence.
    rewrite Ho in He. injection He as <- <-. simpl in Hs. injection Hs as <-.
    eapply phase_scanning; simpl; done.
  - (* scanning, the reporter runs *)
    destruct Hstep as [s e rest s' He Hs | s r0 post r' Hr Ht | s r0 Hr Hst].
    + destruct evs as [| e0 evs]; simpl in Ho; rewrite Ho in He;
        injection He as <- <-.
      * simpl in Hs. injection Hs as <-.
        eapply phase_waiting; simpl; try done.
        left. split; [by exists r | done].
      * apply Forall_cons in Hevs as [He0 Hevs].
        destruct (orch_step_scan _ _ _ _ He0 Hs) as (H1 & H2 & H3 & H4 & H5 & H6).
        eapply phase_scanning; try done.
        -- by rewrite H2.
        -- by rewrite H3.
        -- by rewrite H4.
        -- split; [by rewrite H6 | by rewrite H5].
    + eapply phase_scanning; simpl; try done.
      split; [done |]. apply Forall_app. split; [done |].
      constructor; [| constructor]. by rewrite (tick_users _ _ _ _ Ht).
    + congruence.
  - (* stop signalled, the orchestrator waits *)
    destruct Hstep as [s e rest s' He Hs | s r0 post r' Hr Ht | s r0 Hr Hst].
    + rewrite Ho in He. injection He as <- <-. simpl in Hs.
      destruct (Z.eqb_spec (wg s) 0) as [Hz | Hnz]; [| done].
      injection Hs as <-.
      destruct Hrw as [[_ Hw] | [Hterm _]]; [lia |].
      by apply phase_persisting.
    + eapply phase_waiting; simpl; try done.
      * destruct Hrw as [[_ Hw] | [Hterm _]]; [| congruence].
        left. split; [by eexists | done].
      * split; [done |]. apply Forall_app. split; [done |].
        constructor; [| constructor]. by rewrite (tick_users _ _ _ _ Ht).
    + eapply phase_waiting; simpl; try done.
      destruct Hrw as [[_ Hw] | [Hterm _]]; [| congruence].
      right. split; [done | lia].
  - (* the reporter has returned *)
    destruct Hstep as [s e rest s' He Hs | s r0 post r' Hr _ | s r0 Hr _];
      try congruence.
    rewrite He in Ho. apply Forall_cons in Ho as [He0 Hrest].
    destruct (orch_step_not_go _ _ _ _ He0 Hs) as (H1 & H2 & H3).
    apply phase_persisting.
    + by rewrite H1.
    + by rewrite H2.
    + by rewrite H3.
Qed.

Lemma reporter_unseen_posts s :
  reporter_unseen s -> Forall (fun p => su_users p = 0) (posted s).
Proof. destruct 1; try done; by match goal with H : users_zero _ |- _ => destruct H end. Qed.

Lemma reporter_unseen_rtc s s' :
  reporter_unseen s -> rtc step s s' -> reporter_unseen s'.
Proof.
  intros Hinv Hsteps. induction Hsteps as [| s s1 s2 Hstep _ IH]; [done |].
  apply IH. by eapply reporter_unseen_step.
Qed.

Lemma persist_not_go e : persist_event e = true -> not_go e = true.
Proof. by destruct e. Qed.

Lemma system0_unseen P gs conf channelID script c st :
  reporter_unseen (system0 (run_events P gs conf channelID script c st)).
Proof.
  destruct (run_trace_shape P gs conf channelID script c st)
    as (evs1 & evs2 & tail & Hev & Hf1 & Hf2 & Hft & _).
  apply (phase_init (system0 (run_events P gs conf channelID script c st))
           evs1 (evs2 ++ EvSetUsers _ :: tail) Hev Hf1);
    [| reflexivity | reflexivity | reflexivity | by split; [| constructor]].
  apply Forall_app. split.
  - eapply Forall_impl; [exact Hf2 | apply persist_not_go].
  - constructor; [done |].
    eapply Forall_impl; [exact Hft | apply persist_not_go].
Qed.

Lemma reporter_unseen_users s :
  reporter_unseen s -> rep s ≠ Terminated -> UsersAffected (shared s) = 0.
Proof.
  destruct 1; intros Hnt; try done;
    by match goal with H : users_zero _ |- _ => destruct H end.
Qed.

(** C10.  Take any run of reprocessMessages and let its reporter tick and
    stop at any moments the scheduler likes.  In every state that can be reached,
    every update posted so far reports 0 users affected, and the shared counter
    is 0 as long as the reporter has not returned: the orchestrator sets it only
    after [wg.Wait()], which returns only when the reporter has. *)
Theorem C10_progress_updates_report_zero_users
    P gs conf channelID script c st (s : system) :
  rtc step (system0 (run_events P gs conf channelID script c st)) s ->
  Forall (fun p => su_users p = 0) (posted s) /\
  (rep s ≠ Terminated -> UsersAffected (shared s) = 0).
Proof.
  intros Hsteps.
  assert (Hinv : reporter_unseen s).
  { eapply reporter_unseen_rtc; [apply system0_unseen | exact Hsteps]. }
  split.
  - by apply reporter_unseen_posts.
  - by apply reporter_unseen_users.
Qed.

Lemma sampleFinal_reached : rtc step (system0 sampleEvents) sampleFinal.
Proof.
  apply (run_moves_reachable sampleMoves). vm_compute. reflexivity.
Qed.

Lemma C10_witness :
  rtc step (system0 sampleEvents) sampleFinal /\
  Forall (fun p => su_users p = 0) (posted sampleFinal) /\
  length (posted sampleFinal) = 3%nat /\
  UsersAffected (shared sampleFinal) = 1.
Proof.
  split; [exact sampleFinal_reached |].
  split; [| split; reflexivity].
  exact (proj1 (C10_progress_updates_report_zero_users samplePlatform sampleGuild
                  confDefault 77 sampleScript None [] sampleFinal sampleFinal_reached)).
Defined.

Example sampleFinal_posts :
  posted sampleFinal
  = [ {| elapsed := 10 * Second; su_messages := 0; su_rep := 0; su_users := 0 |};
      {| elapsed := 20 * Second; su_messages := 3; su_rep := 2; su_users := 0 |};
      {| elapsed := 30 * Second; su_messages := 4; su_rep := 3; su_users := 0 |} ].
Proof. vm_compute. reflexivity. Qed.

(** ** The patterns on sample texts *)

Example giveRep_sample : giveRepPattern "hey !GiveRep  <@!42> ok" = Some "42".
Proof. reflexivity. Qed.

Example giveRep_needs_space : giveRepPattern "!giverep<@42>" = None.
Proof. reflexivity. Qed.

Example giveRep_leftmost : giveRepPattern "!giverep <@> !giverep <@5> !giverep <@6>" = Some "5".
Proof. reflexivity. Qed.

Example thanks_sample : thanksPattern "Thanks <@007>" = Some "007".
Proof. reflexivity. Qed.

Example thanks_inside_word : thanksPattern "nothanks
<@7>" = Some "7".
Proof. reflexivity. Qed.

Example MustParseInt_leading_zeros : MustParseInt "007" = 7.
Proof. reflexivity. Qed.

Example MustParseInt_too_long : MustParseInt "99999999999999999999" = 0.
Proof. reflexivity. Qed.

Example MustParseInt_top : MustParseInt "9223372036854775807" = 2 ^ 63 - 1.
Proof. reflexivity. Qed.

(** The scenario of the spec: one explicit grant and one thanks for user 42
    from user 7, and user 42 thanking themselves. *)
Example scenario_default :
  (flow_val (scanPage samplePlatform confDefault 100 pageA 0 ∅)).2 = {[ 42 := 2 ]}.
Proof. vm_compute. reflexivity. Qed.

Example scenario_no_thanks :
  (flow_val (scanPage samplePlatform confNoThanks 100 pageA 0 ∅)).2 = {[ 42 := 1 ]}.
Proof. vm_compute. reflexivity. Qed.

(** Case folding as Go does it: the Kelvin sign stands for a [k]. *)
Example thanks_kelvin_sign : thanksPattern "thanKs <@5>" = Some "5".
Proof. reflexivity. Qed.

(** * Further properties *)

(** ** Pattern Matcher: what a capture is *)

Lemma span_digits_digits (s : string) :
  all_digits (span_digits s).1 = true.
Proof.
  induction s as [| c s IH]; simpl; [done |].
  destruct (is_digit c) eqn:E; [| done].
  destruct (span_digits s) as [d r]. simpl in *. by rewrite E, IH.
Qed.

Lemma mention_digits (s d : string) :
  mention s = Some d -> d ≠ EmptyString /\ all_digits d = true.
Proof.
  unfold mention.
  destruct s as [| c1 [| c2 s1]]; [done | |].
  { destruct c1 as [[] [] [] [] [] [] [] []]; done. }
  destruct (Ascii.eqb_spec c1 "<") as [-> | Hne1].
  2: { destruct c1 as [[] [] [] [] [] [] [] []]; done. }
  destruct (Ascii.eqb_spec c2 "@") as [-> | Hne2].
  2: { destruct c2 as [[] [] [] [] [] [] [] []]; done. }
  set (s2 := match s1 with String "!" r => r | _ => s1 end).
  pose proof (span_digits_digits s2) as Hd.
  destruct (span_digits s2) as [[| c d'] r]; [done |].
  destruct r as [| c3 r]; [done |].
  destruct (Ascii.eqb_spec c3 ">") as [-> | Hne3].
  2: { destruct c3 as [[] [] [] [] [] [] [] []]; done. }
  by intros [= <-].
Qed.

Lemma match_here_digits (lit s d : string) :
  match_here lit s = Some d -> d ≠ EmptyString /\ all_digits d = true.
Proof.
  unfold match_here.
  destruct (fold_literal lit s) as [s1 |]; [| done].
  destruct (spaces1 s1) as [s2 |]; [| done].
  apply mention_digits.
Qed.

Lemma FindStringSubmatch_digits (lit s d : string) :
  FindStringSubmatch lit s = Some d -> d ≠ EmptyString /\ all_digits d = true.
Proof.
  induction s as [| c s IH]; simpl.
  - destruct (match_here lit "") as [d0 |] eqn:E; [| done].
    intros [= <-]. by eapply match_here_digits.
  - destruct (match_here lit (String c s)) as [d0 |] eqn:E; [| exact IH].
    intros [= <-]. by eapply match_here_digits.
Qed.

Lemma is_digit_value (c : ascii) :
  is_digit c = true -> 0 <= byte_of c - 48 <= 9.
Proof. unfold is_digit. simpl. lia. Qed.

Lemma digits_value_digits (s : string) :
  all_digits s = true ->
  forall acc, 0 <= acc -> exists v, digits_value acc s = Some v /\ acc <= v.
Proof.
  induction s as [| c s IH]; simpl; intros Hd acc Hacc.
  - exists acc. split; [done | lia].
  - apply andb_true_iff in Hd as [Hc Hs]. rewrite Hc.
    pose proof (is_digit_value c Hc) as Hv.
    destruct (IH Hs (10 * acc + (byte_of c - 48))) as (v & Hv1 & Hv2); [lia |].
    exists v. split; [done | lia].
Qed.

Lemma ParseInt_digits (d : string) :
  d ≠ EmptyString -> all_digits d = true ->
  exists v, digits_value 0 d = Some v /\ 0 <= v /\
            ParseInt d = if v <? 2 ^ 63 then Some v else None.
Proof.
  intros Hne Hd.
  destruct (digits_value_digits d Hd 0) as (v & Hv & Hpos); [lia |].
  exists v. split; [done |]. split; [done |].
  destruct d as [| c d']; [done |].
  simpl in Hd. apply andb_true_iff in Hd as [Hc _].
  assert (Hsign : c ≠ "-"%char /\ c ≠ "+"%char).
  { split; intros ->; vm_compute in Hc; done. }
  destruct Hsign as [Hm Hp].
  unfold ParseInt.
  assert (E : match String c d' with
              | String "-" r => (true, r)
              | String "+" r => (false, r)
              | _ => (false, String c d')
              end = (false, String c d')).
  { destruct c as [[] [] [] [] [] [] [] []]; done. }
  rewrite E, Hv.
  destruct (Z.leb_spec (- 2 ^ 63) v); [| lia]. simpl.
  by destruct (v <? 2 ^ 63).
Qed.

(** X1.  What either pattern captures is a non-empty string of decimal
    digits.  So the identifier read from it is never negative, and the only way
    it fails to parse is by not fitting 64 bits. *)
Theorem capture_is_decimal (lit s d : string) :
  FindStringSubmatch lit s = Some d ->
  d ≠ EmptyString /\ all_digits d = true /\
  exists v, digits_value 0 d = Some v /\ 0 <= v /\
            ParseInt d = (if v <? 2 ^ 63 then Some v else None) /\
            0 <= MustParseInt d.
Proof.
  intros H. destruct (FindStringSubmatch_digits lit s d H) as [Hne Hd].
  split; [done |]. split; [done |].
  destruct (ParseInt_digits d Hne Hd) as (v & Hv & Hpos & Hp).
  exists v. split; [done |]. split; [done |]. split; [done |].
  unfold MustParseInt. rewrite Hp. destruct (v <? 2 ^ 63); lia.
Qed.

Lemma capture_is_decimal_witness :
  FindStringSubmatch "thanks" "no THANKS  <@!0042>!" = Some "0042" /\
  0 <= MustParseInt "0042".
Proof.
  assert (H : FindStringSubmatch "thanks" "no THANKS  <@!0042>!" = Some "0042")
    by reflexivity.
  split; [exact H |].
  destruct (capture_is_decimal "thanks" "no THANKS  <@!0042>!" "0042" H)
    as (_ & _ & v & _ & _ & _ & Hm).
  exact Hm.
Defined.

(** ** Printing and reading identifiers *)

Lemma digit_char_digit (d : Z) :
  0 <= d <= 9 -> is_digit (digit_char d) = true /\ byte_of (digit_char d) - 48 = d.
Proof.
  intros H.
  assert (E : d = 0 \/ d = 1 \/ d = 2 \/ d = 3 \/ d = 4 \/ d = 5 \/ d = 6 \/ d = 7
              \/ d = 8 \/ d = 9) by lia.
  repeat (destruct E as [-> | E]; [by vm_compute |]). subst. by vm_compute.
Qed.

Lemma digits_fuel_value (fuel : nat) :
  forall n acc, 0 <= n < 10 ^ Z.of_nat fuel ->
    digits_value 0 (digits_fuel fuel n acc) = digits_value n acc.
Proof.
  induction fuel as [| fuel IH]; intros n acc Hn.
  - simpl in *. assert (n = 0) by lia. by subst.
  - cbn [digits_fuel].
    assert (Hm : 0 <= n mod 10 <= 9) by (pose proof (Z.mod_pos_bound n 10); lia).
    destruct (digit_char_digit (n mod 10) Hm) as [Hd Hv].
    destruct (Z.ltb_spec n 10) as [Hlt | Hge].
    + cbn [digits_value]. rewrite Hd, Hv. rewrite Z.mod_small by lia. done.
    + rewrite IH.
      * cbn [digits_value]. rewrite Hd, Hv. f_equal.
        pose proof (Z.div_mod n 10). lia.
      * rewrite Nat2Z.inj_succ, Z.pow_succ_r in Hn by lia.
        split; [apply Z.div_pos; lia |].
        apply Z.div_lt_upper_bound; lia.
Qed.

Lemma digits_fuel_digits (fuel : nat) :
  forall n acc, 0 <= n ->
    all_digits (digits_fuel (S fuel) n acc) = all_digits acc /\
    digits_fuel (S fuel) n acc ≠ EmptyString.
Proof.
  induction fuel as [| fuel IH]; intros n acc Hn.
  - cbn [digits_fuel].
    assert (Hm : 0 <= n mod 10 <= 9) by (pose proof (Z.mod_pos_bound n 10); lia).
    destruct (digit_char_digit (n mod 10) Hm) as [Hd _].
    destruct (n <? 10); simpl; by rewrite Hd.
  - change (digits_fuel (S (S fuel)) n acc)
      with (let acc' := String (digit_char (n mod 10)) acc in
            if n <? 10 then acc' else digits_fuel (S fuel) (n / 10) acc').
    assert (Hm : 0 <= n mod 10 <= 9) by (pose proof (Z.mod_pos_bound n 10); lia).
    destruct (digit_char_digit (n mod 10) Hm) as [Hd _].
    cbv zeta. destruct (n <? 10).
    + simpl. by rewrite Hd.
    + destruct (IH (n / 10) (String (digit_char (n mod 10)) acc)) as [H1 H2].
      { apply Z.div_pos; lia. }
      split; [| done]. rewrite H1. simpl. by rewrite Hd.
Qed.

Lemma Sprintf_d_digits (n : Z) :
  0 <= n -> Sprintf_d n ≠ EmptyString /\ all_digits (Sprintf_d n) = true.
Proof.
  intros Hn. unfold Sprintf_d. destruct (Z.ltb_spec n 0); [lia |].
  destruct (digits_fuel_digits 19 n EmptyString Hn) as [H1 H2]. by split.
Qed.

Lemma Sprintf_d_value (n : Z) :
  0 <= n < 2 ^ 63 -> digits_value 0 (Sprintf_d n) = Some n.
Proof.
  intros Hn. unfold Sprintf_d. destruct (Z.ltb_spec n 0); [lia |].
  rewrite digits_fuel_value; [done |].
  change (10 ^ Z.of_nat 20) with 100000000000000000000. lia.
Qed.

Lemma append_cons (c : ascii) (s t : string) :
  (String c s ++ t)%string = String c (s ++ t)%string.
Proof. reflexivity. Qed.

Lemma append_nil (t : string) : (EmptyString ++ t)%string = t.
Proof. reflexivity. Qed.

Lemma span_digits_app (d rest : string) (c : ascii) :
  all_digits d = true -> is_digit c = false ->
  span_digits (d ++ String c rest)%string = (d, String c rest).
Proof.
  intros Hd Hc. induction d as [| x d IH].
  - rewrite append_nil. simpl. by rewrite Hc.
  - rewrite append_cons. simpl in Hd. apply andb_true_iff in Hd as [Hx Hd].
    simpl. by rewrite Hx, (IH Hd).
Qed.

Lemma mention_plain (d rest : string) :
  d ≠ EmptyString -> all_digits d = true ->
  mention ("<@" ++ d ++ String ">" rest)%string = Some d /\
  mention ("<@!" ++ d ++ String ">" rest)%string = Some d.
Proof.
  intros Hne Hd.
  assert (Hs : span_digits (d ++ String ">" rest)%string = (d, String ">" rest)).
  { by apply span_digits_app. }
  destruct d as [| x d']; [done |].
  assert (Hx : is_digit x = true).
  { simpl in Hd. by apply andb_true_iff in Hd as [Hx _]. }
  rewrite append_cons in Hs.
  split; unfold mention; rewrite !append_cons, append_nil.
  - destruct x as [[] [] [] [] [] [] [] []]; try (by vm_compute in Hx);
      cbn -[span_digits]; by rewrite Hs.
  - cbn -[span_digits]. by rewrite Hs.
Qed.

Lemma match_here_giverep (t : string) :
  match_here "!giverep" ("!giverep <" ++ t)%string = mention (String "<" t).
Proof. reflexivity. Qed.

Lemma match_here_thanks (t : string) :
  match_here "thanks" ("thanks <" ++ t)%string = mention (String "<" t).
Proof. reflexivity. Qed.

Lemma FindStringSubmatch_here (lit s d : string) :
  match_here lit s = Some d -> FindStringSubmatch lit s = Some d.
Proof. intros H. destruct s; simpl; by rewrite H. Qed.

(** X2.  A grant written in the canonical way for a user identifier is read
    back as that identifier: the explicit command and the thanks phrase, with
    either form of the mention, capture the printed digits, and these parse to
    the identifier, whatever follows in the message. *)
Theorem canonical_grant_round_trip (n : Z) (rest : string) :
  0 <= n < 2 ^ 63 ->
  giveRepPattern ("!giverep <@" ++ Sprintf_d n ++ String ">" rest)%string
    = Some (Sprintf_d n) /\
  giveRepPattern ("!giverep <@!" ++ Sprintf_d n ++ String ">" rest)%string
    = Some (Sprintf_d n) /\
  thanksPattern ("thanks <@" ++ Sprintf_d n ++ String ">" rest)%string
    = Some (Sprintf_d n) /\
  thanksPattern ("thanks <@!" ++ Sprintf_d n ++ String ">" rest)%string
    = Some (Sprintf_d n) /\
  MustParseInt (Sprintf_d n) = n.
Proof.
  intros Hn.
  destruct (Sprintf_d_digits n) as [Hne Hd]; [lia |].
  destruct (mention_plain (Sprintf_d n) rest Hne Hd) as [H1 H2].
  repeat split.
  - apply FindStringSubmatch_here.
    exact (eq_trans (match_here_giverep _) H1).
  - apply FindStringSubmatch_here.
    exact (eq_trans (match_here_giverep _) H2).
  - apply FindStringSubmatch_here.
    exact (eq_trans (match_here_thanks _) H1).
  - apply FindStringSubmatch_here.
    exact (eq_trans (match_here_thanks _) H2).
  - destruct (ParseInt_digits (Sprintf_d n) Hne Hd) as (v & Hv & _ & Hp).
    rewrite Sprintf_d_value in Hv by done. injection Hv as <-.
    unfold MustParseInt. rewrite Hp.
    by destruct (Z.ltb_spec n (2 ^ 63)); [| lia].
Qed.

Lemma canonical_grant_round_trip_witness :
  0 <= 204255221017214977 < 2 ^ 63 /\
  giveRepPattern ("!giverep <@" ++ Sprintf_d 204255221017214977 ++ String ">" " ty")%string
    = Some "204255221017214977" /\
  MustParseInt (Sprintf_d 204255221017214977) = 204255221017214977.
Proof.
  assert (H : 0 <= 204255221017214977 < 2 ^ 63) by lia.
  split; [exact H |].
  destruct (canonical_grant_round_trip 204255221017214977 " ty" H)
    as (H1 & _ & _ & _ & H5).
  split; [exact H1 | exact H5].
Defined.

(** ** Pattern Matcher: letter case *)

Ltac by_cases_on_char c :=
  destruct c as [[] [] [] [] [] [] [] []]; reflexivity.

Lemma to_lower_idem (c : ascii) : to_lower (to_lower c) = to_lower c.
Proof. by_cases_on_char c. Qed.

Lemma is_space_lower (c : ascii) : is_space (to_lower c) = is_space c.
Proof. by_cases_on_char c. Qed.

Lemma is_digit_lower (c : ascii) : is_digit (to_lower c) = is_digit c.
Proof. by_cases_on_char c. Qed.

Lemma byte_226_lower (c : ascii) : (byte_of (to_lower c) =? 226) = (byte_of c =? 226).
Proof. by_cases_on_char c. Qed.

Lemma byte_132_lower (c : ascii) : (byte_of (to_lower c) =? 132) = (byte_of c =? 132).
Proof. by_cases_on_char c. Qed.

Lemma byte_170_lower (c : ascii) : (byte_of (to_lower c) =? 170) = (byte_of c =? 170).
Proof. by_cases_on_char c. Qed.

Lemma byte_197_lower (c : ascii) : (byte_of (to_lower c) =? 197) = (byte_of c =? 197).
Proof. by_cases_on_char c. Qed.

Lemma byte_191_lower (c : ascii) : (byte_of (to_lower c) =? 191) = (byte_of c =? 191).
Proof. by_cases_on_char c. Qed.

Lemma digit_lower (c : ascii) : is_digit c = true -> to_lower c = c.
Proof. destruct c as [[] [] [] [] [] [] [] []]; intros H; try reflexivity; by vm_compute in H. Qed.

Lemma lower_digits (d : string) : all_digits d = true -> lower_string d = d.
Proof.
  induction d as [| c d IH]; simpl; [done |].
  intros H. apply andb_true_iff in H as [Hc Hd]. by rewrite (digit_lower c Hc), IH.
Qed.

Lemma fold_char_lower (p : ascii) (s : string) :
  fold_char p (lower_string s) = lower_string <$> fold_char p s.
Proof.
  destruct s as [| c1 s]; [done |].
  cbn [lower_string fold_char]. rewrite to_lower_idem.
  destruct (Ascii.eqb (to_lower c1) p); [done |].
  destruct (Ascii.eqb p "k").
  - destruct s as [| c2 [| c3 r]]; try done.
    cbn [lower_string]. rewrite byte_226_lower, byte_132_lower, byte_170_lower.
    by destruct (_ && _ && _).
  - destruct (Ascii.eqb p "s"); [| done].
    destruct s as [| c2 r]; [done |].
    cbn [lower_string]. rewrite byte_197_lower, byte_191_lower.
    by destruct (_ && _).
Qed.

Lemma fold_literal_lower (p s : string) :
  fold_literal p (lower_string s) = lower_string <$> fold_literal p s.
Proof.
  revert s. induction p as [| a p IH]; intros s; [done |].
  cbn [fold_literal]. rewrite fold_char_lower.
  destruct (fold_char a s) as [s' |]; [apply IH | done].
Qed.

Lemma skip_spaces_lower (s : string) :
  skip_spaces (lower_string s) = lower_string (skip_spaces s).
Proof.
  induction s as [| c s IH]; [done |].
  cbn [lower_string skip_spaces]. rewrite is_space_lower.
  by destruct (is_space c).
Qed.

Lemma spaces1_lower (s : string) :
  spaces1 (lower_string s) = lower_string <$> spaces1 s.
Proof.
  destruct s as [| c s]; [done |].
  cbn [lower_string spaces1]. rewrite is_space_lower.
  destruct (is_space c); [| done]. simpl. by rewrite skip_spaces_lower.
Qed.

Lemma span_digits_lower (s : string) :
  span_digits (lower_string s)
  = (lower_string (span_digits s).1, lower_string (span_digits s).2).
Proof.
  induction s as [| c s IH]; [done |].
  cbn [lower_string span_digits]. rewrite is_digit_lower.
  destruct (is_digit c) eqn:E; [| done].
  rewrite IH. destruct (span_digits s) as [d r]. simpl.
  by rewrite (digit_lower c E).
Qed.

Lemma mention_halves (s : string) :
  mention s =
  match s with
  | String "<" (String "@" s1) => digits_then_close (strip_bang s1)
  | _ => None
  end.
Proof. reflexivity. Qed.

Lemma strip_bang_lower (s : string) :
  strip_bang (lower_string s) = lower_string (strip_bang s).
Proof.
  destruct s as [| c r]; [done |].
  destruct c as [[] [] [] [] [] [] [] []]; reflexivity.
Qed.

Lemma digits_then_close_lower (s : string) :
  digits_then_close (lower_string s) = digits_then_close s.
Proof.
  unfold digits_then_close. rewrite span_digits_lower.
  pose proof (span_digits_digits s) as Hd.
  destruct (span_digits s) as [d r]. simpl in *.
  rewrite (lower_digits d Hd).
  destruct d as [| x d]; [done |].
  destruct r as [| c r]; [done |].
  cbn [lower_string].
  destruct c as [[] [] [] [] [] [] [] []]; reflexivity.
Qed.

Lemma mention_lower (s : string) : mention (lower_string s) = mention s.
Proof.
  rewrite !mention_halves.
  destruct s as [| c1 s]; [done |].
  destruct s as [| c2 s1].
  { destruct c1 as [[] [] [] [] [] [] [] []]; reflexivity. }
  assert (H : digits_then_close (strip_bang (lower_string s1))
              = digits_then_close (strip_bang s1)).
  { by rewrite strip_bang_lower, digits_then_close_lower. }
  cbn [lower_string].
  destruct c1 as [[] [] [] [] [] [] [] []]; try reflexivity.
  destruct c2 as [[] [] [] [] [] [] [] []]; try reflexivity.
  exact H.
Qed.

Lemma match_here_lower (lit s : string) :
  match_here lit (lower_string s) = match_here lit s.
Proof.
  unfold match_here. rewrite fold_literal_lower.
  destruct (fold_literal lit s) as [s1 |]; [| done]. simpl.
  rewrite spaces1_lower.
  destruct (spaces1 s1) as [s2 |]; [| done]. simpl.
  apply mention_lower.
Qed.

Lemma FindStringSubmatch_lower (lit s : string) :
  FindStringSubmatch lit (lower_string s) = FindStringSubmatch lit s.
Proof.
  induction s as [| c s IH].
  - done.
  - change (lower_string (String c s)) with (String (to_lower c) (lower_string s)).
    cbn [FindStringSubmatch].
    change (String (to_lower c) (lower_string s)) with (lower_string (String c s)).
    rewrite match_here_lower.
    destruct (match_here lit (String c s)); [done | exact IH].
Qed.

(** X3.  Matching does not look at the case of ASCII letters: two messages
    that differ only in letter case give the same result with either pattern,
    the same capture or no match at all. *)
Theorem patterns_ignore_letter_case (s1 s2 : string) :
  lower_string s1 = lower_string s2 ->
  giveRepPattern s1 = giveRepPattern s2 /\ thanksPattern s1 = thanksPattern s2.
Proof.
  intros H. unfold giveRepPattern, thanksPattern.
  split.
  - by rewrite <- (FindStringSubmatch_lower _ s1), <- (FindStringSubmatch_lower _ s2), H.
  - by rewrite <- (FindStringSubmatch_lower _ s1), <- (FindStringSubmatch_lower _ s2), H.
Qed.

Lemma patterns_ignore_letter_case_witness :
  lower_string "Many THANKS <@42>, !GiveRep <@43>"
    = lower_string "many thanks <@42>, !giverep <@43>" /\
  giveRepPattern "Many THANKS <@42>, !GiveRep <@43>"
    = giveRepPattern "many thanks <@42>, !giverep <@43>".
Proof.
  assert (H : lower_string "Many THANKS <@42>, !GiveRep <@43>"
              = lower_string "many thanks <@42>, !giverep <@43>") by reflexivity.
  split; [exact H |].
  exact (proj1 (patterns_ignore_letter_case _ _ H)).
Defined.

(** ** Channel Scanner: what a page does to the delta *)

(** The loop body on a message that is not old, in one line. *)
Lemma scanMessage_recipient P conf since msg processed rc :
  is_old P since msg = false ->
  scanMessage P conf since msg processed rc =
  Next (if is_counted P since msg then wrap64 (processed + 1) else processed,
        if is_counted P since msg
        then match recipient conf msg with
             | Some u => incr rc u
             | None => rc
             end
        else rc).
Proof.
  unfold is_old, is_counted, scanMessage, recipient, guard_user.
  destruct (Timestamp_Parse P (Timestamp msg)) as [t |]; [| done].
  intros ->. simpl.
  destruct (Bot (Author msg)); [done |].
  destruct (giveRepPattern (Content msg)).
  { by destruct (negb _ && negb _). }
  destruct (negb (DisableThanksDetection conf)); [| done].
  destruct (thanksPattern (Content msg)); [| done].
  by destruct (negb _ && negb _).
Qed.

Lemma grants_to_cons P conf since u m l :
  grants_to P conf since u (m :: l)
  = if is_counted P since m
    then match recipient conf m with
         | Some v => if decide (v = u) then m :: grants_to P conf since u l
                     else grants_to P conf since u l
         | None => grants_to P conf since u l
         end
    else grants_to P conf since u l.
Proof.
  unfold grants_to. rewrite filter_cons.
  destruct (is_counted P since m).
  - destruct (recipient conf m) as [v |].
    + destruct (decide (v = u)) as [-> | Hne].
      * by rewrite decide_True.
      * rewrite decide_False; [done |]. intros [_ [=]]. done.
    + rewrite decide_False; [done |]. by intros [_ ?].
  - rewrite decide_False; [done |]. by intros [? _].
Qed.

Lemma in_int64_lookup0_incr (m : gmap Z Z) (k u : Z) :
  in_int64 (lookup0 m u) -> in_int64 (lookup0 (incr m k) u).
Proof.
  intros H. destruct (decide (k = u)) as [-> | Hne].
  - rewrite lookup0_incr_eq. apply wrap64_range.
  - by rewrite lookup0_incr_ne.
Qed.

Lemma scanPage_grants P conf since (u : Z) msgs :
  Forall (fun m => is_old P since m = false) msgs ->
  forall processed (rc : gmap Z Z),
    in_int64 (lookup0 rc u) ->
    lookup0 (flow_val (scanPage P conf since msgs processed rc)).2 u
    = wrap64 (lookup0 rc u + Z.of_nat (length (grants_to P conf since u msgs))).
Proof.
  induction 1 as [| m msgs Hm _ IH]; intros processed rc Hr.
  - simpl. by rewrite Z.add_0_r, wrap64_id.
  - cbn [scanPage]. rewrite (scanMessage_recipient P conf since m processed rc Hm).
    rewrite grants_to_cons.
    destruct (is_counted P since m); [| by apply IH].
    destruct (recipient conf m) as [v |]; [| by apply IH].
    rewrite IH by (by apply in_int64_lookup0_incr).
    destruct (decide (v = u)) as [-> | Hne].
    + rewrite lookup0_incr_eq, wrap64_add_l. f_equal. simpl length. lia.
    + by rewrite lookup0_incr_ne.
Qed.

(** X4.  Over a page without old messages, each user's delta grows by the
    number of messages that are counted (timestamp parsed), written by a human,
    and whose applied pattern names that user, the user being neither 0 nor the
    author; the count is kept in 64-bit arithmetic. *)
Theorem page_delta_counts_grants P conf since (u : Z) msgs processed (rc : gmap Z Z) :
  Forall (fun m => is_old P since m = false) msgs ->
  in_int64 (lookup0 rc u) ->
  lookup0 (flow_val (scanPage P conf since msgs processed rc)).2 u
  = wrap64 (lookup0 rc u + Z.of_nat (length (grants_to P conf since u msgs))).
Proof. intros Hold Hr. by apply scanPage_grants. Qed.

Lemma page_delta_counts_grants_witness :
  Forall (fun m => is_old samplePlatform 100 m = false) pageA /\
  in_int64 (lookup0 ∅ 42) /\
  lookup0 (flow_val (scanPage samplePlatform confDefault 100 pageA 0 ∅)).2 42
  = wrap64 (lookup0 ∅ 42
            + Z.of_nat (length (grants_to samplePlatform confDefault 100 42 pageA))).
Proof.
  assert (H1 : Forall (fun m => is_old samplePlatform 100 m = false) pageA)
    by (repeat constructor).
  assert (H2 : in_int64 (lookup0 ∅ 42)) by (vm_compute; split; congruence).
  split; [exact H1 |]. split; [exact H2 |].
  exact (page_delta_counts_grants samplePlatform confDefault 100 42 pageA 0 ∅ H1 H2).
Defined.

(** X5.  Messages whose timestamp does not parse are invisible to the scan
    of a page: dropping them from the page changes neither the count, nor the
    delta, nor whether the scan stops in the page. *)
Theorem unparseable_messages_are_skipped P conf since msgs processed (rc : gmap Z Z) :
  scanPage P conf since (filter (parses P) msgs) processed rc
  = scanPage P conf since msgs processed rc.
Proof.
  revert processed rc. induction msgs as [| m msgs IH]; intros processed rc; [done |].
  rewrite filter_cons. destruct (decide (parses P m)) as [Hp | Hp].
  - cbn [scanPage].
    destruct (scanMessage P conf since m processed rc) as [r | [p' rc']]; [done |].
    apply IH.
  - assert (E : Timestamp_Parse P (Timestamp m) = None).
    { unfold parses in Hp. destruct (Timestamp_Parse P (Timestamp m)); [| done].
      exfalso. apply Hp. by eexists. }
    cbn [scanPage].
    unfold scanMessage. rewrite E. apply IH.
Qed.

Lemma scanMessage_no_grant P conf since msg processed (rc : gmap Z Z) :
  Bot (Author msg) = true \/
  (giveRepPattern (Content msg) = None /\ DisableThanksDetection conf = true) ->
  (flow_val (scanMessage P conf since msg processed rc)).2 = rc.
Proof.
  intros H. unfold scanMessage.
  destruct (Timestamp_Parse P (Timestamp msg)) as [t |]; [| done].
  destruct (t <? since); [done |].
  destruct H as [-> | [-> ->]]; [done |].
  by destruct (Bot (Author msg)).
Qed.

(** X6.  A page in which every message is written by a bot, or fails the
    explicit pattern while thanks detection is off, leaves the delta exactly as
    it was, old messages or not: bots earn nobody a point, and with detection
    off only the explicit command does. *)
Theorem bots_and_disabled_thanks_give_nothing
    P conf since msgs processed (rc : gmap Z Z) :
  Forall (fun m => Bot (Author m) = true \/
                   (giveRepPattern (Content m) = None /\
                    DisableThanksDetection conf = true)) msgs ->
  (flow_val (scanPage P conf since msgs processed rc)).2 = rc.
Proof.
  intros H. revert processed.
  induction H as [| m msgs Hm _ IH]; intros processed; [done |].
  cbn [scanPage].
  pose proof (scanMessage_no_grant P conf since m processed rc Hm) as Hrc.
  destruct (scanMessage P conf since m processed rc) as [[p' rc'] | [p' rc']];
    simpl in Hrc; subst rc'; [done | apply IH].
Qed.

Lemma bots_and_disabled_thanks_give_nothing_witness :
  Forall (fun m => Bot (Author m) = true \/
                   (giveRepPattern (Content m) = None /\
                    DisableThanksDetection confNoThanks = true))
    [ mkMessage 12 7 "thanks <@42>" "200"; mkMessage 11 8 "Thanks <@!42>" "150" ] /\
  (flow_val (scanPage samplePlatform confNoThanks 100
               [ mkMessage 12 7 "thanks <@42>" "200";
                 mkMessage 11 8 "Thanks <@!42>" "150" ] 0 {[ 42 := 1 ]})).2
  = {[ 42 := 1 ]}.
Proof.
  assert (H : Forall (fun m => Bot (Author m) = true \/
                   (giveRepPattern (Content m) = None /\
                    DisableThanksDetection confNoThanks = true))
    [ mkMessage 12 7 "thanks <@42>" "200"; mkMessage 11 8 "Thanks <@!42>" "150" ]).
  { repeat constructor; right; split; reflexivity. }
  split; [exact H |].
  exact (bots_and_disabled_thanks_give_nothing samplePlatform confNoThanks 100 _ 0
           {[ 42 := 1 ]} H).
Defined.

(** ** Channel Scanner: who can appear in a delta *)

Lemma MustParseInt_capture_nonneg (lit s d : string) :
  FindStringSubmatch lit s = Some d -> 0 <= MustParseInt d.
Proof.
  intros H. destruct (FindStringSubmatch_digits lit s d H) as [Hne Hd].
  destruct (ParseInt_digits d Hne Hd) as (v & _ & Hpos & Hp).
  unfold MustParseInt. rewrite Hp. destruct (v <? 2 ^ 63); lia.
Qed.

Lemma recipient_positive conf msg u : recipient conf msg = Some u -> 0 < u.
Proof.
  unfold recipient, guard_user.
  destruct (Bot (Author msg)); [done |].
  destruct (giveRepPattern (Content msg)) as [m1 |] eqn:Eg.
  - pose proof (MustParseInt_capture_nonneg _ _ _ Eg) as Hn.
    destruct (Z.eqb_spec (MustParseInt m1) 0); [done |].
    destruct (negb (MustParseInt m1 =? _)); simpl; [| done].
    intros [= <-]. lia.
  - destruct (negb (DisableThanksDetection conf)); [| done].
    destruct (thanksPattern (Content msg)) as [m1 |] eqn:Et; [| done].
    pose proof (MustParseInt_capture_nonneg _ _ _ Et) as Hn.
    destruct (Z.eqb_spec (MustParseInt m1) 0); [done |].
    destruct (negb (MustParseInt m1 =? _)); simpl; [| done].
    intros [= <-]. lia.
Qed.

Lemma incr_keys (rc : gmap Z Z) (u : Z) :
  keys_positive rc -> 0 < u -> keys_positive (incr rc u).
Proof.
  intros Hk Hu k. unfold incr. destruct (decide (u = k)) as [-> | Hne].
  - done.
  - rewrite lookup_insert_ne by done. apply Hk.
Qed.

Lemma scanMessage_keys P conf since msg processed (rc : gmap Z Z) :
  keys_positive rc ->
  keys_positive (flow_val (scanMessage P conf since msg processed rc)).2.
Proof.
  intros Hk. destruct (is_old P since msg) eqn:E.
  - by rewrite scanMessage_old.
  - rewrite scanMessage_recipient by done. simpl.
    destruct (is_counted P since msg); [| done].
    destruct (recipient conf msg) as [u |] eqn:Er; [| done].
    apply incr_keys; [done |]. by eapply recipient_positive.
Qed.

Lemma scanMessage_range P conf since msg processed (rc : gmap Z Z) :
  (forall u, in_int64 (lookup0 rc u)) ->
  forall u, in_int64 (lookup0 (flow_val (scanMessage P conf since msg processed rc)).2 u).
Proof.
  intros Hr u. destruct (is_old P since msg) eqn:E.
  - by rewrite scanMessage_old.
  - rewrite scanMessage_recipient by done. simpl.
    destruct (is_counted P since msg); [| done].
    destruct (recipient conf msg) as [v |]; [| done].
    by apply in_int64_lookup0_incr.
Qed.

Lemma scanPage_keys P conf since msgs :
  forall processed (rc : gmap Z Z),
    keys_positive rc -> (forall u, in_int64 (lookup0 rc u)) ->
    keys_positive (flow_val (scanPage P conf since msgs processed rc)).2 /\
    (forall u, in_int64 (lookup0 (flow_val (scanPage P conf since msgs processed rc)).2 u)).
Proof.
  induction msgs as [| m msgs IH]; intros processed rc Hk Hr; [done |].
  cbn [scanPage].
  pose proof (scanMessage_keys P conf since m processed rc Hk) as Hk1.
  pose proof (scanMessage_range P conf since m processed rc Hr) as Hr1.
  destruct (scanMessage P conf since m processed rc) as [[p' rc'] | [p' rc']];
    simpl in Hk1, Hr1; [done | by apply IH].
Qed.

Lemma processChannel_loop_keys P conf channelID since script :
  forall w processed (rc : gmap Z Z) beforeID,
    keys_positive rc -> (forall u, in_int64 (lookup0 rc u)) ->
    let d := (processChannel_loop P conf channelID since script w processed rc
                beforeID).1.1.1.2 in
    keys_positive d /\ (forall u, in_int64 (lookup0 d u)).
Proof.
  induction script as [| f script IH]; intros w processed rc beforeID Hk Hr; simpl.
  - by destruct (ctx_poll w) as [[e |] w1].
  - destruct (ctx_poll w) as [[e |] w1]; [done |].
    destruct f as [messages | err]; [| done].
    destruct (Z.of_nat (length messages) =? 0); [done |].
    destruct (scanPage_keys P conf since messages processed rc Hk Hr) as [Hk1 Hr1].
    destruct (scanPage P conf since messages processed rc) as [[p' rc'] | [p' rc']];
      simpl in Hk1, Hr1; [done |].
    by apply IH.
Qed.

Lemma keys_positive_empty : keys_positive ∅.
Proof. intros k. rewrite lookup_empty. by intros [? ?]. Qed.

Lemma range_empty : forall u, in_int64 (lookup0 ∅ u).
Proof. intros u. rewrite lookup0_empty. apply in_int64_0. Qed.

Lemma channel_delta_users_positive_aux P conf channelID since script w :
  let d := (processChannel P conf channelID since script w).1.1.1.2 in
  keys_positive d /\ (forall u, in_int64 (lookup0 d u)).
Proof.
  exact (processChannel_loop_keys P conf channelID since script w 0 ∅ 0
           keys_positive_empty range_empty).
Qed.

(** X7.  The delta that the scan of a channel returns, complete or cut
    short by an error, only has entries for positive user identifiers (never
    for user 0), and each entry fits 64 bits. *)
Theorem channel_delta_users_are_positive P conf channelID since script w :
  let d := (processChannel P conf channelID since script w).1.1.1.2 in
  keys_positive d /\ d !! 0 = None /\ (forall u, in_int64 (lookup0 d u)).
Proof.
  intros d.
  destruct (channel_delta_users_positive_aux P conf channelID since script w)
    as [Hk Hr].
  fold d in Hk, Hr.
  split; [done |]. split; [| done].
  destruct (d !! 0) eqn:E; [| done].
  assert (0 < 0) by (apply Hk; by eexists). lia.
Qed.

Lemma merge_fold_keys (l : list (Z * Z)) :
  Forall (fun kv => 0 < kv.1) l ->
  forall m, keys_positive m -> keys_positive (fold_left merge_step l m).
Proof.
  induction 1 as [| [k v] l Hk _ IH]; intros m Hm; [done |].
  simpl. apply IH. intros j. unfold merge_step. simpl.
  destruct (decide (k = j)) as [<- | Hne]; [done |].
  rewrite lookup_insert_ne by done. apply Hm.
Qed.

Lemma aggregate_keys P (rc changes : gmap Z Z) :
  map_range_ok P -> keys_positive rc -> keys_positive changes ->
  keys_positive (aggregate P rc changes).
Proof.
  intros Hok Hrc Hch. rewrite aggregate_fold. apply merge_fold_keys; [| done].
  apply Forall_forall. intros [k v] Hin. simpl.
  rewrite (Hok changes) in Hin. apply elem_of_map_to_list in Hin.
  apply Hch. by eexists.
Qed.

Lemma scanChannels_keys P conf channelID channels :
  map_range_ok P ->
  forall script w stats (rc : gmap Z Z) ce,
    keys_positive rc -> (forall u, in_int64 (lookup0 rc u)) ->
    let d := scan_delta (scanChannels P conf channelID channels script w stats rc ce) in
    keys_positive d /\ (forall u, in_int64 (lookup0 d u)).
Proof.
  intros Hok. induction channels as [| c rest IH]; intros script w stats rc ce Hk Hr.
  - done.
  - simpl. destruct (negb (Channel_Type c =? ChannelTypeGuildText)); [by apply IH |].
    destruct (channel_delta_users_positive_aux P conf (Channel_ID c) (fiveYearsAgo P)
                script w) as [Hk1 Hr1].
    destruct (processChannel P conf (Channel_ID c) (fiveYearsAgo P) script w)
      as [[[[processed changes] [err |]] script1] w1]; simpl in Hk1, Hr1.
    + by apply IH.
    + apply IH; [by apply aggregate_keys | by apply aggregate_range].
Qed.

(** ** Orchestrator: what reaches the store *)

(** X8.  Every call that a run makes to the reputation store is for the
    community of the run, for a positive user identifier, and with an amount
    that is not zero and fits 64 bits; in particular user 0 is never written
    and no call is a no-op. *)
Theorem store_calls_are_sound P gs conf channelID script c st :
  map_range_ok P ->
  Forall (fun x => x.1.1.1 = Guild_ID gs /\ 0 < call_user x /\
                   call_amount x ≠ 0 /\ in_int64 (call_amount x))
    (store_calls (run_events P gs conf channelID script c st)).
Proof.
  intros Hok.
  destruct (run_store_calls P gs conf channelID script c st)
    as (evs2 & -> & Hc & Hg & _).
  set (agg := scan_delta (scanPhase P gs conf channelID script (world0 c st))) in *.
  destruct (scanChannels_keys P conf channelID (Channels gs) Hok script
              (emit EvGo (emit EvWgAdd (world0 c st))) stats0 ∅ 0
              keys_positive_empty range_empty) as [Hk Hr].
  fold (scanPhase P gs conf channelID script (world0 c st)) in Hk, Hr.
  fold agg in Hk, Hr.
  apply Forall_forall. intros x Hx.
  split; [by eapply (proj1 (Forall_forall _ _) Hg) |].
  assert (Hin : call_entry x ∈ nonzero (map_range P agg)).
  { rewrite <- Hc. by apply list_elem_of_fmap_2. }
  unfold nonzero in Hin. apply list_elem_of_filter in Hin as [Hnz Hin].
  rewrite (Hok agg) in Hin. apply elem_of_map_to_list in Hin.
  unfold call_entry in *. simpl in *.
  split; [apply Hk; by eexists |]. split; [done |].
  specialize (Hr (call_user x)). unfold lookup0, call_user in Hr.
  rewrite Hin in Hr. exact Hr.
Qed.

Lemma store_calls_are_sound_witness :
  map_range_ok samplePlatform /\
  Forall (fun x => x.1.1.1 = Guild_ID sampleGuild /\ 0 < call_user x /\
                   call_amount x ≠ 0 /\ in_int64 (call_amount x))
    (store_calls (run_events samplePlatform sampleGuild confDefault 77 sampleScript
                    None [])).
Proof.
  split; [exact samplePlatform_ok |].
  exact (store_calls_are_sound samplePlatform sampleGuild confDefault 77 sampleScript
           None [] samplePlatform_ok).
Defined.

Example sample_store_calls :
  store_calls (run_events samplePlatform sampleGuild confDefault 77 sampleScript None [])
  = [(900, 42, 3, None)].
Proof. vm_compute. reflexivity. Qed.

(** ** Orchestrator: channels *)

(** X9.  Channels that are not text channels play no part in a run: the
    result, the rest of the history and the trace are those of the run over the
    text channels alone. *)
Theorem non_text_channels_are_ignored
    P conf channelID channels script w stats (rc : gmap Z Z) ce :
  scanChannels P conf channelID channels script w stats rc ce
  = scanChannels P conf channelID (filter is_text channels) script w stats rc ce.
Proof.
  revert script w stats rc ce.
  induction channels as [| c rest IH]; intros script w stats rc ce; [done |].
  rewrite filter_cons. unfold is_text at 1.
  destruct (Z.eqb_spec (Channel_Type c) ChannelTypeGuildText) as [E | E].
  - rewrite decide_True by done. cbn [scanChannels].
    rewrite (proj2 (Z.eqb_eq _ _) E). cbn [negb].
    destruct (processChannel P conf (Channel_ID c) (fiveYearsAgo P) script w)
      as [[[[processed changes] [err |]] script1] w1]; apply IH.
  - rewrite decide_False by done. cbn [scanChannels].
    rewrite (proj2 (Z.eqb_neq _ _) E). cbn [negb]. apply IH.
Qed.

Lemma channelDeltas_scans P conf channelID channels :
  forall script w,
    channelDeltas P conf channelID channels script w
    = (channelScans P conf channelID channels script w).*2.
Proof.
  induction channels as [| c rest IH]; intros script w; [done |].
  simpl. destruct (negb (Channel_Type c =? ChannelTypeGuildText)); [apply IH |].
  destruct (processChannel P conf (Channel_ID c) (fiveYearsAgo P) script w)
    as [[[[processed changes] [err |]] script1] w1]; [apply IH |].
  rewrite fmap_cons. simpl. f_equal. apply IH.
Qed.

Lemma scanChannels_errors P conf channelID channels :
  forall script w stats (rc : gmap Z Z) ce,
    in_int64 ce ->
    let n := length (channelScans P conf channelID channels script w) in
    Z.of_nat n <= count_text channels /\
    scan_errors (scanChannels P conf channelID channels script w stats rc ce)
    = wrap64 (ce + (count_text channels - Z.of_nat n)).
Proof.
  induction channels as [| c rest IH]; intros script w stats rc ce Hce.
  - simpl. unfold count_text, scan_errors. simpl. split; [lia |].
    by rewrite Z.add_0_r, wrap64_id.
  - cbn [scanChannels channelScans]. rewrite count_text_cons.
    destruct (Channel_Type c =? ChannelTypeGuildText); cbn [negb].
    + destruct (processChannel P conf (Channel_ID c) (fiveYearsAgo P) script w)
        as [[[[processed changes] [err |]] script1] w1].
      * match goal with
        | |- context [scanChannels _ _ _ _ ?s ?w' ?st ?r (wrap64 (ce + 1))] =>
            destruct (IH s w' st r (wrap64 (ce + 1)) (wrap64_range _)) as [H1 H2]
        end.
        split; [lia |]. rewrite H2, wrap64_add_l. f_equal; lia.
      * match goal with
        | |- context [scanChannels _ _ _ _ ?s ?w' ?st ?r ce] =>
            destruct (IH s w' st r ce Hce) as [H1 H2]
        end.
        split; [simpl length; lia |]. rewrite H2. simpl length. f_equal; lia.
    + destruct (IH script w stats rc ce Hce) as [H1 H2].
      split; [lia |]. rewrite H2. f_equal; lia.
Qed.

(** X10.  In a run every text channel is accounted for once: it is either
    scanned without error and merged, or counted as a channel error.  The
    channel-error counter is the number of text channels minus the number of
    channels merged. *)
Theorem channel_errors_account_for_failed_scans P gs conf channelID script w :
  let merged :=
    length (channelScans P conf channelID (Channels gs) script
              (emit EvGo (emit EvWgAdd w))) in
  Z.of_nat merged <= count_text (Channels gs) /\
  scan_errors (scanPhase P gs conf channelID script w)
  = wrap64 (count_text (Channels gs) - Z.of_nat merged).
Proof.
  intros merged. unfold scanPhase.
  destruct (scanChannels_errors P conf channelID (Channels gs) script
              (emit EvGo (emit EvWgAdd w)) stats0 ∅ 0 in_int64_0) as [H1 H2].
  split; [exact H1 |]. rewrite H2. f_equal; lia.
Qed.

Example sample_failed_channel :
  let r := scanPhase samplePlatform sampleGuild confDefault 77
             [inl pageA; inl []; inr (errOther "HTTP 403")] (world0 None []) in
  scan_errors r = 1 /\ map_to_list (scan_delta r) = [(42, 2)].
Proof. vm_compute. split; reflexivity. Qed.

(** ** Orchestrator: the statistics of a run *)

Lemma sumZ_cons (x : Z) (l : list Z) : sumZ (x :: l) = x + sumZ l.
Proof. reflexivity. Qed.

Lemma sumZ_perm (l1 l2 : list Z) : l1 ≡ₚ l2 -> sumZ l1 = sumZ l2.
Proof.
  induction 1 as [| x l1 l2 _ IH | x y l | l1 l2 l3 _ IH1 _ IH2].
  - done.
  - by rewrite !sumZ_cons, IH.
  - rewrite !sumZ_cons. lia.
  - by rewrite IH1.
Qed.

Lemma repCount_fold (l : list (Z * Z)) :
  forall acc, in_int64 acc ->
    fold_left (fun repCount (kv : Z * Z) => wrap64 (repCount + kv.2)) l acc
    = wrap64 (acc + sumZ l.*2).
Proof.
  induction l as [| [k v] l IH]; intros acc Hacc.
  - unfold sumZ. simpl. by rewrite Z.add_0_r, wrap64_id.
  - cbn [fold_left]. rewrite IH by apply wrap64_range. rewrite wrap64_add_l.
    rewrite fmap_cons, sumZ_cons. cbn [snd]. f_equal; lia.
Qed.

Lemma repCountOf_total P (d : gmap Z Z) :
  map_range_ok P -> repCountOf P d = wrap64 (delta_total d).
Proof.
  intros Hok. unfold repCountOf, delta_total.
  rewrite repCount_fold by apply in_int64_0. rewrite Z.add_0_l.
  f_equal. apply sumZ_perm. by rewrite (Hok d).
Qed.

Lemma scanChannels_stats P conf channelID channels :
  map_range_ok P ->
  forall script w stats (rc : gmap Z Z) ce,
    in_int64 (MessagesProcessed stats) -> in_int64 (RepGiven stats) ->
    let scans := channelScans P conf channelID channels script w in
    let s := scan_stats (scanChannels P conf channelID channels script w stats rc ce) in
    MessagesProcessed s = wrap64 (MessagesProcessed stats + sumZ scans.*1) /\
    RepGiven s = wrap64 (RepGiven stats + sumZ (delta_total <$> scans.*2)) /\
    UsersAffected s = UsersAffected stats.
Proof.
  intros Hok.
  induction channels as [| c rest IH]; intros script w stats rc ce Hm Hr.
  - simpl. unfold sumZ, scan_stats. simpl.
    by rewrite !Z.add_0_r, !wrap64_id.
  - cbn [scanChannels channelScans].
    destruct (negb (Channel_Type c =? ChannelTypeGuildText)); [by apply IH |].
    destruct (processChannel P conf (Channel_ID c) (fiveYearsAgo P) script w)
      as [[[[processed changes] [err |]] script1] w1]; [by apply IH |].
    match goal with
    | |- context [scanChannels _ _ _ _ ?s ?w' ?st ?r ce] =>
        destruct (IH s w' st r ce) as (H1 & H2 & H3);
          [apply wrap64_range | apply wrap64_range |]
    end.
    cbv zeta. rewrite H1, H2, H3. cbn [MessagesProcessed RepGiven UsersAffected Add].
    rewrite !fmap_cons, !sumZ_cons. cbn [fst snd].
    rewrite (repCountOf_total P changes Hok).
    split; [| split; [| done]].
    + rewrite wrap64_add_l. f_equal; lia.
    + rewrite wrap64_add_r, wrap64_add_l. f_equal; lia.
Qed.

(** X11.  The statistics that a run returns count the channels scanned
    without error and nothing else: the messages processed are the sum of the
    counts of these channels, and the reputation given is the sum of all entries
    of their deltas, both in 64-bit arithmetic.  What a failed channel had
    processed before its error is not counted. *)
Theorem run_stats_sum_the_merged_channels P gs conf channelID script w :
  map_range_ok P ->
  let scans := channelScans P conf channelID (Channels gs) script
                 (emit EvGo (emit EvWgAdd w)) in
  let s := run_stats (reprocessMessages P gs conf channelID script w) in
  MessagesProcessed s = wrap64 (sumZ scans.*1) /\
  RepGiven s = wrap64 (sumZ (delta_total <$> scans.*2)).
Proof.
  intros Hok scans s.
  destruct (reprocessMessages_phases P gs conf channelID script w) as (Hs & _ & _).
  fold s in Hs.
  destruct (scanChannels_stats P conf channelID (Channels gs) Hok script
              (emit EvGo (emit EvWgAdd w)) stats0 ∅ 0 in_int64_0 in_int64_0)
    as (H1 & H2 & _).
  fold (scanPhase P gs conf channelID script w) in H1, H2. fold scans in H1, H2.
  rewrite Hs. cbn [MessagesProcessed RepGiven SetUsers].
  split; [by rewrite H1 | by rewrite H2].
Qed.

Lemma run_stats_sum_the_merged_channels_witness :
  map_range_ok samplePlatform /\
  MessagesProcessed
    (run_stats (reprocessMessages samplePlatform sampleGuild confDefault 77
                  sampleScript (world0 None [])))
  = wrap64 (sumZ (channelScans samplePlatform confDefault 77 (Channels sampleGuild)
                    sampleScript (emit EvGo (emit EvWgAdd (world0 None [])))).*1).
Proof.
  split; [exact samplePlatform_ok |].
  exact (proj1 (run_stats_sum_the_merged_channels samplePlatform sampleGuild
                  confDefault 77 sampleScript (world0 None []) samplePlatform_ok)).
Defined.

Example sample_run_stats :
  Get (run_stats (reprocessMessages samplePlatform sampleGuild confDefault 77
                    sampleScript (world0 None [])))
  = (4, 3, 1).
Proof. vm_compute. reflexivity. Qed.

(** ** Channel Scanner: pacing *)

Lemma ctx_poll_trace_eq w : trace (ctx_poll w).2 = trace w ++ [EvPoll].
Proof. apply ctx_poll_trace. Qed.

Lemma processChannel_loop_paced P conf channelID since script :
  forall w processed (rc : gmap Z Z) beforeID,
    exists evs,
      trace (processChannel_loop P conf channelID since script w processed rc
               beforeID).2 = trace w ++ evs /\
      well_paced channelID evs = true /\
      Forall (fun e => silent_event e = true) evs.
Proof.
  induction script as [| f script IH]; intros w processed rc beforeID; simpl.
  - pose proof (ctx_poll_trace_eq w) as Hp.
    destruct (ctx_poll w) as [[e |] w1]; simpl in *.
    + exists [EvPoll]. by repeat split; try constructor.
    + exists [EvPoll; EvFetch channelID 100 beforeID].
      split; [by rewrite Hp, <- app_assoc |].
      split; [simpl; by rewrite Z.eqb_refl | by repeat constructor].
  - pose proof (ctx_poll_trace_eq w) as Hp.
    destruct (ctx_poll w) as [[e |] w1]; simpl in *.
    + exists [EvPoll]. by repeat split; try constructor.
    + assert (Hshort : exists evs,
                trace (emit (EvFetch channelID 100 beforeID) w1) = trace w ++ evs /\
                well_paced channelID evs = true /\
                Forall (fun e => silent_event e = true) evs).
      { exists [EvPoll; EvFetch channelID 100 beforeID].
        split; [by rewrite trace_emit, Hp, <- app_assoc |].
        split; [simpl; by rewrite Z.eqb_refl | by repeat constructor]. }
      destruct f as [messages | err]; [| exact Hshort].
      destruct (Z.of_nat (length messages) =? 0); [exact Hshort |].
      destruct (scanPage P conf since messages processed rc) as [[p' rc'] | [p' rc']];
        [exact Hshort |].
      destruct (IH (emit (EvSleep 1000) (emit (EvFetch channelID 100 beforeID) w1))
                  p' rc' (lastID messages)) as (evs & Ht & Hw & Hs).
      exists (EvPoll :: EvFetch channelID 100 beforeID :: EvSleep 1000 :: evs).
      split; [| split].
      * rewrite Ht, !trace_emit, Hp. by rewrite <- !app_assoc.
      * cbn [well_paced]. by rewrite !Z.eqb_refl, Hw.
      * by repeat constructor.
Qed.

(** X12.  The scan of a channel paces its requests: whatever the history
    and the moment of a cancellation, its trace consists of rounds of one check
    of the context, one fetch of at most 100 messages of that channel and one
    sleep of a second, and ends with a check alone or with a check and a fetch.
    So every fetch directly follows a check of the context, two fetches are
    always a second apart, and the scan itself sends no message. *)
Theorem channel_scan_is_paced P conf channelID since script w :
  exists evs,
    trace (processChannel P conf channelID since script w).2 = trace w ++ evs /\
    well_paced channelID evs = true /\
    Forall (fun e => silent_event e = true) evs.
Proof. apply processChannel_loop_paced. Qed.

Example sample_channel_trace :
  trace (processChannel samplePlatform confDefault 1 100 sampleScript (world0 None [])).2
  = [EvPoll; EvFetch 1 100 0; EvSleep 1000; EvPoll; EvFetch 1 100 11].
Proof. vm_compute. reflexivity. Qed.

(** ** Channel Scanner: a whole history *)

Lemma ctx_poll_live w :
  cancel w = None -> ctx_poll w = (None, emit EvPoll w).
Proof. unfold ctx_poll. by intros ->. Qed.

(** X13.  Paging does not change what a scan computes.  When the context is
    not cancelled and the history of a channel comes as non-empty pages followed
    by the end of the history, the scan returns, without error, exactly the
    count and the delta of one pass over all the messages in order: it stops
    inside the first page that holds an old message, and otherwise reads
    everything. *)
Theorem paged_scan_is_one_pass
    P conf channelID since pages rest w processed (rc : gmap Z Z) beforeID :
  cancel w = None ->
  Forall (fun page : list Message => page ≠ []) pages ->
  (rest = [] \/ exists rest', rest = inl [] :: rest') ->
  (processChannel_loop P conf channelID since ((inl <$> pages) ++ rest) w
     processed rc beforeID).1.1
  = (flow_val (scanPage P conf since (concat pages) processed rc), None).
Proof.
  intros Hc Hpages Hrest. revert w processed rc beforeID Hc.
  induction Hpages as [| page pages Hne _ IH]; intros w processed rc beforeID Hc.
  - simpl. destruct Hrest as [-> | [rest' ->]]; simpl; by rewrite (ctx_poll_live w Hc).
  - rewrite fmap_cons. simpl. rewrite (ctx_poll_live w Hc).
    destruct (Z.eqb_spec (Z.of_nat (length page)) 0) as [E | _].
    { destruct page; [done | simpl in E; lia]. }
    rewrite scanPage_app.
    destruct (scanPage P conf since page processed rc) as [[p' rc'] | [p' rc']];
      [done |].
    by apply IH.
Qed.

Lemma paged_scan_is_one_pass_witness :
  cancel (world0 None []) = None /\
  Forall (fun page : list Message => page ≠ []) [pageA; pageB] /\
  (processChannel_loop samplePlatform confDefault 1 100
     ((inl <$> [pageA; pageB]) ++ [inl []]) (world0 None []) 0 ∅ 0).1.1
  = (flow_val (scanPage samplePlatform confDefault 100 (concat [pageA; pageB]) 0 ∅),
     None).
Proof.
  assert (H1 : cancel (world0 None []) = None) by reflexivity.
  assert (H2 : Forall (fun page : list Message => page ≠ []) [pageA; pageB])
    by (repeat constructor; discriminate).
  split; [exact H1 |]. split; [exact H2 |].
  refine (paged_scan_is_one_pass samplePlatform confDefault 1 100 [pageA; pageB]
            [inl []] (world0 None []) 0 ∅ 0 H1 H2 _).
  right. by eexists.
Defined.

Lemma scanPage_next P conf since msgs :
  Forall (fun m => is_old P since m = false) msgs ->
  forall processed (rc : gmap Z Z),
    scanPage P conf since msgs processed rc
    = Next (flow_val (scanPage P conf since msgs processed rc)).
Proof.
  induction 1 as [| m msgs Hm _ IH]; intros processed rc; [done |].
  cbn [scanPage]. rewrite (scanMessage_recipient P conf since m processed rc Hm).
  apply IH.
Qed.

Lemma cursors_app (a b : list Event) : cursors (a ++ b) = cursors a ++ cursors b.
Proof.
  induction a as [| e a IH]; [done |].
  destruct e; simpl; by rewrite ?IH.
Qed.

(** X14.  The cursor moves back through the history.  In a scan that is not
    cancelled and meets no old message, the first fetch asks for the newest
    messages (cursor 0, or the cursor the loop starts with) and every later
    fetch asks for the messages before the last message of the page just read;
    there is one fetch per page and one more that finds the end. *)
Theorem cursor_follows_oldest_message
    P conf channelID since pages rest w processed (rc : gmap Z Z) beforeID :
  cancel w = None ->
  Forall (fun page : list Message => page ≠ []) pages ->
  Forall (Forall (fun m => is_old P since m = false)) pages ->
  (rest = [] \/ exists rest', rest = inl [] :: rest') ->
  exists evs,
    trace (processChannel_loop P conf channelID since ((inl <$> pages) ++ rest) w
             processed rc beforeID).2 = trace w ++ evs /\
    cursors evs = beforeID :: (lastID <$> pages).
Proof.
  intros Hc Hpages Hold Hrest. revert w processed rc beforeID Hc Hold.
  induction Hpages as [| page pages Hne _ IH]; intros w processed rc beforeID Hc Hold.
  - exists [EvPoll; EvFetch channelID 100 beforeID].
    split; [| done].
    destruct Hrest as [-> | [rest' ->]]; simpl; rewrite (ctx_poll_live w Hc); simpl;
      by rewrite <- app_assoc.
  - apply Forall_cons in Hold as [Hpage Hold].
    rewrite fmap_cons. simpl. rewrite (ctx_poll_live w Hc).
    destruct (Z.eqb_spec (Z.of_nat (length page)) 0) as [E | _].
    { destruct page; [done | simpl in E; lia]. }
    rewrite (scanPage_next P conf since page Hpage).
    destruct (flow_val (scanPage P conf since page processed rc)) as [p' rc'].
    destruct (IH (emit (EvSleep 1000) (emit (EvFetch channelID 100 beforeID)
                                          (emit EvPoll w)))
                p' rc' (lastID page)) as (evs & Ht & Hcur); [done | done |].
    exists (EvPoll :: EvFetch channelID 100 beforeID :: EvSleep 1000 :: evs).
    split.
    + rewrite Ht, !trace_emit. by rewrite <- !app_assoc.
    + simpl. by rewrite Hcur.
Qed.

Lemma cursor_follows_oldest_message_witness :
  cancel (world0 None []) = None /\
  Forall (fun page : list Message => page ≠ []) [pageA; pageB] /\
  Forall (Forall (fun m => is_old samplePlatform 100 m = false)) [pageA; pageB] /\
  exists evs,
    trace (processChannel_loop samplePlatform confDefault 1 100
             ((inl <$> [pageA; pageB]) ++ []) (world0 None []) 0 ∅ 0).2
      = trace (world0 None []) ++ evs /\
    cursors evs = 0 :: (lastID <$> [pageA; pageB]).
Proof.
  assert (H1 : cancel (world0 None []) = None) by reflexivity.
  assert (H2 : Forall (fun page : list Message => page ≠ []) [pageA; pageB])
    by (repeat constructor; discriminate).
  assert (H3 : Forall (Forall (fun m => is_old samplePlatform 100 m = false))
                 [pageA; pageB]) by (repeat constructor).
  split; [exact H1 |]. split; [exact H2 |]. split; [exact H3 |].
  exact (cursor_follows_oldest_message samplePlatform confDefault 1 100 [pageA; pageB]
           [] (world0 None []) 0 ∅ 0 H1 H2 H3 (or_introl eq_refl)).
Defined.

(** ** Orchestrator: a run without failures *)

Lemma processChannel_loop_clean P conf channelID since script :
  forall w processed (rc : gmap Z Z) beforeID,
    cancel w = None -> Forall is_page script ->
    let r := processChannel_loop P conf channelID since script w processed rc beforeID in
    r.1.1.2 = None /\ cancel r.2 = None /\ Forall is_page r.1.2.
Proof.
  induction script as [| f script IH]; intros w processed rc beforeID Hc Hs; simpl.
  - by rewrite (ctx_poll_live w Hc).
  - rewrite (ctx_poll_live w Hc).
    apply Forall_cons in Hs as [Hf Hs].
    destruct f as [messages | err]; [| done].
    destruct (Z.of_nat (length messages) =? 0); [done |].
    destruct (scanPage P conf since messages processed rc) as [[p' rc'] | [p' rc']];
      [done |].
    by apply IH.
Qed.

Lemma scanChannels_clean P conf channelID channels :
  forall script w stats (rc : gmap Z Z) ce,
    cancel w = None -> Forall is_page script ->
    let r := scanChannels P conf channelID channels script w stats rc ce in
    scan_errors r = ce /\ extends_by silent_event w r.2.
Proof.
  induction channels as [| c rest IH]; intros script w stats rc ce Hc Hs.
  - split; [done | apply extends_refl].
  - cbn [scanChannels].
    destruct (negb (Channel_Type c =? ChannelTypeGuildText)); [by apply IH |].
    destruct (processChannel_loop_clean P conf (Channel_ID c) (fiveYearsAgo P) script
                w 0 ∅ 0 Hc Hs) as (He & Hc1 & Hs1).
    destruct (processChannel_loop_paced P conf (Channel_ID c) (fiveYearsAgo P) script
                w 0 ∅ 0) as (evs & Ht & _ & Hsil).
    unfold processChannel.
    destruct (processChannel_loop P conf (Channel_ID c) (fiveYearsAgo P) script w 0 ∅ 0)
      as [[[[processed changes] err] script1] w1]. simpl in He, Hc1, Hs1, Ht. subst err.
    match goal with
    | |- context [scanChannels _ _ _ _ ?s ?w' ?st ?r ce] =>
        destruct (IH s w' st r ce) as [H1 H2]; [done | done |]
    end.
    cbv zeta. split; [exact H1 |].
    eapply extends_trans; [| exact H2].
    eapply extends_trans; [by exists evs |].
    eapply extends_trans; by apply extends_emit.
Qed.

Lemma applyChanges_clean (g channelID : Z) (l : list (Z * Z)) :
  forall w uu ue,
    Forall (fun a => a = None) (stores w) ->
    let r := applyChanges g channelID l w uu ue in
    r.1.2 = ue /\ extends_by silent_event w r.2.
Proof.
  induction l as [| [u a] l IH]; intros w uu ue Hst.
  - split; [done | apply extends_refl].
  - cbn [applyChanges]. destruct (a =? 0); [by apply IH |].
    unfold insertUpdateUserRep.
    destruct (stores w) as [| r rest] eqn:E.
    + match goal with
      | |- context [applyChanges _ _ _ ?w' ?x ue] =>
          destruct (IH w' x ue) as [H1 H2]; [simpl; by rewrite E |]
      end.
      cbv zeta. split; [exact H1 |].
      eapply extends_trans; [| exact H2]. by apply extends_emit.
    + apply Forall_cons in Hst as [-> Hrest].
      match goal with
      | |- context [applyChanges _ _ _ ?w' ?x ue] =>
          destruct (IH w' x ue) as [H1 H2]; [done |]
      end.
      cbv zeta. split; [exact H1 |].
      eapply extends_trans; [| exact H2].
      exists [EvStore g u a None]. split; [done | by constructor].
Qed.

(** X15.  A run without failures reports no error.  When the context is
    never cancelled, every fetch is answered and the store accepts every call,
    the orchestrator counts no channel error and no user error and never calls
    sendErrorMessage: it posts no error message and no summary.  (The progress
    updates of the reporter are not events of the orchestrator; they are posted
    all the same.) *)
Theorem run_without_failures_reports_no_error P gs conf channelID script st :
  Forall is_page script ->
  Forall (fun a => a = None) st ->
  scan_errors (scanPhase P gs conf channelID script (world0 None st)) = 0 /\
  (persistPhase P gs conf channelID script (world0 None st)).1.2 = 0 /\
  Forall (fun e => silent_event e = true)
    (run_events P gs conf channelID script None st).
Proof.
  intros Hs Hst.
  destruct (scanChannels_clean P conf channelID (Channels gs) script
              (emit EvGo (emit EvWgAdd (world0 None st))) stats0 ∅ 0 eq_refl Hs)
    as [Hce (evs1 & Ht1 & Hf1)].
  fold (scanPhase P gs conf channelID script (world0 None st)) in Hce, Ht1.
  destruct (scanPhase_extends P gs conf channelID script (world0 None st))
    as (_ & _ & _ & Hstores).
  set (sp := scanPhase P gs conf channelID script (world0 None st)) in *.
  destruct (applyChanges_clean (Guild_ID gs) channelID (map_range P (scan_delta sp))
              (emit EvWait (emit EvClose sp.2)) 0 0) as [Hue (evs2 & Ht2 & Hf2)].
  { simpl. by rewrite Hstores. }
  split; [exact Hce |]. split; [exact Hue |].
  unfold run_events.
  destruct (reprocessMessages_phases P gs conf channelID script (world0 None st))
    as (_ & _ & Htr).
  rewrite Htr. unfold persistPhase. fold sp. rewrite Hce, Hue. simpl.
  rewrite Ht2, !trace_emit, Ht1. simpl.
  constructor; [done |]. constructor; [done |].
  rewrite !Forall_app. repeat split; try done; by repeat constructor.
Qed.

Lemma run_without_failures_reports_no_error_witness :
  Forall is_page sampleScript /\
  Forall (fun a : option error => a = None) [None; None] /\
  Forall (fun e => silent_event e = true)
    (run_events samplePlatform sampleGuild confDefault 77 sampleScript None [None; None]).
Proof.
  assert (H1 : Forall is_page sampleScript) by (repeat constructor).
  assert (H2 : Forall (fun a : option error => a = None) [None; None])
    by (repeat constructor).
  split; [exact H1 |]. split; [exact H2 |].
  exact (proj2 (proj2 (run_without_failures_reports_no_error samplePlatform sampleGuild
                         confDefault 77 sampleScript [None; None] H1 H2))).
Defined.

(** ** Orchestrator and Reporter: order of events *)

Lemma orch_step_late e rest s s' :
  late_event e = true ->
  orch_step e rest s = Some s' ->
  orch s' = rest /\ rep s' = rep s /\ wg s' = wg s /\ posted s' = posted s.
Proof. destruct e; simpl; try done; by intros _ [= <-]. Qed.

Lemma orch_step_late_enabled e rest s :
  late_event e = true -> is_Some (orch_step e rest s).
Proof. destruct e; simpl; try done; by eexists. Qed.

Lemma orch_step_scan_enabled e rest s :
  scan_event e = true -> is_Some (orch_step e rest s).
Proof. destruct e; simpl; try done; by eexists. Qed.

Lemma run_state_step tail s s' :
  Forall (fun e => late_event e = true) tail ->
  run_state tail s -> step s s' -> run_state tail s'.
Proof.
  intros Htail Hinv Hstep.
  destruct Hinv as
    [ s evs Ho Hevs Hrep Hwg Hstop
    | s evs Ho Hevs Hrep Hwg Hstop
    | s evs r Ho Hevs Hrep Hwg Hstop
    | s Ho Hrw Hstop
    | s [pre Ho] Hrep Hwg ].
  - destruct Hstep as [s e rest s' He Hs | s r0 post r' Hr _ | s r0 Hr _];
      try congruence.
    rewrite Ho in He. injection He as <- <-. simpl in Hs. injection Hs as <-.
    eapply rs_added; simpl; try done. lia.
  - destruct Hstep as [s e rest s' He Hs | s r0 post r' Hr _ | s r0 Hr _];
      try congruence.
    rewrite Ho in He. injection He as <- <-. simpl in Hs. injection Hs as <-.
    eapply rs_scanning; simpl; done.
  - destruct Hstep as [s e rest s' He Hs | s r0 post r' Hr Ht | s r0 Hr Hst].
    + destruct evs as [| e0 evs]; simpl in Ho; rewrite Ho in He;
        injection He as <- <-.
      * simpl in Hs. injection Hs as <-.
        eapply rs_waiting; simpl; try done.
        left. split; [by exists r | done].
      * apply Forall_cons in Hevs as [He0 Hevs].
        destruct (orch_step_scan _ _ _ _ He0 Hs) as (H1 & H2 & H3 & H4 & _).
        eapply rs_scanning; try done.
        -- by rewrite H2.
        -- by rewrite H3.
        -- by rewrite H4.
    + eapply rs_scanning; simpl; done.
    + congruence.
  - destruct Hstep as [s e rest s' He Hs | s r0 post r' Hr Ht | s r0 Hr Hst].
    + rewrite Ho in He. injection He as <- <-. simpl in Hs.
      destruct (Z.eqb_spec (wg s) 0) as [Hz | Hnz]; [| done].
      injection Hs as <-.
      destruct Hrw as [[_ Hw] | [Hterm _]]; [lia |].
      apply rs_persisting; simpl; try done. by exists [].
    + eapply rs_waiting; simpl; try done.
      destruct Hrw as [[_ Hw] | [Hterm _]]; [| congruence].
      left. split; [by eexists | done].
    + eapply rs_waiting; simpl; try done.
      destruct Hrw as [[_ Hw] | [Hterm _]]; [| congruence].
      right. split; [done | lia].
  - destruct Hstep as [s e rest s' He Hs | s r0 post r' Hr _ | s r0 Hr _];
      try congruence.
    assert (Hlate : late_event e = true).
    { rewrite Ho, He in Htail. apply Forall_app in Htail as [_ Ht].
      by apply Forall_cons in Ht as [? _]. }
    destruct (orch_step_late _ _ _ _ Hlate Hs) as (H1 & H2 & H3 & _).
    apply rs_persisting.
    + exists (pre ++ [e]). rewrite H1, Ho, He. by rewrite <- app_assoc.
    + by rewrite H2.
    + by rewrite H3.
Qed.

Lemma run_state_rtc tail s s' :
  Forall (fun e => late_event e = true) tail ->
  run_state tail s -> rtc step s s' -> run_state tail s'.
Proof.
  intros Htail Hinv Hsteps. induction Hsteps as [| s s1 s2 Hstep _ IH]; [done |].
  apply IH. by eapply run_state_step.
Qed.

Lemma persist_late e : persist_event e = true -> late_event e = true.
Proof. by destruct e. Qed.

(** The tail of a run and the state in which the run starts. *)
Lemma run_state_start P gs conf channelID script c st :
  exists tail,
    Forall (fun e => late_event e = true) tail /\
    store_calls tail = store_calls (run_events P gs conf channelID script c st) /\
    run_state tail (system0 (run_events P gs conf channelID script c st)).
Proof.
  destruct (run_trace_shape P gs conf channelID script c st)
    as (evs1 & evs2 & tail & Hev & Hf1 & Hf2 & Hft & Htail & _).
  exists (evs2 ++ EvSetUsers (persistPhase P gs conf channelID script (world0 c st)).1.1
               :: tail).
  split; [| split].
  - apply Forall_app. split.
    + eapply Forall_impl; [exact Hf2 | apply persist_late].
    + constructor; [done |]. eapply Forall_impl; [exact Hft | apply persist_late].
  - rewrite Hev.
    change (EvWgAdd :: EvGo :: evs1 ++ EvClose :: EvWait :: evs2
            ++ EvSetUsers (persistPhase P gs conf channelID script (world0 c st)).1.1
               :: tail)
      with ([EvWgAdd; EvGo] ++ evs1 ++ [EvClose; EvWait]
            ++ (evs2 ++ EvSetUsers
                  (persistPhase P gs conf channelID script (world0 c st)).1.1 :: tail)).
    rewrite (store_calls_app [EvWgAdd; EvGo]), (store_calls_app evs1),
      (store_calls_app [EvClose; EvWait]), (store_calls_scan evs1 Hf1).
    done.
  - by eapply (rs_init _ (system0 (run_events P gs conf channelID script c st)) evs1).
Qed.

Lemma late_not_go e : late_event e = true -> not_go e = true.
Proof. by destruct e. Qed.

Lemma run_state_store tail s :
  run_state tail s -> rep s ≠ Terminated -> store_calls (orch s) = store_calls tail.
Proof.
  intros Hinv Hrep.
  destruct Hinv as
    [ s evs Ho Hevs _ _ _ | s evs Ho Hevs _ _ _ | s evs r Ho Hevs _ _ _
    | s Ho _ _ | s _ Ht _ ]; [rewrite Ho .. | by rewrite Ho | congruence].
  - change (EvWgAdd :: EvGo :: evs ++ EvClose :: EvWait :: tail)
      with ([EvWgAdd; EvGo] ++ evs ++ [EvClose; EvWait] ++ tail).
    by rewrite !store_calls_app, (store_calls_scan evs Hevs).
  - change (EvGo :: evs ++ EvClose :: EvWait :: tail)
      with ([EvGo] ++ evs ++ [EvClose; EvWait] ++ tail).
    by rewrite !store_calls_app, (store_calls_scan evs Hevs).
  - change (evs ++ EvClose :: EvWait :: tail)
      with (evs ++ [EvClose; EvWait] ++ tail).
    by rewrite !store_calls_app, (store_calls_scan evs Hevs).
Qed.

(** X16.  The store is written only after the reporter has returned.  In
    every state that a run can reach, under any scheduling of the reporter, as
    long as the reporter has not returned no call to the reputation store has
    been made: all the calls of the run still lie ahead of the orchestrator. *)
Theorem store_is_written_after_reporter_returns
    P gs conf channelID script c st (s : system) :
  rtc step (system0 (run_events P gs conf channelID script c st)) s ->
  rep s ≠ Terminated ->
  store_calls (orch s) = store_calls (run_events P gs conf channelID script c st).
Proof.
  intros Hsteps Hrep.
  destruct (run_state_start P gs conf channelID script c st) as (tail & Hl & Hst & H0).
  rewrite <- Hst. apply run_state_store; [| done].
  by eapply run_state_rtc.
Qed.

Lemma done_step s s' :
  rep s = Terminated -> Forall (fun e => not_go e = true) (orch s) -> step s s' ->
  rep s' = Terminated /\ Forall (fun e => not_go e = true) (orch s') /\
  posted s' = posted s.
Proof.
  intros Hrep Ho Hstep.
  destruct Hstep as [s e rest s' He Hs | s r0 post r' Hr _ | s r0 Hr _];
    try congruence.
  rewrite He in Ho. apply Forall_cons in Ho as [He0 Hrest].
  destruct (orch_step_not_go _ _ _ _ He0 Hs) as (H1 & H2 & H3).
  by rewrite H1, H2, H3.
Qed.

Lemma done_rtc s s' :
  rep s = Terminated -> Forall (fun e => not_go e = true) (orch s) -> rtc step s s' ->
  rep s' = Terminated /\ posted s' = posted s.
Proof.
  intros Hrep Ho Hsteps. induction Hsteps as [| s s1 s2 Hstep _ IH]; [done |].
  destruct (done_step s s1 Hrep Ho Hstep) as (H1 & H2 & H3).
  destruct (IH H1 H2) as [H4 H5]. split; [done | congruence].
Qed.

Lemma run_state_done tail s :
  Forall (fun e => late_event e = true) tail ->
  run_state tail s -> rep s = Terminated ->
  Forall (fun e => not_go e = true) (orch s).
Proof.
  intros Htail Hinv Hrep.
  assert (Hng : Forall (fun e => not_go e = true) tail).
  { eapply Forall_impl; [exact Htail | apply late_not_go]. }
  destruct Hinv as
    [ s evs Ho _ Hr _ _ | s evs Ho _ Hr _ _ | s evs r Ho _ Hr _ _
    | s Ho _ _ | s [pre Ho] _ _ ]; try congruence.
  - rewrite Ho. by constructor.
  - rewrite Ho in Hng. by apply Forall_app in Hng as [_ ?].
Qed.

(** X17.  The reporter never posts after it has returned.  Once a run has
    reached a state in which the reporter has returned, the list of updates
    posted stays as it is in every later state, and the reporter is not started
    again. *)
Theorem no_post_after_reporter_returns
    P gs conf channelID script c st (s s' : system) :
  rtc step (system0 (run_events P gs conf channelID script c st)) s ->
  rep s = Terminated ->
  rtc step s s' ->
  rep s' = Terminated /\ posted s' = posted s.
Proof.
  intros Hsteps Hrep Hlater.
  destruct (run_state_start P gs conf channelID script c st) as (tail & Hl & _ & H0).
  apply done_rtc; [done | | done].
  eapply run_state_done; [exact Hl | | done].
  by eapply run_state_rtc.
Qed.

Lemma sampleMid_reached : rtc step (system0 sampleEvents) sampleMid.
Proof.
  apply (run_moves_reachable [MoveOrch; MoveOrch; MoveTick]). vm_compute. reflexivity.
Qed.

Lemma sampleStopped_reached : rtc step (system0 sampleEvents) sampleStopped.
Proof.
  apply (run_moves_reachable sampleMovesToStop). vm_compute. reflexivity.
Qed.

Lemma sampleFinal_after_stopped : rtc step sampleStopped sampleFinal.
Proof.
  apply (run_moves_reachable (replicate 3 MoveOrch)). vm_compute. reflexivity.
Qed.

Lemma store_is_written_after_reporter_returns_witness :
  rtc step (system0 sampleEvents) sampleMid /\
  rep sampleMid ≠ Terminated /\
  store_calls (orch sampleMid) = store_calls sampleEvents.
Proof.
  assert (H : rep sampleMid ≠ Terminated) by (vm_compute; discriminate).
  split; [exact sampleMid_reached |]. split; [exact H |].
  exact (store_is_written_after_reporter_returns samplePlatform sampleGuild confDefault
           77 sampleScript None [] sampleMid sampleMid_reached H).
Defined.

Lemma no_post_after_reporter_returns_witness :
  rtc step (system0 sampleEvents) sampleStopped /\
  rep sampleStopped = Terminated /\
  rtc step sampleStopped sampleFinal /\
  posted sampleFinal = posted sampleStopped.
Proof.
  assert (H : rep sampleStopped = Terminated) by reflexivity.
  split; [exact sampleStopped_reached |]. split; [exact H |].
  split; [exact sampleFinal_after_stopped |].
  exact (proj2 (no_post_after_reporter_returns samplePlatform sampleGuild confDefault
                  77 sampleScript None [] sampleStopped sampleFinal
                  sampleStopped_reached H sampleFinal_after_stopped)).
Defined.

(** ** Orchestrator and Reporter: progress *)

Lemma orch_step_orch e rest s s' : orch_step e rest s = Some s' -> orch s' = rest.
Proof.
  destruct e; simpl; try (by intros [= <-]).
  destruct (wg s =? 0); [by intros [= <-] | done].
Qed.

(** The orchestrator can always perform its next event, except that
    [wg.Wait()] waits for a reporter that still runs; and then the stop channel
    is closed, so the reporter can return. *)
Lemma run_state_enabled tail s e rest :
  Forall (fun e => late_event e = true) tail ->
  run_state tail s ->
  orch s = e :: rest ->
  is_Some (orch_step e rest s) \/
  (e = EvWait /\ (exists r, rep s = Running r) /\ stopChan s = true).
Proof.
  intros Htail Hinv He.
  destruct Hinv as
    [ s evs Ho Hevs _ _ _ | s evs Ho Hevs _ _ _ | s evs r Ho Hevs _ _ _
    | s Ho Hrw Hstop | s [pre Ho] _ Hwg ].
  - rewrite Ho in He. injection He as <- <-. left. by eexists.
  - rewrite Ho in He. injection He as <- <-. left. by eexists.
  - destruct evs as [| e0 evs]; simpl in Ho; rewrite Ho in He; injection He as <- <-.
    + left. by eexists.
    + apply Forall_cons in Hevs as [He0 _]. left. by apply orch_step_scan_enabled.
  - rewrite Ho in He. injection He as <- <-.
    destruct Hrw as [[Hr Hw] | [Hterm Hw]].
    + by right.
    + left. simpl. rewrite Hw. by eexists.
  - left. apply orch_step_late_enabled.
    rewrite Ho, He in Htail. apply Forall_app in Htail as [_ Ht].
    by apply Forall_cons in Ht as [? _].
Qed.

Lemma run_state_waiting tail s rest r :
  run_state tail s -> orch s = EvWait :: rest -> rep s = Running r ->
  wg s = 1 /\ stopChan s = true.
Proof.
  intros Hinv He Hr.
  destruct Hinv as
    [ s evs Ho _ _ _ _ | s evs Ho _ _ _ _ | s evs r0 Ho Hevs _ _ _
    | s Ho Hrw Hstop | s _ Hrep _ ]; try congruence.
  - destruct evs as [| e0 evs]; simpl in Ho; rewrite Ho in He; [done |].
    injection He as -> _. by apply Forall_cons in Hevs as [? _].
  - destruct Hrw as [[_ Hw] | [Hterm _]]; [done | congruence].
Qed.

(** X18.  A run never deadlocks, and the reporter cannot hold it up.  In
    every state that a run can reach, under any scheduling, if the orchestrator
    has an event left then either the orchestrator can perform that event now,
    or the event is [wg.Wait()], the reporter still runs and the stop channel is
    closed: the reporter can then return, and once it has returned the
    orchestrator can pass [wg.Wait()]. *)
Theorem run_never_deadlocks P gs conf channelID script c st (s : system) e rest :
  rtc step (system0 (run_events P gs conf channelID script c st)) s ->
  orch s = e :: rest ->
  (exists s', orch_step e rest s = Some s' /\ step s s') \/
  (e = EvWait /\
   exists r,
     rep s = Running r /\ stopChan s = true /\
     let s1 := {| orch := orch s; rep := Terminated; shared := shared s;
                  stopChan := stopChan s; wg := wg s - 1; posted := posted s |} in
     step s s1 /\
     exists s2, orch_step EvWait rest s1 = Some s2 /\ step s1 s2).
Proof.
  intros Hsteps E.
  destruct (run_state_start P gs conf channelID script c st) as (tail & Hl & _ & H0).
  pose proof (run_state_rtc tail _ s Hl H0 Hsteps) as Hinv.
  destruct (run_state_enabled tail s e rest Hl Hinv E)
    as [[s' Hs] | (-> & [r Hr] & Hstop)].
  - left. exists s'. split; [done |]. by eapply step_orch.
  - right. split; [done |]. exists r.
    destruct (run_state_waiting tail s rest r Hinv E Hr) as [Hwg _].
    split; [done |]. split; [done |]. cbv zeta.
    split; [by eapply step_stop |].
    eexists. split.
    + simpl. rewrite Hwg. reflexivity.
    + eapply step_orch; [exact E |]. simpl. by rewrite Hwg.
Qed.

Lemma sampleWaiting_reached : rtc step (system0 sampleEvents) sampleWaiting.
Proof.
  apply (run_moves_reachable sampleMovesToWait). vm_compute. reflexivity.
Qed.

Lemma run_never_deadlocks_witness :
  rtc step (system0 sampleEvents) sampleWaiting /\
  orch sampleWaiting = EvWait :: tl (orch sampleWaiting) /\
  exists r,
    rep sampleWaiting = Running r /\ stopChan sampleWaiting = true /\
    step sampleWaiting
      {| orch := orch sampleWaiting; rep := Terminated; shared := shared sampleWaiting;
         stopChan := stopChan sampleWaiting; wg := wg sampleWaiting - 1;
         posted := posted sampleWaiting |}.
Proof.
  assert (H : orch sampleWaiting = EvWait :: tl (orch sampleWaiting)) by reflexivity.
  split; [exact sampleWaiting_reached |]. split; [exact H |].
  destruct (run_never_deadlocks samplePlatform sampleGuild confDefault 77 sampleScript
              None [] sampleWaiting EvWait (tl (orch sampleWaiting))
              sampleWaiting_reached H)
    as [(s' & Hs & _) | (_ & r & Hr & Hstop & Hstep & _)].
  - exfalso. revert Hs. vm_compute. discriminate.
  - exists r. split; [exact Hr |]. split; [exact Hstop | exact Hstep].
Defined.

Lemma run_state_finish tail :
  Forall (fun e => late_event e = true) tail ->
  forall n s, length (orch s) = n -> run_state tail s ->
    exists s', rtc step s s' /\ orch s' = [] /\ rep s' = Terminated.
Proof.
  intros Htail. induction n as [| n IH]; intros s Hlen Hinv.
  - exists s. split; [apply rtc_refl |].
    destruct (orch s) as [| e rest] eqn:E; [| done].
    split; [done |].
    destruct Hinv as
      [ s evs Ho _ _ _ _ | s evs Ho _ _ _ _ | s evs r Ho _ _ _ _
      | s Ho _ _ | s _ Hrep _ ]; try (rewrite Ho in E; done); [| done].
    rewrite Ho in E. by destruct evs.
  - destruct (orch s) as [| e rest] eqn:E; [done |].
    simpl in Hlen. injection Hlen as Hlen.
    destruct (run_state_enabled tail s e rest Htail Hinv E)
      as [[s1 Hs1] | (-> & [r Hr] & Hstop)].
    + assert (Hstep : step s s1) by (by eapply step_orch).
      destruct (IH s1) as (s' & Hrtc & Hfin).
      * by rewrite (orch_step_orch _ _ _ _ Hs1).
      * by eapply run_state_step.
      * exists s'. split; [by eapply rtc_l | done].
    + set (s1 := {| orch := orch s; rep := Terminated; shared := shared s;
                    stopChan := stopChan s; wg := wg s - 1; posted := posted s |}).
      assert (Hstep1 : step s s1) by (by eapply step_stop).
      pose proof (run_state_step tail s s1 Htail Hinv Hstep1) as Hinv1.
      assert (E1 : orch s1 = EvWait :: rest) by exact E.
      destruct (run_state_enabled tail s1 EvWait rest Htail Hinv1 E1)
        as [[s2 Hs2] | (_ & [r1 Hr1] & _)]; [| done].
      assert (Hstep2 : step s1 s2) by (by eapply step_orch).
      destruct (IH s2) as (s' & Hrtc & Hfin).
      * by rewrite (orch_step_orch _ _ _ _ Hs2).
      * by eapply run_state_step.
      * exists s'. split; [| done].
        eapply rtc_l; [exact Hstep1 |]. by eapply rtc_l.
Qed.

(** X19.  A run can always be completed.  From every state that a run can
    reach, whatever has been scheduled so far, there is a continuation in which
    the orchestrator performs all its remaining events; the reporter has then
    returned.  So neither a reporter that keeps ticking nor one that has ticked
    a lot can keep the run from ending. *)
Theorem run_can_always_finish P gs conf channelID script c st (s : system) :
  rtc step (system0 (run_events P gs conf channelID script c st)) s ->
  exists s', rtc step s s' /\ orch s' = [] /\ rep s' = Terminated.
Proof.
  intros Hsteps.
  destruct (run_state_start P gs conf channelID script c st) as (tail & Hl & _ & H0).
  apply (run_state_finish tail Hl (length (orch s)) s eq_refl).
  by eapply run_state_rtc.
Qed.

Lemma run_can_always_finish_witness :
  rtc step (system0 sampleEvents) sampleMid /\
  exists s', rtc step sampleMid s' /\ orch s' = [] /\ rep s' = Terminated.
Proof.
  split; [exact sampleMid_reached |].
  exact (run_can_always_finish samplePlatform sampleGuild confDefault 77 sampleScript
           None [] sampleMid sampleMid_reached).
Defined.

(** ** formatDuration *)

Lemma durationParts_nonneg (d : Z) :
  0 <= d < 2 ^ 63 ->
  durationParts d
  = (d / Second / 3600, (d / Second / 60) mod 60, (d / Second) mod 60).
Proof.
  intros Hd. unfold durationParts.
  change Hour with 3600000000000. change Minute with 60000000000.
  change Second with 1000000000.
  rewrite (Z.quot_div_nonneg d) by lia.
  rewrite (wrap64_id (d / 3600000000000 * 3600000000000))
    by (unfold in_int64; Z.to_euclidean_division_equations; lia).
  set (d1 := d - d / 3600000000000 * 3600000000000).
  assert (Hd1 : 0 <= d1 < 3600000000000)
    by (subst d1; Z.to_euclidean_division_equations; lia).
  rewrite (wrap64_id d1) by (unfold in_int64; lia).
  rewrite (Z.quot_div_nonneg d1) by lia.
  rewrite (wrap64_id (d1 / 60000000000 * 60000000000))
    by (unfold in_int64; Z.to_euclidean_division_equations; lia).
  set (d2 := d1 - d1 / 60000000000 * 60000000000).
  assert (Hd2 : 0 <= d2 < 60000000000)
    by (subst d2; Z.to_euclidean_division_equations; lia).
  rewrite (wrap64_id d2) by (unfold in_int64; lia).
  rewrite (Z.quot_div_nonneg d2) by lia.
  assert (E : d / 3600000000000 = d / 1000000000 / 3600 /\
              d1 / 60000000000 = (d / 1000000000 / 60) mod 60 /\
              d2 / 1000000000 = (d / 1000000000) mod 60).
  { subst d2 d1. repeat split; Z.to_euclidean_division_equations; lia. }
  destruct E as (-> & -> & ->). reflexivity.
Qed.

(** X20.  For a duration that rounds to [T] whole seconds, [T] not negative,
    formatDuration prints hours, minutes and seconds when there is at least an
    hour, minutes and seconds when there is at least a minute, and seconds alone
    otherwise; minutes and seconds are below 60 and the fields add up to [T]. *)
Theorem formatDuration_splits_the_seconds (Round : Z -> Z -> Z) (d : Z) :
  0 <= Round d Second < 2 ^ 63 ->
  let T := Round d Second / Second in
  formatDuration Round d =
    (if 3600 <=? T then
       (Sprintf_d (T / 3600) ++ "h " ++ Sprintf_d ((T / 60) mod 60) ++ "m "
        ++ Sprintf_d (T mod 60) ++ "s")%string
     else if 60 <=? T then
       (Sprintf_d (T / 60) ++ "m " ++ Sprintf_d (T mod 60) ++ "s")%string
     else (Sprintf_d T ++ "s")%string) /\
  T / 3600 * 3600 + (T / 60) mod 60 * 60 + T mod 60 = T.
Proof.
  intros Hd T. split.
  - unfold formatDuration. rewrite (durationParts_nonneg _ Hd). fold T.
    assert (HT : 0 <= T).
    { subst T. apply Z.div_pos; [lia | by vm_compute]. }
    destruct (Z.leb_spec 3600 T) as [H1 | H1].
    + assert (E : (T / 3600 >? 0) = true)
        by (apply Z.gtb_lt; Z.to_euclidean_division_equations; lia).
      by rewrite E.
    + assert (E : (T / 3600 >? 0) = false).
      { destruct (Z.gtb_spec (T / 3600) 0) as [H | H]; [| done].
        exfalso. Z.to_euclidean_division_equations. lia. }
      rewrite E.
      assert (Em : (T / 60) mod 60 = T / 60)
        by (Z.to_euclidean_division_equations; lia).
      rewrite Em.
      destruct (Z.leb_spec 60 T) as [H2 | H2].
      * assert (E2 : (T / 60 >? 0) = true)
          by (apply Z.gtb_lt; Z.to_euclidean_division_equations; lia).
        by rewrite E2.
      * assert (E2 : (T / 60 >? 0) = false).
        { destruct (Z.gtb_spec (T / 60) 0) as [H | H]; [| done].
          exfalso. Z.to_euclidean_division_equations. lia. }
        rewrite E2. by rewrite (Z.mod_small T 60) by lia.
  - Z.to_euclidean_division_equations. lia.
Qed.

Lemma formatDuration_splits_the_seconds_witness :
  0 <= roundHalfUp 3725400000000 Second < 2 ^ 63 /\
  formatDuration roundHalfUp 3725400000000 = "1h 2m 5s".
Proof.
  assert (H : 0 <= roundHalfUp 3725400000000 Second < 2 ^ 63)
    by (vm_compute; split; congruence).
  split; [exact H |].
  exact (proj1 (formatDuration_splits_the_seconds roundHalfUp 3725400000000 H)).
Defined.

(** X21.  For a duration that rounds to a negative value, formatDuration
    prints the seconds field alone, the remainder below a minute, and drops the
    hours and the minutes: both tests [h > 0] and [m > 0] fail. *)
Theorem formatDuration_negative_keeps_seconds_only (Round : Z -> Z -> Z) (d : Z) :
  - 2 ^ 63 <= Round d Second < 0 ->
  formatDuration Round d
  = (Sprintf_d (Z.quot (Z.rem (Round d Second) Minute) Second) ++ "s")%string.
Proof.
  intros Hd. unfold formatDuration, durationParts.
  set (d0 := Round d Second) in *.
  change Hour with 3600000000000. change Minute with 60000000000.
  change Second with 1000000000.
  rewrite (wrap64_id (Z.quot d0 3600000000000 * 3600000000000))
    by (unfold in_int64; Z.to_euclidean_division_equations; lia).
  set (d1 := d0 - Z.quot d0 3600000000000 * 3600000000000).
  assert (Hd1 : - 3600000000000 < d1 <= 0)
    by (subst d1; Z.to_euclidean_division_equations; lia).
  rewrite (wrap64_id d1) by (unfold in_int64; lia).
  rewrite (wrap64_id (Z.quot d1 60000000000 * 60000000000))
    by (unfold in_int64; Z.to_euclidean_division_equations; lia).
  set (d2 := d1 - Z.quot d1 60000000000 * 60000000000).
  assert (Hd2 : - 60000000000 < d2 <= 0)
    by (subst d2; Z.to_euclidean_division_equations; lia).
  rewrite (wrap64_id d2) by (unfold in_int64; lia).
  assert (E1 : (Z.quot d0 3600000000000 >? 0) = false).
  { destruct (Z.gtb_spec (Z.quot d0 3600000000000) 0) as [H | H]; [| done].
    exfalso. Z.to_euclidean_division_equations. lia. }
  assert (E2 : (Z.quot d1 60000000000 >? 0) = false).
  { destruct (Z.gtb_spec (Z.quot d1 60000000000) 0) as [H | H]; [| done].
    exfalso. Z.to_euclidean_division_equations. lia. }
  rewrite E1, E2.
  assert (E3 : d2 = Z.rem d0 60000000000).
  { subst d2 d1. Z.to_euclidean_division_equations. lia. }
  by rewrite E3.
Qed.

Lemma formatDuration_negative_keeps_seconds_only_witness :
  - 2 ^ 63 <= (fun d _ : Z => d) (-90000000000) Second < 0 /\
  formatDuration (fun d _ => d) (-90000000000) = "-30s".
Proof.
  assert (H : - 2 ^ 63 <= (fun d _ : Z => d) (-90000000000) Second < 0)
    by (vm_compute; split; congruence).
  split; [exact H |].
  exact (formatDuration_negative_keeps_seconds_only (fun d _ => d) (-90000000000) H).
Defined.

(** ** Progress Reporter: the timetable *)

Lemma timetable_succ (k : nat) : timetable (S k) = timetable k + schedule k.
Proof.
  unfold timetable, schedule, Hour, Minute, Second. rewrite Nat2Z.inj_succ.
  repeat match goal with
         | |- context [(?a <? ?b)%nat] => destruct (Nat.ltb_spec a b)
         | |- context [?a <=? ?b] => destruct (Z.leb_spec a b)
         end; lia.
Qed.

Lemma tick_reads_stats stats r post r' :
  tick stats r = Some (post, r') ->
  su_messages post = MessagesProcessed stats /\
  su_rep post = RepGiven stats /\
  su_users post = UsersAffected stats.
Proof.
  unfold tick. simpl.
  destruct (interval_at (currentIntervalIdx r)) as [ci |]; [| done].
  destruct (negb (count ci =? -1) && _).
  - destruct (currentIntervalIdx r <? _).
    + destruct (interval_at _); [| done]. by intros [= <- _].
    + by intros [= <- _].
  - by intros [= <- _].
Qed.

Lemma run_ticks_timetable stats n :
  forall k r posts r',
    reporter_phase k r -> clock r = timetable k ->
    run_ticks stats k n r = Some (posts, r') ->
    forall i p, posts !! i = Some p ->
      elapsed p = timetable (S (k + i)) /\
      su_messages p = MessagesProcessed (stats (k + i)%nat) /\
      su_rep p = RepGiven (stats (k + i)%nat) /\
      su_users p = UsersAffected (stats (k + i)%nat).
Proof.
  induction n as [| n IH]; intros k r posts r' Hph Hclk Hrun i p Hi.
  - simpl in Hrun. injection Hrun as <- <-. done.
  - simpl in Hrun.
    destruct (tick_phase (stats k) k r Hph) as (post & r1 & Ht & He & _ & Hc & Hph1).
    rewrite Ht in Hrun.
    destruct (run_ticks stats (S k) n r1) as [[posts1 r2] |] eqn:Hr; [| done].
    injection Hrun as <- <-.
    assert (He' : elapsed post = timetable (S k)).
    { by rewrite He, Hclk, timetable_succ. }
    destruct i as [| i].
    + simpl in Hi. injection Hi as <-. rewrite Nat.add_0_r.
      split; [done |]. by apply (tick_reads_stats _ r _ r1).
    + simpl in Hi.
      replace (k + S i)%nat with (S k + i)%nat by lia.
      eapply (IH (S k) r1 posts1 r2); try done. by rewrite Hc.
Qed.

(** X22.  The timetable of the reporter.  In a run that is not stopped, the
    update number [i], counted from 1, is posted when [10 i] seconds have
    elapsed for [i <= 5], then a minute apart up to the tenth (5 min 50 s), then
    an hour apart up to the fifteenth (5 h 5 min 50 s), then a day apart; and it
    reports the three counters as the shared statistics hold them at that
    tick. *)
Theorem reporter_timetable (stats : nat -> reprocessStats) (n : nat) posts r :
  run_ticks stats 0 n reporter0 = Some (posts, r) ->
  forall i p, posts !! i = Some p ->
    elapsed p = timetable (S i) /\
    su_messages p = MessagesProcessed (stats i) /\
    su_rep p = RepGiven (stats i) /\
    su_users p = UsersAffected (stats i).
Proof.
  intros Hrun i p Hi.
  exact (run_ticks_timetable stats n 0%nat reporter0 posts r reporter0_phase eq_refl
           Hrun i p Hi).
Qed.

Lemma reporter_timetable_witness :
  match run_ticks (fun _ => stats0) 0 16 reporter0 with
  | Some (posts, _) =>
      match posts !! 15%nat with
      | Some p => elapsed p = (18350 + 86400) * Second
      | None => False
      end
  | None => False
  end.
Proof.
  destruct (run_ticks (fun _ => stats0) 0 16 reporter0) as [[posts r] |] eqn:Hrun;
    [| by vm_compute in Hrun].
  destruct (posts !! 15%nat) as [p |] eqn:Hp.
  - exact (proj1 (reporter_timetable (fun _ => stats0) 16 posts r Hrun 15%nat p Hp)).
  - vm_compute in Hrun. injection Hrun as <- _. by vm_compute in Hp.
Defined.

(** ** The sfstatus command: truncation and messages *)

Lemma string_append_assoc (a b c : string) :
  ((a ++ b) ++ c)%string = (a ++ (b ++ c))%string.
Proof.
  induction a as [| x a IH]; [done |].
  by rewrite !append_cons, IH.
Qed.

Lemma string_append_nil_r (a : string) : (a ++ "")%string = a.
Proof. induction a as [| x a IH]; [done |]. by rewrite append_cons, IH. Qed.

Lemma string_length_append (a b : string) :
  String.length (a ++ b)%string = (String.length a + String.length b)%nat.
Proof.
  induction a as [| x a IH]; [done |].
  rewrite append_cons. simpl. by rewrite IH.
Qed.

Lemma take_bytes_length (n : nat) (s : string) :
  (n <= String.length s)%nat -> String.length (take_bytes n s) = n.
Proof.
  revert s. induction n as [| n IH]; intros s H; [done |].
  destruct s as [| c s]; simpl in *; [lia |]. rewrite IH; lia.
Qed.

Lemma take_bytes_all (s t : string) :
  take_bytes (String.length s) (s ++ t)%string = s.
Proof.
  induction s as [| c s IH]; [done |].
  rewrite append_cons. simpl. by rewrite IH.
Qed.

Lemma take_bytes_take (n : nat) (s t : string) :
  (n <= String.length s)%nat ->
  take_bytes n (take_bytes n s ++ t)%string = take_bytes n s.
Proof.
  intros H. rewrite <- (take_bytes_length n s H) at 1. apply take_bytes_all.
Qed.

(** X23.  truncateString with a bound that is not negative returns a string
    of at most [maxLen + 3] bytes: the string itself when it fits, or else its
    first [maxLen] bytes followed by three dots; truncating the result again
    changes nothing.  With a negative bound it fails on every string. *)
Theorem truncateString_bounds (s : string) (maxLen : Z) :
  (0 <= maxLen ->
   exists t,
     truncateString s maxLen = Some t /\
     Z.of_nat (String.length t) <= maxLen + 3 /\
     (Z.of_nat (String.length s) <= maxLen -> t = s) /\
     (maxLen < Z.of_nat (String.length s) ->
      t = (take_bytes (Z.to_nat maxLen) s ++ "...")%string) /\
     truncateString t maxLen = Some t) /\
  (maxLen < 0 -> truncateString s maxLen = None).
Proof.
  split.
  - intros Hm. unfold truncateString at 1.
    destruct (Z.leb_spec (Z.of_nat (String.length s)) maxLen) as [Hle | Hgt].
    + exists s. split; [done |]. split; [lia |]. split; [done |]. split; [lia |].
      unfold truncateString. by rewrite (proj2 (Z.leb_le _ _) Hle).
    + destruct (Z.ltb_spec maxLen 0) as [? | _]; [lia |].
      set (n := Z.to_nat maxLen).
      assert (Hn : (n <= String.length s)%nat) by lia.
      assert (Hlen : String.length (take_bytes n s ++ "...")%string = (n + 3)%nat).
      { by rewrite string_length_append, take_bytes_length. }
      eexists. split; [done |]. rewrite Hlen.
      split; [lia |]. split; [lia |]. split; [done |].
      unfold truncateString. rewrite Hlen.
      destruct (Z.leb_spec (Z.of_nat (n + 3)) maxLen) as [? | _]; [lia |].
      destruct (Z.ltb_spec maxLen 0) as [? | _]; [lia |].
      fold n. by rewrite take_bytes_take.
  - intros Hm. unfold truncateString.
    destruct (Z.leb_spec (Z.of_nat (String.length s)) maxLen) as [? | _]; [lia |].
    by rewrite (proj2 (Z.ltb_lt _ _) Hm).
Qed.

Lemma truncateString_bounds_witness :
  0 <= 5 /\
  truncateString "Scheduled maintenance" 5 = Some "Sched..." /\
  truncateString "Sched..." 5 = Some "Sched...".
Proof.
  assert (H : 0 <= 5) by lia.
  split; [exact H |].
  destruct (proj1 (truncateString_bounds "Scheduled maintenance" 5) H)
    as (t & Ht & _ & _ & _ & Hidem).
  assert (E : t = "Sched...") by (vm_compute in Ht; congruence).
  rewrite E in Ht, Hidem. split; [exact Ht | exact Hidem].
Defined.

Lemma truncateString_some (s : string) (maxLen : Z) :
  0 <= maxLen ->
  truncateString s maxLen = Some (default s (truncateString s maxLen)).
Proof.
  intros Hm. unfold truncateString.
  destruct (Z.of_nat (String.length s) <=? maxLen); [done |].
  by destruct (Z.ltb_spec maxLen 0) as [? | _]; [lia |].
Qed.

Lemma messagesText_loop_closed (total : Z) (msgs : list GeneralMessage) :
  forall i acc, 0 <= i <= 3 ->
    messagesText_loop total i msgs acc
    = Some (acc ++ concat_strings (messageEntry <$> take (Z.to_nat (3 - i)) msgs)
            ++ (if Z.of_nat (length msgs) >? 3 - i then moreNotice total
                else EmptyString))%string.
Proof.
  induction msgs as [| msg rest IH]; intros i acc Hi.
  - cbn [messagesText_loop]. rewrite take_nil.
    destruct (Z.gtb_spec (Z.of_nat (@length GeneralMessage [])) (3 - i)) as [H | _];
      [simpl in H; lia |].
    cbn [fmap list_fmap concat_strings]. by rewrite append_nil, string_append_nil_r.
  - cbn [messagesText_loop].
    destruct (Z.geb_spec i 3) as [Hge | Hlt].
    + assert (i = 3) by lia. subst i. cbn [Z.sub Z.to_nat Z.opp Z.add Z.pos_sub].
      rewrite take_0. cbn [fmap list_fmap concat_strings]. rewrite append_nil.
      destruct (Z.gtb_spec (Z.of_nat (length (msg :: rest))) (3 - 3)) as [_ | H];
        [done | simpl in H; lia].
    + rewrite (truncateString_some (Body msg) 200) by lia.
      rewrite IH by lia.
      replace (Z.to_nat (3 - i)) with (S (Z.to_nat (3 - (i + 1)))) by lia.
      rewrite firstn_cons, fmap_cons. cbn [concat_strings].
      assert (Ec : (Z.of_nat (length (msg :: rest)) >? 3 - i)
                   = (Z.of_nat (length rest) >? 3 - (i + 1))).
      { simpl length.
        destruct (Z.gtb_spec (Z.of_nat (S (length rest))) (3 - i));
          destruct (Z.gtb_spec (Z.of_nat (length rest)) (3 - (i + 1))); lia. }
      rewrite Ec. unfold messageEntry.
      by rewrite !string_append_assoc.
Qed.

(** X24.  For every parsed status the embed is built without failure.  It
    has the four fixed fields, and one more, "Recent Messages", exactly when
    there are general messages.  That field renders the first three messages
    only, each with its body cut to 200 bytes, followed, when there are more
    than three, by one notice that gives the number of the others. *)
Theorem statusEmbed_renders_three_messages (status : SalesforceStatus) :
  let msgs := GeneralMessages status in
  let text :=
    (concat_strings (messageEntry <$> take 3 msgs)
     ++ (if Z.of_nat (length msgs) >? 3 then moreNotice (Z.of_nat (length msgs))
         else EmptyString))%string in
  exists e,
    statusEmbed status = Some e /\
    Title e = Title (embed_source status) /\
    Color e = Color (embed_source status) /\
    Footer e = Footer (embed_source status) /\
    Fields e = Fields (embed_source status)
               ++ (match msgs with
                   | [] => []
                   | _ :: _ => [ {| Name := "Recent Messages"; Value := text;
                                    Inline := false |} ]
                   end) /\
    (4 <= length (Fields e) <= 5)%nat.
Proof.
  intros msgs text. unfold statusEmbed. fold msgs.
  destruct msgs as [| m rest] eqn:E.
  - simpl. eexists.
    repeat split; first [done | simpl; lia | by rewrite app_nil_r].
  - assert (Hpos : (Z.of_nat (length (m :: rest)) >? 0) = true).
    { apply Z.gtb_lt. simpl length. lia. }
    rewrite Hpos.
    rewrite (messagesText_loop_closed _ (m :: rest) 0 EmptyString) by lia.
    eexists. split; [done |]. cbn [Title Color Footer Fields].
    repeat split; first [done | simpl; lia].
Qed.

Example statusEmbed_five_messages :
  let m := {| Subject := "S"; Body := "B" |} in
  (fun e => Value <$> last (Fields e)) <$>
    statusEmbed {| Key := "NA1"; Location := "NA"; Environment := "production";
                   ReleaseVersion := "v1"; Status := "OK"; IsActive := true;
                   GeneralMessages := [m; m; m; m; m] |}
  = Some (Some ("**S**" ++ nl ++ "B" ++ nl ++ nl ++ "**S**" ++ nl ++ "B" ++ nl ++ nl
                ++ "**S**" ++ nl ++ "B" ++ nl ++ nl ++ nl ++ "...and 2 more messages")%string).
Proof. vm_compute. reflexivity. Qed.

(** ** The sfstatus command: what the colour says *)

(** X25.  The colour of the embed tells the class of the status and nothing
    else: green exactly for "OK", red exactly for a major incident or a
    maintenance, orange exactly for a minor incident or a degradation, and gray
    exactly for every other status string; the comparison is exact, byte by
    byte. *)
Theorem status_colour_classifies (st : string) :
  let c := statusColor (statusVars_source st) in
  (c = 0x2ECC71 <-> st = "OK") /\
  (c = 0xE74C3C <-> st = "MAJOR_INCIDENT_CORE" \/ st = "MAINTENANCE") /\
  (c = 0xF39C12 <-> st = "MINOR_INCIDENT_CORE" \/ st = "PERFORMANCE_DEGRADATION") /\
  (c = 0x95A5A6 <->
     st ≠ "OK" /\ st ≠ "MAJOR_INCIDENT_CORE" /\ st ≠ "MAINTENANCE" /\
     st ≠ "MINOR_INCIDENT_CORE" /\ st ≠ "PERFORMANCE_DEGRADATION").
Proof.
  unfold statusVars_source, statusSwitch.
  destruct (String.eqb_spec st "OK") as [-> | H1].
  { simpl. repeat split; intros; try done; try (by left); try (by right);
      try (by intuition discriminate). }
  destruct (String.eqb_spec st "MAJOR_INCIDENT_CORE") as [-> | H2].
  { simpl. repeat split; intros; try done; try (by left); try (by right);
      try (by intuition discriminate). }
  destruct (String.eqb_spec st "MAINTENANCE") as [-> | H3].
  { simpl. repeat split; intros; try done; try (by left); try (by right);
      try (by intuition discriminate). }
  destruct (String.eqb_spec st "MINOR_INCIDENT_CORE") as [-> | H4].
  { simpl. repeat split; intros; try done; try (by left); try (by right);
      try (by intuition discriminate). }
  destruct (String.eqb_spec st "PERFORMANCE_DEGRADATION") as [-> | H5].
  { simpl. repeat split; intros; try done; try (by left); try (by right);
      try (by intuition discriminate). }
  simpl. repeat split; intros; try done; by intuition discriminate.
Qed.

Example status_is_case_sensitive :
  statusColor (statusVars_source "ok") = 0x95A5A6 /\
  statusColor (statusVars_source "OK ") = 0x95A5A6.
Proof. split; reflexivity. Qed.

(** ** Cancellation: no fetch after the context is done *)

Lemma processChannel_loop_budget P conf channelID since script :
  forall w processed (rc : gmap Z Z) beforeID n e,
    cancel w = Some (n, e) ->
    let r := processChannel_loop P conf channelID since script w processed rc beforeID in
    exists evs,
      trace r.2 = trace w ++ evs /\
      (length (cursors evs) <= n)%nat /\
      cancel r.2 = Some ((n - length (cursors evs))%nat, e).
Proof.
  induction script as [| f script IH]; intros w processed rc beforeID n e Hc;
    cbn [processChannel_loop]; unfold ctx_poll; rewrite Hc.
  - destruct n as [| n].
    + exists [EvPoll]. by repeat split.
    + exists [EvPoll; EvFetch channelID 100 beforeID]. simpl.
      split; [by rewrite <- app_assoc |]. split; [lia |].
      by rewrite Nat.sub_0_r.
  - destruct n as [| n].
    + exists [EvPoll]. by repeat split.
    + set (w1 := emit EvPoll {| cancel := Some (n, e); stores := stores w;
                                trace := trace w |}).
      set (w2 := emit (EvFetch channelID 100 beforeID) w1).
      assert (Hshort : exists evs,
                trace w2 = trace w ++ evs /\
                (length (cursors evs) <= S n)%nat /\
                cancel w2 = Some ((S n - length (cursors evs))%nat, e)).
      { exists [EvPoll; EvFetch channelID 100 beforeID]. simpl.
        split; [by rewrite <- app_assoc |]. split; [lia |].
        by rewrite Nat.sub_0_r. }
      destruct f as [messages | err]; [| exact Hshort].
      destruct (Z.of_nat (length messages) =? 0); [exact Hshort |].
      destruct (scanPage P conf since messages processed rc) as [[p' rc'] | [p' rc']];
        [exact Hshort |].
      destruct (IH (emit (EvSleep 1000) w2) p' rc' (lastID messages) n e eq_refl)
        as (evs & Ht & Hle & Hcan).
      exists (EvPoll :: EvFetch channelID 100 beforeID :: EvSleep 1000 :: evs).
      split; [| split].
      * rewrite Ht. simpl. by rewrite <- !app_assoc.
      * simpl. lia.
      * rewrite Hcan. simpl. done.
Qed.

Lemma scanChannels_budget P conf channelID channels :
  forall script w stats (rc : gmap Z Z) ce n e,
    cancel w = Some (n, e) ->
    let r := scanChannels P conf channelID channels script w stats rc ce in
    exists evs,
      trace r.2 = trace w ++ evs /\
      (length (cursors evs) <= n)%nat /\
      cancel r.2 = Some ((n - length (cursors evs))%nat, e).
Proof.
  induction channels as [| c rest IH]; intros script w stats rc ce n e Hc.
  - exists []. simpl. rewrite app_nil_r, Nat.sub_0_r. by repeat split; try lia.
  - cbn [scanChannels].
    destruct (negb (Channel_Type c =? ChannelTypeGuildText)); [by apply IH |].
    destruct (processChannel_loop_budget P conf (Channel_ID c) (fiveYearsAgo P) script
                w 0 ∅ 0 n e Hc) as (evs & Ht & Hle & Hcan).
    unfold processChannel.
    destruct (processChannel_loop P conf (Channel_ID c) (fiveYearsAgo P) script w 0 ∅ 0)
      as [[[[processed changes] [err |]] script1] w1]; simpl in Ht, Hcan.
    + match goal with
      | |- context [scanChannels _ _ _ _ ?s ?w' ?st ?r ?c'] =>
          destruct (IH s w' st r c' (n - length (cursors evs))%nat e)
            as (evs' & Ht' & Hle' & Hcan'); [exact Hcan |]
      end.
      cbv zeta.
      exists (evs ++ EvSend channelID (NChannelError (Channel_ID c) err) :: evs').
      split; [| split].
      * rewrite Ht'. unfold sendErrorMessage. rewrite trace_emit, Ht.
        by rewrite <- !app_assoc.
      * rewrite cursors_app. simpl. rewrite length_app. lia.
      * rewrite Hcan'. rewrite cursors_app. simpl. rewrite length_app.
        do 2 f_equal. lia.
    + match goal with
      | |- context [scanChannels _ _ _ _ ?s ?w' ?st ?r ?c'] =>
          destruct (IH s w' st r c' (n - length (cursors evs))%nat e)
            as (evs' & Ht' & Hle' & Hcan'); [exact Hcan |]
      end.
      cbv zeta.
      exists (evs ++ EvStatsAdd processed (repCountOf P changes) :: EvSleep 1000 :: evs').
      split; [| split].
      * rewrite Ht'. rewrite !trace_emit, Ht. by rewrite <- !app_assoc.
      * rewrite cursors_app. simpl. rewrite length_app. lia.
      * rewrite Hcan'. rewrite cursors_app. simpl. rewrite length_app.
        do 2 f_equal. lia.
Qed.

Lemma cursors_quiet (evs : list Event) :
  Forall (fun e => late_event e = true) evs -> cursors evs = [].
Proof.
  induction 1 as [| e evs He _ IH]; [done |]. by destruct e.
Qed.

(** X26.  A context that becomes done at its [n]-th check allows at most
    [n] fetches in the whole run, over all channels: every fetch directly
    follows a check that found the context live, and from the check that finds
    it done no history is read any more. *)
Theorem cancelled_run_fetches_within_budget P gs conf channelID script n e st :
  (length (cursors (run_events P gs conf channelID script (Some (n, e)) st)) <= n)%nat.
Proof.
  destruct (scanChannels_budget P conf channelID (Channels gs) script
              (emit EvGo (emit EvWgAdd (world0 (Some (n, e)) st))) stats0 ∅ 0 n e eq_refl)
    as (evs & Ht & Hle & _).
  fold (scanPhase P gs conf channelID script (world0 (Some (n, e)) st)) in Ht.
  destruct (run_trace_shape P gs conf channelID script (Some (n, e)) st)
    as (evs1 & evs2 & tail & Hev & _ & Hf2 & Hft & _).
  destruct (scanPhase_extends P gs conf channelID script (world0 (Some (n, e)) st))
    as (evs1' & Ht1 & _ & _).
  unfold run_events in *.
  destruct (reprocessMessages_phases P gs conf channelID script (world0 (Some (n, e)) st))
    as (_ & _ & Htr).
  destruct (applyChanges_calls (Guild_ID gs) channelID
              (map_range P (scan_delta
                 (scanPhase P gs conf channelID script (world0 (Some (n, e)) st))))
              (emit EvWait (emit EvClose
                 (scanPhase P gs conf channelID script (world0 (Some (n, e)) st)).2))
              0 0 in_int64_0 in_int64_0)
    as (evsp & Htp & Hfp & _).
  rewrite Htr. unfold persistPhase. rewrite Htp, !trace_emit, Ht. simpl.
  rewrite !cursors_app. simpl.
  rewrite (cursors_quiet evsp)
    by (eapply Forall_impl; [exact Hfp | apply persist_late]).
  destruct (_ || _); simpl; rewrite !length_app; simpl; lia.
Qed.

Example sample_cancelled_fetches :
  cursors (run_events samplePlatform sampleGuild confDefault 77 sampleScript
             (Some (3%nat, ctxCanceled)) [])
  = [0; 11; 0].
Proof. vm_compute. reflexivity. Qed.

Lemma status_colour_classifies_witness :
  statusColor (statusVars_source "MAINTENANCE") = 0xE74C3C.
Proof.
  exact (proj2 (proj1 (proj2 (status_colour_classifies "MAINTENANCE")))
           (or_intror eq_refl)).
Defined.
